(** * Dialogue state engine of the dispatch voice agent

    A shallow embedding of the slot extractor and missing-slot policy
    ([services/slot_memory.py]), the emergency keyword scan
    ([services/escalation.py]), the in-process store ([db.py]), the oracle
    client ([services/openai_client.py]), the summarisation hand-off
    ([services/transcript_processor.py]) and the two turn handlers
    ([api/webhook.py], [api/llm.py]).

    Conventions of the model.
    - A Python [str] is a [string]; the character classes of [re], [lower],
      [strip] and [split] are the ASCII ones (code points above 127 are
      treated as neither word, digit nor white space and are left alone by
      [lower]).
    - A Python value that is a string or [None] is an [option string];
      a dict from slot names to such values is a [gmap string (option string)].
    - A confidence is a rational number, or [None] for a JSON null.
    - The answers of the oracle are JSON objects whose fields are strings or
      null.
    - Code that reads and writes the store, speaks, and may raise is a
      computation in the state-and-exception monad [Eff.M]: what was changed
      before an exception stays changed.
    - The oracle, the speech delivery service, the identifier generator and
      the clock are parameters ([Oracle.Collaborators]). *)

From Stdlib Require Import String Ascii List ZArith QArith Bool Lia.
From stdpp Require Import base option list gmap strings fin_maps.

Import ListNotations.
Local Open Scope string_scope.
Local Open Scope list_scope.

(** ** Python strings *)

Module PyStr.

Definition code (c : ascii) : nat := nat_of_ascii c.

Definition in_range (lo hi : nat) (c : ascii) : bool :=
  (lo <=? code c)%nat && (code c <=? hi)%nat.

Definition is_upper (c : ascii) : bool := in_range 65 90 c.
Definition is_lower (c : ascii) : bool := in_range 97 122 c.
Definition is_alpha (c : ascii) : bool := is_upper c || is_lower c.
Definition is_digit (c : ascii) : bool := in_range 48 57 c.

(** [str.isspace] on ASCII: tab, LF, VT, FF, CR, FS, GS, RS, US and space. *)
Definition is_space (c : ascii) : bool :=
  in_range 9 13 c || in_range 28 32 c.

(** [\w]: alphanumerics and the underscore. *)
Definition is_word (c : ascii) : bool :=
  is_alpha c || is_digit c || (code c =? 95)%nat.

Definition lower_char (c : ascii) : ascii :=
  if is_upper c then ascii_of_nat (code c + 32) else c.

Definition upper_char (c : ascii) : ascii :=
  if is_lower c then ascii_of_nat (code c - 32) else c.

(** [s.lower()] *)
Fixpoint lower (s : string) : string :=
  match s with
  | EmptyString => EmptyString
  | String c s' => String (lower_char c) (lower s')
  end.

(** [s.capitalize()] *)
Definition capitalize (s : string) : string :=
  match s with
  | EmptyString => EmptyString
  | String c s' => String (upper_char c) (lower s')
  end.

Fixpoint startswith (s p : string) : bool :=
  match p, s with
  | EmptyString, _ => true
  | String a p', String b s' => Ascii.eqb a b && startswith s' p'
  | String _ _, EmptyString => false
  end.

(** [k in t] for strings *)
Fixpoint str_in (k t : string) : bool :=
  startswith t k ||
  match t with
  | EmptyString => false
  | String _ t' => str_in k t'
  end.

(** [any(k in t for k in ks)] *)
Definition any_in (ks : list string) (t : string) : bool :=
  existsb (fun k => str_in k t) ks.

Fixpoint lstrip_by (p : ascii -> bool) (s : string) : string :=
  match s with
  | EmptyString => EmptyString
  | String c s' => if p c then lstrip_by p s' else s
  end.

(** Strip the tail first; the head goes too when nothing is left behind it. *)
Fixpoint rstrip_by (p : ascii -> bool) (s : string) : string :=
  match s with
  | EmptyString => EmptyString
  | String c s' =>
      match rstrip_by p s' with
      | EmptyString => if p c then EmptyString else String c EmptyString
      | r => String c r
      end
  end.

(** [s.strip()] *)
Definition strip (s : string) : string := rstrip_by is_space (lstrip_by is_space s).

(** [s.rstrip(chars)] *)
Definition rstrip_chars (chars : string) (s : string) : string :=
  rstrip_by (fun c => str_in (String c EmptyString) chars) s.

(** [len(s.split())]: the number of maximal runs of non-blank characters. *)
Fixpoint count_words (in_word : bool) (s : string) : nat :=
  match s with
  | EmptyString => 0
  | String c s' =>
      if is_space c then count_words false s'
      else if in_word then count_words true s'
      else S (count_words true s')
  end.

Definition split_len (s : string) : nat := count_words false s.

(** Python truthiness of a string-or-None value. *)
Definition truthy (v : option string) : bool :=
  match v with
  | Some s => negb (String.eqb s "")
  | None => false
  end.

(** [v or d] on string-or-None values, the result used as a string. *)
Definition or_else (v : option string) (d : string) : string :=
  match v with
  | Some s => if String.eqb s "" then d else s
  | None => d
  end.

End PyStr.

(** ** The fragment of [re] used by the handlers

    Every pattern in the source carries [(?i)], so literals are matched
    ignoring case.  Every quantifier in the source is greedy and applies to a
    single character class, hence [Rep] takes a class.  [rmatch] lists the
    ways a pattern can match at a position in the order in which a
    backtracking matcher tries them; [search] takes the first one at the
    leftmost position that has any. *)

Module Re.
Import PyStr.

Inductive regex : Type :=
| Lit (s : string)
| Cls (p : ascii -> bool)
| Rep (p : ascii -> bool) (lo : nat) (hi : option nat)
| Bnd
| Eos
| Seq (r1 r2 : regex)
| Alt (r1 r2 : regex)
| Grp (n : nat) (r : regex).

Record mstate : Type := MState {
  m_prev : option ascii;
  m_rest : string;
  m_caps : gmap nat string
}.

Definition word_opt (c : option ascii) : bool :=
  match c with Some a => is_word a | None => false end.

Definition next_char (s : string) : option ascii :=
  match s with String c _ => Some c | EmptyString => None end.

Definition at_boundary (st : mstate) : bool :=
  xorb (word_opt (m_prev st)) (word_opt (next_char (m_rest st))).

(** [$]: the end of the text, or just before a final line feed. *)
Definition at_end (s : string) : bool :=
  match s with
  | EmptyString => true
  | String c EmptyString => Ascii.eqb c (ascii_of_nat 10)
  | _ => false
  end.

Fixpoint match_lit (l : string) (st : mstate) : list mstate :=
  match l with
  | EmptyString => [st]
  | String a l' =>
      match m_rest st with
      | String c s' =>
          if Ascii.eqb (lower_char c) (lower_char a)
          then match_lit l' (MState (Some c) s' (m_caps st))
          else []
      | EmptyString => []
      end
  end.

Definition hi_allows (hi : option nat) : bool :=
  match hi with Some 0%nat => false | _ => true end.

Definition hi_pred (hi : option nat) : option nat :=
  match hi with Some n => Some (pred n) | None => None end.

Definition stop_here (lo : nat) (st : mstate) : list mstate :=
  match lo with 0%nat => [st] | S _ => [] end.

(** Greedy [p{lo,hi}]: one more character first, stopping here second. *)
Fixpoint match_rep (p : ascii -> bool) (lo : nat) (hi : option nat)
    (prev : option ascii) (caps : gmap nat string) (s : string) : list mstate :=
  match s with
  | String c s' =>
      (if hi_allows hi && p c
       then match_rep p (pred lo) (hi_pred hi) (Some c) caps s'
       else [])
      ++ stop_here lo (MState prev s caps)
  | EmptyString => stop_here lo (MState prev s caps)
  end.

(** The text consumed between two states of one run. *)
Definition taken (st st' : mstate) : string :=
  substring 0 (String.length (m_rest st) - String.length (m_rest st')) (m_rest st).

Definition set_cap (n : nat) (st st' : mstate) : mstate :=
  MState (m_prev st') (m_rest st') (<[n := taken st st']> (m_caps st')).

Fixpoint rmatch (r : regex) (st : mstate) : list mstate :=
  match r with
  | Lit l => match_lit l st
  | Cls p =>
      match m_rest st with
      | String c s' => if p c then [MState (Some c) s' (m_caps st)] else []
      | EmptyString => []
      end
  | Rep p lo hi => match_rep p lo hi (m_prev st) (m_caps st) (m_rest st)
  | Bnd => if at_boundary st then [st] else []
  | Eos => if at_end (m_rest st) then [st] else []
  | Seq r1 r2 => concat (map (rmatch r2) (rmatch r1 st))
  | Alt r1 r2 => rmatch r1 st ++ rmatch r2 st
  | Grp n r1 => map (set_cap n st) (rmatch r1 st)
  end.

(** The least number of characters any match of a pattern consumes. *)
Fixpoint min_len (r : regex) : nat :=
  match r with
  | Lit l => String.length l
  | Cls _ => 1
  | Rep _ lo _ => lo
  | Bnd => 0
  | Eos => 0
  | Seq r1 r2 => min_len r1 + min_len r2
  | Alt r1 r2 => Nat.min (min_len r1) (min_len r2)
  | Grp _ r1 => min_len r1
  end.

(** A match object: [group(0)] and the numbered groups. *)
Record rematch : Type := ReMatch {
  group0 : string;
  groups : gmap nat string
}.

Definition group (m : rematch) (n : nat) : option string := groups m !! n.

Fixpoint search_from (r : regex) (prev : option ascii) (s : string) : option rematch :=
  let st := MState prev s ∅ in
  match rmatch r st with
  | st' :: _ => Some (ReMatch (taken st st') (m_caps st'))
  | [] =>
      match s with
      | String c s' => search_from r (Some c) s'
      | EmptyString => None
      end
  end.

(** [re.search(r, s)] *)
Definition search (r : regex) (s : string) : option rematch :=
  search_from r None s.

(** [re.sub(r, "", s)]: every match, found from left to right, is dropped.
    [skip] counts the characters of the current match still to drop. *)
Fixpoint sub_go (r : regex) (prev : option ascii) (skip : nat) (s : string) : string :=
  match s with
  | EmptyString => EmptyString
  | String c s' =>
      match skip with
      | S k => sub_go r (Some c) k s'
      | O =>
          let st := MState prev s ∅ in
          match rmatch r st with
          | st' :: _ =>
              match String.length (taken st st') with
              | S k => sub_go r (Some c) k s'
              | O => String c (sub_go r (Some c) 0 s')
              end
          | [] => String c (sub_go r (Some c) 0 s')
          end
      end
  end.

Definition sub_empty (r : regex) (s : string) : string := sub_go r None 0 s.

(** Pattern combinators mirroring the regex syntax. *)
Definition plus (p : ascii -> bool) : regex := Rep p 1 None.
Definition opt (p : ascii -> bool) : regex := Rep p 0 (Some 1%nat).
Definition is_char (a : ascii) (c : ascii) : bool := Ascii.eqb (lower_char c) (lower_char a).

Fixpoint alts (rs : list regex) : regex :=
  match rs with
  | [] => Alt (Cls (fun _ => false)) (Cls (fun _ => false))
  | [r] => r
  | r :: rs' => Alt r (alts rs')
  end.

Fixpoint seqs (rs : list regex) : regex :=
  match rs with
  | [] => Lit ""
  | [r] => r
  | r :: rs' => Seq r (seqs rs')
  end.

End Re.

(** ** services/slot_memory.py *)

Module SlotMemory.
Import PyStr Re.

(** The two environment switches, as [os.getenv] sees them ([None]: unset). *)
Record env : Type := Env {
  SLOT_HEURISTICS_ENABLED : option string;
  SLOT_TEXT_TEMPLATES_ENABLED : option string
}.

(** [str(os.getenv(NAME, "true")).lower() in ("0", "false", "no")] *)
Definition switched_off (v : option string) : bool :=
  let s := lower (default "true" v) in
  String.eqb s "0" || String.eqb s "false" || String.eqb s "no".

Definition SLOT_KEYS : list string :=
  ["driver_status"; "current_location"; "eta"; "emergency_type"; "emergency_location"].

Definition status_words : list string :=
  ["driving"; "delayed"; "arrived"; "dispatched"; "stopped"; "waiting"].

Definition emergency_context_words : list string :=
  ["emergency"; "accident"; "crash"; "injury"; "medical"; "breakdown"; "fire"].

Definition emergency_type_words : list string :=
  ["accident"; "breakdown"; "medical"; "fire"; "other"].

Definition misspellings : list (string * string) :=
  [("moutan", "Multan"); ("mudan", "Multan"); ("muzan", "Multan");
   ("muntan", "Multan"); ("lahar", "Lahore")].

Definition ws : regex := plus is_space.

(** [[\w\-\s,]] *)
Definition loc_tail (c : ascii) : bool :=
  is_word c || is_char "-" c || is_space c || is_char "," c.

(** [(?i)\b(?:my\s+location\s+is|location\s+is|currently\s+in|in|at|near|around|by|on)\s+([A-Za-z][\w\-\s,]{2,})\b] *)
Definition loc_re : regex :=
  seqs [Bnd;
        alts [seqs [Lit "my"; ws; Lit "location"; ws; Lit "is"];
              seqs [Lit "location"; ws; Lit "is"];
              seqs [Lit "currently"; ws; Lit "in"];
              Lit "in"; Lit "at"; Lit "near"; Lit "around"; Lit "by"; Lit "on"];
        ws;
        Grp 1 (Seq (Cls is_alpha) (Rep loc_tail 2 None));
        Bnd].

Definition am_pm : regex := Alt (Lit "am") (Lit "pm").

(** [(?i)\b(\d{1,2}\s?(am|pm))\b|\b\d{1,2}:\d{2}\b] *)
Definition eta_digit_re : regex :=
  Alt (seqs [Bnd;
             Grp 1 (seqs [Rep is_digit 1 (Some 2%nat); opt is_space; Grp 2 am_pm]);
             Bnd])
      (seqs [Bnd; Rep is_digit 1 (Some 2%nat); Lit ":";
             Rep is_digit 2 (Some 2%nat); Bnd]).

(** [(?i)\b(one|two|three|four|five|six|seven|eight|nine|ten|eleven|twelve)\s?(am|pm)\b] *)
Definition eta_word_re : regex :=
  seqs [Bnd;
        Grp 1 (alts [Lit "one"; Lit "two"; Lit "three"; Lit "four"; Lit "five";
                     Lit "six"; Lit "seven"; Lit "eight"; Lit "nine"; Lit "ten";
                     Lit "eleven"; Lit "twelve"]);
        opt is_space;
        Grp 2 am_pm;
        Bnd].

(** [(?i)\b(in\s+\d+\s+(hours?|hrs?|minutes?|mins?))\b] *)
Definition eta_rel_re : regex :=
  seqs [Bnd;
        Grp 1 (seqs [Lit "in"; ws; plus is_digit; ws;
                     Grp 2 (alts [Seq (Lit "hour") (opt (is_char "s"));
                                  Seq (Lit "hr") (opt (is_char "s"));
                                  Seq (Lit "minute") (opt (is_char "s"));
                                  Seq (Lit "min") (opt (is_char "s"))])]);
        Bnd].

(** [(?i)\b(today|tonight|tomorrow)\b] *)
Definition eta_day_re : regex :=
  seqs [Bnd; Grp 1 (alts [Lit "today"; Lit "tonight"; Lit "tomorrow"]); Bnd].

(** The first word of [ws] that occurs in [t], capitalised. *)
Definition first_word_in (words : list string) (t : string) : option string :=
  capitalize <$> List.find (fun w => str_in w t) words.

Definition set_if (k : string) (v : option string)
    (slots : gmap string (option string)) : gmap string (option string) :=
  match v with
  | Some s => <[k := Some s]> slots
  | None => slots
  end.

(** The loop over the misspelling table: each entry is tested against the
    current value of [loc], which an earlier entry may have replaced. *)
Definition normalize_loc (loc : string) : string :=
  fold_left (fun l ab => if str_in (lower (fst ab)) (lower l) then snd ab else l)
            misspellings loc.

Definition loc_of_match (m : rematch) : string :=
  normalize_loc (rstrip_chars "." (strip (default "" (group m 1)))).

(** The [if eta_digit ... elif ...] chain. *)
Definition eta_of (lower_text : string) : option string :=
  let eta_digit := search eta_digit_re lower_text in
  let eta_word := search eta_word_re lower_text in
  let eta_rel := search eta_rel_re lower_text in
  let eta_day := search eta_day_re lower_text in
  match eta_digit with
  | Some d => Some (group0 d)
  | None =>
      match eta_word, eta_day with
      | Some w, Some d => Some (group0 d +:+ " " +:+ group0 w)
      | Some w, None => Some (group0 w)
      | None, _ =>
          match eta_rel with
          | Some r => Some (group0 r)
          | None => None
          end
      end
  end.

Definition extract_slots (e : env) (text : string) : gmap string (option string) :=
  if String.eqb text "" then ∅
  else if switched_off (SLOT_HEURISTICS_ENABLED e) then ∅
  else
    let lower_text := lower text in
    let slots0 : gmap string (option string) := ∅ in
    let slots1 := set_if "driver_status" (first_word_in status_words lower_text) slots0 in
    let slots2 :=
      if any_in emergency_context_words lower_text
      then set_if "emergency_type" (first_word_in emergency_type_words lower_text) slots1
      else slots1 in
    let slots3 :=
      match search loc_re text with
      | Some m =>
          let loc := loc_of_match m in
          let s := <["current_location" := Some loc]> slots2 in
          if any_in emergency_context_words lower_text
          then <["emergency_location" := Some loc]> s
          else s
      | None => slots2
      end in
    set_if "eta" (eta_of lower_text) slots3.

(** [d.get(k)] *)
Definition dget (d : gmap string (option string)) (k : string) : option string :=
  match d !! k with
  | Some v => v
  | None => None
  end.

(** [val is None or val == ""] *)
Definition is_missing (v : option string) : bool :=
  match v with
  | None => true
  | Some s => String.eqb s ""
  end.

Definition get_missing_slots (current : gmap string (option string)) : list string :=
  List.filter (fun key => is_missing (dget current key)) SLOT_KEYS.

Definition mem (k : string) (l : list string) : bool :=
  existsb (String.eqb k) l.

Definition build_followup_for_missing (e : env) (missing : list string) : string :=
  if switched_off (SLOT_TEXT_TEMPLATES_ENABLED e) then ""
  else match missing with
  | [] => "Thanks. Anything else you want to add?"
  | _ =>
    if mem "driver_status" missing then "Got it. What's your current status?"
    else if mem "current_location" missing then "Thanks. Where are you right now?"
    else if mem "eta" missing then "Noted. What's your ETA?"
    else if mem "emergency_type" missing then "Understood. What type of emergency is it?"
    else if mem "emergency_location" missing then "Where exactly is the emergency?"
    else "Okay, could you share a bit more?"
  end.

Definition text_of (v : option string) : string := default "" v.

Definition polite_end_from_slots (e : env) (slots : gmap string (option string)) : string :=
  let status := dget slots "driver_status" in
  let loc := dget slots "current_location" in
  let eta := dget slots "eta" in
  if negb (switched_off (SLOT_TEXT_TEMPLATES_ENABLED e))
     && (truthy status && truthy loc && truthy eta)
  then "Thanks for the update — status " +:+ text_of status +:+ ", location "
       +:+ text_of loc +:+ ", ETA " +:+ text_of eta +:+ ". Drive safe."
  else
    let etype := dget slots "emergency_type" in
    let eloc := dget slots "emergency_location" in
    if negb (switched_off (SLOT_TEXT_TEMPLATES_ENABLED e)) then
      if truthy etype && truthy eloc
      then "I have the emergency noted: " +:+ text_of etype +:+ " at " +:+ text_of eloc
           +:+ ". A dispatcher will call you immediately."
      else "Thanks for the details. We'll follow up if needed."
    else "".

End SlotMemory.


(** ** services/escalation.py *)

Module Escalation.
Import PyStr.

Definition keywords : list string :=
  ["blowout"; "accident"; "crash"; "hit"; "medical"; "chest pain"; "ambulance";
   "bleeding"; "i need help"; "pulling over"; "smoke"].

Definition detect_emergency_keywords (text : string) : bool :=
  any_in keywords (lower text).

End Escalation.

(** ** db.py: the in-process store

    [InMemoryDB] is modelled in full, except for the random identifiers and
    the wall-clock stamps it attaches to records.  [SupabaseDB] keeps the slot
    memory, the conversation state and the two counters in the same
    in-process dicts, with the same code. *)

Module Db.
Import PyStr SlotMemory.

Record segment : Type := Segment {
  seg_text : string;
  seg_speaker : string;
  seg_timestamp : option string;
  seg_confidence : option Q
}.

(** The structured summary, field by field. *)
Record summary : Type := Summary {
  call_outcome : option string;
  sum_driver_status : option string;
  sum_current_location : option string;
  sum_eta : option string;
  sum_emergency_type : option string;
  sum_emergency_location : option string;
  escalation_status : option string;
  extraction_notes : option string
}.

Record call : Type := Call {
  driver_name : option string;
  phone_number : option string;
  load_number : option string;
  agent_config_id : option string;
  status : string;
  full_transcript : list segment;
  structured_summary : option summary;
  call_escalation_status : option string
}.

Record agent_config : Type := AgentConfig {
  prompt_template : option string
}.

(** The per-call conversation state dict, with its three keys. *)
Record conv_state : Type := ConvState {
  last_prompted_slot : option string;
  prompt_retries : nat;
  last_agent_message : option string
}.

(** A dict of updates to the conversation state: [None] for an absent key. *)
Record conv_update : Type := ConvUpdate {
  set_last_prompted_slot : option (option string);
  set_prompt_retries : option nat;
  set_last_agent_message : option (option string)
}.

Record InMemoryDB : Type := MkDb {
  agent_configs : gmap string agent_config;
  calls : gmap string call;
  transcripts : list (string * segment);
  summaries : gmap string summary;
  noisy_counter : gmap string nat;
  short_counter : gmap string nat;
  slot_memory : gmap string (gmap string (option string));
  conversation_state : gmap string conv_state
}.

Definition empty_db : InMemoryDB := MkDb ∅ ∅ [] ∅ ∅ ∅ ∅ ∅.

Definition with_calls (d : InMemoryDB) (cs : gmap string call) : InMemoryDB :=
  MkDb (agent_configs d) cs (transcripts d) (summaries d) (noisy_counter d)
       (short_counter d) (slot_memory d) (conversation_state d).

Definition with_status (c : call) (s : string) : call :=
  Call (driver_name c) (phone_number c) (load_number c) (agent_config_id c) s
       (full_transcript c) (structured_summary c) (call_escalation_status c).

Definition update_call_status (d : InMemoryDB) (call_id status : string) : InMemoryDB :=
  match calls d !! call_id with
  | Some c => with_calls d (<[call_id := with_status c status]> (calls d))
  | None => d
  end.

Definition get_call (d : InMemoryDB) (call_id : string) : option call :=
  calls d !! call_id.

(** [append_transcript] first extends the flat list and then the call's own
    transcript; the second step raises [KeyError] for an unknown call, which
    is the [None] of the second component. *)
Definition append_transcript (d : InMemoryDB) (call_id : string) (seg : segment)
    : InMemoryDB * option unit :=
  let d1 := MkDb (agent_configs d) (calls d) (transcripts d ++ [(call_id, seg)])
                 (summaries d) (noisy_counter d) (short_counter d)
                 (slot_memory d) (conversation_state d) in
  match calls d !! call_id with
  | Some c =>
      let c' := Call (driver_name c) (phone_number c) (load_number c)
                     (agent_config_id c) (status c) (full_transcript c ++ [seg])
                     (structured_summary c) (call_escalation_status c) in
      (with_calls d1 (<[call_id := c']> (calls d)), Some tt)
  | None => (d1, None)
  end.

Definition increment_noisy_counter (d : InMemoryDB) (call_id : string)
    : InMemoryDB * nat :=
  let n := (default 0%nat (noisy_counter d !! call_id) + 1)%nat in
  (MkDb (agent_configs d) (calls d) (transcripts d) (summaries d)
        (<[call_id := n]> (noisy_counter d)) (short_counter d)
        (slot_memory d) (conversation_state d), n).

Definition increment_short_utterances (d : InMemoryDB) (call_id : string)
    : InMemoryDB * nat :=
  let n := (default 0%nat (short_counter d !! call_id) + 1)%nat in
  (MkDb (agent_configs d) (calls d) (transcripts d) (summaries d)
        (noisy_counter d) (<[call_id := n]> (short_counter d))
        (slot_memory d) (conversation_state d), n).

(** Raises [KeyError] for an unknown call. *)
Definition flag_escalation (d : InMemoryDB) (call_id : string) : option InMemoryDB :=
  match calls d !! call_id with
  | Some c =>
      let c' := Call (driver_name c) (phone_number c) (load_number c)
                     (agent_config_id c) (status c) (full_transcript c)
                     (structured_summary c) (Some "Escalation Flagged") in
      Some (with_calls d (<[call_id := c']> (calls d)))
  | None => None
  end.

(** The context handed to the oracle; the empty dict has every field [None]. *)
Record context : Type := Context {
  ctx_driver_name : option string;
  ctx_load_number : option string;
  ctx_call_history : option string;
  ctx_prompt_template : option string
}.

Definition empty_context : context := Context None None None None.

(** [" ".join(xs)] *)
Fixpoint join (sep : string) (xs : list string) : string :=
  match xs with
  | [] => ""
  | [x] => x
  | x :: rest => x +:+ sep +:+ join sep rest
  end.

(** Raises [KeyError] for an unknown call. *)
Definition get_call_context (d : InMemoryDB) (call_id : string) : option context :=
  match calls d !! call_id with
  | Some c =>
      let cfg := match agent_config_id c with
                 | Some a => agent_configs d !! a
                 | None => None
                 end in
      Some (Context (driver_name c) (load_number c)
              (Some (join " " (map seg_text (full_transcript c))))
              (match cfg with Some g => prompt_template g | None => Some "" end))
  | None => None
  end.

(** Raises [KeyError] for an unknown call, after the summary has been filed. *)
Definition save_summary (d : InMemoryDB) (call_id : string) (s : summary)
    : InMemoryDB * option unit :=
  let d1 := MkDb (agent_configs d) (calls d) (transcripts d)
                 (<[call_id := s]> (summaries d)) (noisy_counter d) (short_counter d)
                 (slot_memory d) (conversation_state d) in
  match calls d !! call_id with
  | Some c =>
      let c' := Call (driver_name c) (phone_number c) (load_number c)
                     (agent_config_id c) "processed" (full_transcript c)
                     (Some s) (call_escalation_status c) in
      (with_calls d1 (<[call_id := c']> (calls d)), Some tt)
  | None => (d1, None)
  end.

Definition empty_slots : gmap string (option string) :=
  <["driver_status" := None]> (<["current_location" := None]> (<["eta" := None]>
  (<["emergency_type" := None]> (<["emergency_location" := None]> ∅)))).

Definition get_slot_memory (d : InMemoryDB) (call_id : string)
    : gmap string (option string) :=
  default empty_slots (slot_memory d !! call_id).

(** One step of the loop of [update_slot_memory]. *)
Definition merge_item (k : string) (v : option string)
    (merged : gmap string (option string)) : gmap string (option string) :=
  if is_missing v then merged else <[k := v]> merged.

(** [merged[k] = v] for every item whose value is neither [None] nor [""]. *)
Definition merge_updates (current updates : gmap string (option string))
    : gmap string (option string) :=
  map_fold merge_item current updates.

Definition with_slot_memory (d : InMemoryDB)
    (sm : gmap string (gmap string (option string))) : InMemoryDB :=
  MkDb (agent_configs d) (calls d) (transcripts d) (summaries d) (noisy_counter d)
       (short_counter d) sm (conversation_state d).

Definition update_slot_memory (d : InMemoryDB) (call_id : string)
    (updates : gmap string (option string))
    : InMemoryDB * gmap string (option string) :=
  let current := get_slot_memory d call_id in
  let merged := merge_updates current updates in
  (with_slot_memory d (<[call_id := merged]> (slot_memory d)), merged).

(** A sequence of calls to [update_slot_memory], each for some call. *)
Definition update_all (d : InMemoryDB)
    (us : list (string * gmap string (option string))) : InMemoryDB :=
  fold_left (fun d u => fst (update_slot_memory d (fst u) (snd u))) us d.

Definition default_conv_state : conv_state := ConvState None 0 None.

Definition get_conversation_state (d : InMemoryDB) (call_id : string) : conv_state :=
  default default_conv_state (conversation_state d !! call_id).

Definition apply_conv_update (s : conv_state) (u : conv_update) : conv_state :=
  ConvState (default (last_prompted_slot s) (set_last_prompted_slot u))
            (default (prompt_retries s) (set_prompt_retries u))
            (default (last_agent_message s) (set_last_agent_message u)).

Definition update_conversation_state (d : InMemoryDB) (call_id : string)
    (u : conv_update) : InMemoryDB :=
  let merged := apply_conv_update (get_conversation_state d call_id) u in
  MkDb (agent_configs d) (calls d) (transcripts d) (summaries d) (noisy_counter d)
       (short_counter d) (slot_memory d) (<[call_id := merged]> (conversation_state d)).

End Db.

(** ** State, exceptions and the collaborators *)

Module Eff.

Inductive outcome (A : Type) : Type :=
| Ok (a : A)
| Raised.
Arguments Ok {A} a.
Arguments Raised {A}.

(** A computation over a state [S] that returns or raises; what it changed
    before raising stays changed. *)
Definition M (S A : Type) : Type := S -> S * outcome A.

Definition ret {S A : Type} (a : A) : M S A := fun s => (s, Ok a).

Definition bind {S A B : Type} (m : M S A) (f : A -> M S B) : M S B :=
  fun s => match m s with
           | (s', Ok a) => f a s'
           | (s', Raised) => (s', Raised)
           end.

Definition raise {S A : Type} : M S A := fun s => (s, Raised).

(** [try: m except Exception: h] *)
Definition try_except {S A : Type} (m h : M S A) : M S A :=
  fun s => match m s with
           | (s', Raised) => h s'
           | r => r
           end.

(** [try: m except Exception: pass] *)
Definition attempt {S : Type} (m : M S unit) : M S unit := try_except m (ret tt).

Definition get {S : Type} : M S S := fun s => (s, Ok s).
Definition modify {S : Type} (f : S -> S) : M S unit := fun s => (f s, Ok tt).

Definition of_option {S A : Type} (o : option A) : M S A :=
  match o with Some a => ret a | None => raise end.

Definition when {S : Type} (b : bool) (m : M S unit) : M S unit :=
  if b then m else ret tt.

End Eff.

Notation "x <- m ;; k" := (Eff.bind m (fun x => k))
  (at level 100, m at next level, right associativity).
Notation "m ;; k" := (Eff.bind m (fun _ => k))
  (at level 100, right associativity).

Module Oracle.
Import PyStr SlotMemory Db Eff.

(** The JSON object the oracle answers with. *)
Record decision : Type := Decision {
  agent_text : option string;
  action : option string;
  structured_emergency : option (gmap string (option string))
}.

(** What the handlers cannot see into: the environment switches, the chat
    completion service (one outcome per attempt, [None] when the attempt
    raises), the speech delivery service, the identifier generator, the
    clock and the call index by provider identifier (absent from
    [InMemoryDB], hence [None] there: the call raises). *)
Class Collaborators : Type := {
  environ : env;
  simulated : bool;
  chat_decide : context -> option string -> nat -> option decision;
  chat_emergency : option decision;
  chat_summarize : string -> nat -> option summary;
  speak_fails : string -> string -> bool;
  uuid4 : InMemoryDB -> string;
  utcnow : string;
  get_call_by_retell_id : InMemoryDB -> string -> option (option string)
}.

Section Client.
Context `{X : Collaborators}.

(** [@retry(wait=wait_exponential(min=1, max=10), stop=stop_after_attempt(3))]:
    at most three attempts, the last failure is raised. *)
Definition retry3 {A : Type} (attempt : nat -> option A) : option A :=
  match attempt 0%nat with
  | Some a => Some a
  | None =>
      match attempt 1%nat with
      | Some a => Some a
      | None => attempt 2%nat
      end
  end.

(** One attempt of [decide_next_action]; in simulated mode
    [last_driver_utterance.lower()] raises on [None]. *)
Definition decide_once (ctx : context) (utterance : option string) (n : nat)
    : option decision :=
  if simulated then
    match utterance with
    | Some u =>
        if str_in "arrived" (lower u)
        then Some (Decision (Some "Thanks for the update. Ending the call.")
                            (Some "end_call") None)
        else Some (Decision (Some "Got it. Any delays or ETA?")
                            (Some "ask_followup") None)
    | None => None
    end
  else chat_decide ctx utterance n.

Definition decide_next_action (ctx : context) (utterance : option string)
    : option decision :=
  retry3 (decide_once ctx utterance).

Definition simulated_emergency : gmap string (option string) :=
  <["emergency_type" := Some "Breakdown"]> (<["emergency_location" := None]>
  (<["injuries" := Some "unknown"]> (<["notes" := Some "Simulated emergency"]> ∅))).

(** [emergency_protocol] carries no retry decorator: one attempt. *)
Definition emergency_protocol : option decision :=
  if simulated then
    Some (Decision
            (Some "Emergency noted. A human dispatcher will call you back immediately.")
            (Some "escalate") (Some simulated_emergency))
  else chat_emergency.

Definition summarize_once (transcript_text : string) (n : nat) : option summary :=
  if simulated then
    let text := lower transcript_text in
    if str_in "blowout" text || str_in "accident" text then
      Some (Summary (Some "Emergency Detected") None None None (Some "Breakdown")
              (if str_in "123" text then Some "I-15 North, Mile Marker 123" else None)
              (Some "Escalation Flagged")
              (Some "Driver reported blowout and pulled over, no injuries."))
    else if str_in "indio" text || str_in "i-10" text then
      Some (Summary (Some "In-Transit Update") (Some "Driving")
              (Some "I-10 near Indio, CA") (Some "Tomorrow, 8:00 AM") None None None
              (Some "Clear in-transit update."))
    else
      Some (Summary (Some "Unknown") None None None None None None
              (Some "Simulated summarizer could not determine."))
  else chat_summarize transcript_text n.

Definition summarize (transcript_text : string) : option summary :=
  retry3 (summarize_once transcript_text).

End Client.
End Oracle.

(** ** services/transcript_processor.py *)

Module Processor.
Import PyStr SlotMemory Db Eff Oracle.

Section Processor.
Context `{X : Collaborators}.

Definition newline : string := String (ascii_of_nat 10) "".

(** [f"{seg.get('timestamp')} {seg.get('speaker')}: {seg.get('text')}"] *)
Definition segment_line (seg : segment) : string :=
  default "None" (seg_timestamp seg) +:+ " " +:+ seg_speaker seg +:+ ": " +:+ seg_text seg.

Definition noisy_summary : summary :=
  Summary (Some "Unknown") None None None None None None
          (Some "Noisy - transcript low confidence").

Definition no_response_summary : summary :=
  Summary (Some "No Response") None None None None None None
          (Some "Driver did not provide substantive responses").

(** [if d.get(k): ... = d.get(k)] *)
Definition pick_truthy (new old : option string) : option string :=
  if truthy new then new else old.

(** [if d.get(k) is not None: ... = d.get(k)] *)
Definition pick_not_none (new old : option string) : option string :=
  match new with Some _ => new | None => old end.

Definition with_emergency (s : summary) (info : gmap string (option string)) : summary :=
  Summary (Some "Emergency Detected") (sum_driver_status s) (sum_current_location s)
          (sum_eta s)
          (pick_truthy (dget info "emergency_type") (sum_emergency_type s))
          (pick_truthy (dget info "emergency_location") (sum_emergency_location s))
          (Some "Escalation Flagged") (extraction_notes s).

Definition with_slots (s : summary) (slots : gmap string (option string)) : summary :=
  Summary (call_outcome s)
          (pick_not_none (dget slots "driver_status") (sum_driver_status s))
          (pick_not_none (dget slots "current_location") (sum_current_location s))
          (pick_not_none (dget slots "eta") (sum_eta s))
          (pick_not_none (dget slots "emergency_type") (sum_emergency_type s))
          (pick_not_none (dget slots "emergency_location") (sum_emergency_location s))
          (escalation_status s) (extraction_notes s).

Definition dict_truthy {V : Type} (d : gmap string V) : bool :=
  negb (Nat.eqb (size d) 0).

Definition process_transcript_and_store (call_id : string)
    (emergency_info : option (gmap string (option string)))
    (noisy no_response : bool) : M InMemoryDB unit :=
  d <- get ;;
  match get_call d call_id with
  | None => ret tt
  | Some c =>
      let transcript_text := join newline (map segment_line (full_transcript c)) in
      s <- (if noisy then ret noisy_summary
            else if no_response then ret no_response_summary
            else
              s0 <- of_option (summarize transcript_text) ;;
              ret (match emergency_info with
                   | Some info => if dict_truthy info then with_emergency s0 info else s0
                   | None => s0
                   end)) ;;
      let slots := get_slot_memory d call_id in
      let s' := if dict_truthy slots then with_slots s slots else s in
      fun d0 => let (d1, r) := save_summary d0 call_id s' in (d1, match r with Some _ => Ok tt | None => Raised end)
  end.

End Processor.
End Processor.

(** ** api/webhook.py *)

Module Webhook.
Import PyStr SlotMemory Escalation Db Eff Oracle Processor.

(** The event after the handler has normalised it: [event_type] and
    [call_id] as found in the body, and the payload fields the handler reads,
    defaults already applied ([speech_text] "", [speaker] "driver",
    [confidence] 1.0; a JSON null confidence is [None]). *)
Record event : Type := Event {
  event_type : string;
  call_id : string;
  timestamp : option string;
  speech_text : string;
  speaker : string;
  confidence : option Q;
  interaction_type : option string;
  pl_from : option string;
  pl_caller : option string;
  pl_caller_name : option string;
  pl_load_number : option string;
  pl_agent_config_id : option string
}.

(** The JSON bodies the handler returns. *)
Inductive response : Type :=
| RespOk | RespUpdated | RespContinued | RespFollowup | RespEnded
| RespEscalated | RespIgnored.

(** The store and what has been handed to the speech service, oldest first. *)
Record world : Type := World {
  w_db : InMemoryDB;
  w_spoken : list (string * string)
}.

Section Handler.
Context `{X : Collaborators}.

Definition on_db {A : Type} (m : M InMemoryDB A) : M world A :=
  fun w => let (d, r) := m (w_db w) in (World d (w_spoken w), r).

Definition db_do (f : InMemoryDB -> InMemoryDB) : M world unit :=
  on_db (modify f).

Definition db_read {A : Type} (f : InMemoryDB -> A) : M world A :=
  on_db (d <- get ;; ret (f d)).

(** [await RetellClient().speak(call_id, text)] *)
Definition speak (cid text : string) : M world unit :=
  if speak_fails cid text then raise
  else fun w => (World (w_db w) (w_spoken w ++ [(cid, text)]), Ok tt).

(** [confidence is not None and confidence < 0.5] *)
Definition low_confidence (c : option Q) : bool :=
  match c with
  | Some q => negb (Qle_bool (1 # 2) q)
  | None => false
  end.

Definition is_noisy (c : option Q) (text : string) : bool :=
  low_confidence c || str_in "[inaudible]" (lower text).

Definition says_goodbye (text : string) : bool :=
  any_in ["bye"; "goodbye"] (lower text) || str_in "arrived" (lower text).

Definition finish (cid : string) (emergency_info : option (gmap string (option string)))
    (noisy no_response : bool) : M world unit :=
  db_do (fun d => update_call_status d cid "completed") ;;
  on_db (process_transcript_and_store cid emergency_info noisy no_response).

(** Lines 142-154: slot and conversation state are refreshed first. *)
Definition refresh_state (ev : event) : M world unit :=
  let cid := call_id ev in
  let text := speech_text ev in
  when (String.eqb (speaker ev) "driver" && negb (String.eqb text ""))
    (let slot_updates := extract_slots environ text in
     when (dict_truthy slot_updates)
          (db_do (fun d => fst (update_slot_memory d cid slot_updates))) ;;
     state <- db_read (fun d => get_conversation_state d cid) ;;
     match last_prompted_slot state with
     | Some last_slot =>
         when (negb (String.eqb last_slot "") && truthy (dget slot_updates last_slot))
              (db_do (fun d => update_conversation_state d cid
                                 (ConvUpdate (Some None) (Some 0%nat) None)))
     | None => ret tt
     end).

(** The rephrasing ladder of lines 237-249. *)
Definition rephrase (retries : nat) (next_slot prompt : string) : string :=
  if Nat.eqb retries 1 then
    if String.eqb next_slot "driver_status" then "Thanks. Could you share your current status now?"
    else if String.eqb next_slot "current_location" then "And where are you at the moment?"
    else if String.eqb next_slot "eta" then "When do you expect to arrive?"
    else if String.eqb next_slot "emergency_type" then "What kind of emergency is it?"
    else if String.eqb next_slot "emergency_location" then "Where exactly is the emergency happening?"
    else prompt
  else if (2 <=? retries)%nat then
    "If it's easier, just tell me one thing: your status, location, or ETA."
  else prompt.

Definition ask_oracle (cid text : string) : M world decision :=
  context <- (d <- db_read (fun d => d) ;; of_option (get_call_context d cid)) ;;
  of_option (decide_next_action context (Some text)).

(** Lines 199-253: the body of the [try]. *)
Definition slot_driven (ev : event) : M world response :=
  let cid := call_id ev in
  let text := speech_text ev in
  slots <- db_read (fun d => get_slot_memory d cid) ;;
  let missing := get_missing_slots slots in
  if says_goodbye text then
    speak cid (polite_end_from_slots environ slots) ;;
    finish cid None false false ;;
    ret RespEnded
  else
    match missing with
    | [] =>
        end_text <- (let t := polite_end_from_slots environ slots in
                     if String.eqb t "" then
                       decision <- ask_oracle cid text ;;
                       ret (or_else (agent_text decision) "Thanks, ending the call.")
                     else ret t) ;;
        speak cid end_text ;;
        finish cid None false false ;;
        ret RespEnded
    | next_slot :: _ =>
        state <- db_read (fun d => get_conversation_state d cid) ;;
        let retries := prompt_retries state in
        prompt <- (let p := build_followup_for_missing environ missing in
                   if String.eqb p "" then
                     decision <- ask_oracle cid text ;;
                     ret (or_else (agent_text decision) "Okay.")
                   else ret p) ;;
        let prompt := rephrase retries next_slot prompt in
        speak cid prompt ;;
        db_do (fun d => update_conversation_state d cid
                          (ConvUpdate (Some (Some next_slot)) (Some (retries + 1)%nat)
                                      (Some (Some prompt)))) ;;
        ret RespOk
    end.

(** [db.flag_escalation(call_id)] *)
Definition flag (cid : string) : M world unit :=
  on_db (fun d => match flag_escalation d cid with
                  | Some d' => (d', Ok tt)
                  | None => (d, Raised)
                  end).

(** Lines 254-265: the [except] branch. *)
Definition llm_fallback (ev : event) : M world response :=
  let cid := call_id ev in
  decision <- ask_oracle cid (speech_text ev) ;;
  speak cid (or_else (agent_text decision) "Okay.") ;;
  let act := default "" (action decision) in
  when (String.eqb act "end_call" || String.eqb act "escalate")
       (when (String.eqb act "escalate") (flag cid) ;;
        finish cid None false false) ;;
  ret RespOk.

(** Lines 188-196. *)
Definition emergency_path (ev : event) : M world response :=
  let cid := call_id ev in
  resp <- of_option emergency_protocol ;;
  text <- of_option (agent_text resp) ;;
  speak cid text ;;
  flag cid ;;
  finish cid (structured_emergency resp) false false ;;
  ret RespEscalated.

(** Line 139: the segment is stored first, for the audit trail. *)
Definition record_segment (ev : event) : M world unit :=
  on_db (fun d => let (d', r) := append_transcript d (call_id ev)
                    (Segment (speech_text ev) (speaker ev) (timestamp ev) (confidence ev)) in
                  (d', match r with Some _ => Ok tt | None => Raised end)).

(** Lines 188-265: emergency keywords, then the slot-driven reply. *)
Definition reply (ev : event) : M world response :=
  if detect_emergency_keywords (speech_text ev) then emergency_path ev
  else try_except (slot_driven ev) (llm_fallback ev).

(** Lines 174-186: the uncooperative-driver guard, tried before [reply]. *)
Definition short_guard (ev : event) : M world response :=
  let cid := call_id ev in
  if String.eqb (speaker ev) "driver" && (split_len (speech_text ev) <? 3)%nat then
    short_count <- on_db (fun d => let (d', n) := increment_short_utterances d cid in
                                   (d', Ok n)) ;;
    if Nat.eqb short_count 1 || Nat.eqb short_count 2 then
      speak cid "Could you clarify your status or location?" ;;
      ret RespFollowup
    else if (3 <=? short_count)%nat then
      speak cid "I'll have dispatch follow up shortly. Thank you." ;;
      finish cid None false true ;;
      ret RespEnded
    else reply ev
  else reply ev.

(** Lines 160-172: the noise guard, tried before [short_guard]. *)
Definition noise_guard (ev : event) : M world response :=
  let cid := call_id ev in
  if is_noisy (confidence ev) (speech_text ev) then
    low_count <- on_db (fun d => let (d', n) := increment_noisy_counter d cid in
                                 (d', Ok n)) ;;
    if (low_count <=? 2)%nat then
      speak cid "I didn't catch that, could you please repeat?" ;;
      ret RespContinued
    else
      speak cid "I am having trouble hearing you, please wait for a human dispatcher to call." ;;
      finish cid None true false ;;
      ret RespEnded
  else short_guard ev.

(** Lines 132-265: a speech, update-only or transcript-update event. *)
Definition on_speech (ev : event) : M world response :=
  record_segment ev ;;
  refresh_state ev ;;
  if String.eqb (event_type ev) "update_only"
     || bool_decide (interaction_type ev = Some "update_only")
  then ret RespUpdated
  else noise_guard ev.

(** Lines 110-130. *)
Definition on_call_started (ev : event) : M world response :=
  let cid := call_id ev in
  d <- db_read (fun d => d) ;;
  when (negb (bool_decide (is_Some (get_call d cid))))
       (db_do (fun d =>
          let c := Call (Some (or_else (pl_caller_name ev) "Unknown"))
                        (Some (or_else (pl_from ev) (or_else (pl_caller ev) "unknown")))
                        (pl_load_number ev) (pl_agent_config_id ev)
                        "queued" [] None None in
          with_calls d (<[uuid4 d := c]> (calls d)))) ;;
  db_do (fun d => update_call_status d cid "in_progress") ;;
  ret RespOk.

(** [retell_webhook], from the point where the event has been parsed. *)
Definition retell_webhook (ev : event) : M world response :=
  if String.eqb (call_id ev) "" || String.eqb (event_type ev) "" then raise
  else if String.eqb (event_type ev) "call.started" then on_call_started ev
  else if String.eqb (event_type ev) "speech"
          || String.eqb (event_type ev) "update_only"
          || String.eqb (event_type ev) "transcript_update"
  then on_speech ev
  else if String.eqb (event_type ev) "call.ended" then
    finish (call_id ev) None false false ;;
    ret RespOk
  else ret RespIgnored.

End Handler.
End Webhook.

(** ** api/llm.py: the duplex channel

    The loop of [retell_custom_llm_ws] is modelled frame by frame.  The
    keep-alive task, which only sends pings on a timer, is left out.  The
    scalar fields of a message have the types the provider documents. *)

Module Llm.
Import PyStr Re SlotMemory Escalation Db Eff Oracle Processor.

(** An entry of [transcript] or [conversation]. *)
Record utter : Type := Utter {
  role : option string;
  u_speaker : option string;
  content : option string;
  u_text : option string
}.

(** A parsed message of the provider.  [b_conversation] stands for
    [body.get("conversation") or body.get("messages") or []]. *)
Record body : Type := Body {
  b_interaction_type : option string;
  b_response_id : option Z;
  b_timestamp : option string;
  b_transcript : list utter;
  b_conversation : list utter;
  b_call_id : option string;
  meta_call_id : option string;
  meta_driver_name : option string;
  meta_load_number : option string;
  meta_agent_config_id : option string
}.

(** An entry of [transcript] or [conversation] as it arrives: a JSON object,
    or any other JSON value, on which [msg.get] raises. *)
Inductive entry : Type :=
| Obj (m : utter)
| NotObj.

(** What [websocket.receive()] yields, or that it raises ([Disconnect]; the
    empty reply of line 176 not being taken has the same effect, the [break]
    of line 180).  [NotObject] is a text frame whose JSON is no object.  [Loose b t c
    delivered] is a text frame holding the object [b] with [t] and [c] in
    place of its two lists, whose entries need not be objects; [delivered]
    tells whether the peer still takes what the round sends: when it does
    not, [send_text] raises.  [Msg b] is the frame of a peer that keeps to the
    protocol: every entry is an object and the reply is taken. *)
Inductive frame : Type :=
| NonText
| BadJson
| Msg (b : body)
| Disconnect
| NotObject
| Loose (b : body) (transcript conversation : list entry) (delivered : bool).

(** What the handler sends. *)
Inductive out_frame : Type :=
| Config
| Begin (text : string)
| Interrupt (text : string)
| Pong (ts : option string)
| EmptyReply
| Response (response_id : option Z) (text : string) (end_call : bool)
| Close (code : nat).

Record captured : Type := Captured {
  cap_status : bool;
  cap_location : bool;
  cap_eta : bool
}.

Record slot_values : Type := SlotValues {
  sv_status : option string;
  sv_location : option string;
  sv_eta : option string
}.

(** The store, the frames sent so far, and the local variables of
    [retell_custom_llm_ws]: those that live across turns and the three that
    every turn resets ([agent_text], [end_now_affirm], [decision_current]).
    [finished] tells that the function has left its loop, by the [break] of
    line 180 or by an exception, and returned. *)
Record session : Type := Session {
  s_db : InMemoryDB;
  s_sent : list out_frame;
  path_call_id : string;
  last_response_id_handled : option Z;
  last_agent_text_sent : string;
  opening_sent : bool;
  awaiting_confirmation : bool;
  db_call_id : string;
  s_captured : captured;
  s_slot_values : slot_values;
  finished : bool;
  s_agent_text : string;
  end_now_affirm : bool;
  decision_current : option decision
}.

Definition new_session (d : InMemoryDB) (call_id : string) : session :=
  Session d [] call_id None "" false false "" (Captured false false false)
          (SlotValues None None None) false "" false None.

Definition set_db (s : session) (d : InMemoryDB) : session :=
  Session d (s_sent s) (path_call_id s) (last_response_id_handled s)
    (last_agent_text_sent s) (opening_sent s) (awaiting_confirmation s) (db_call_id s)
    (s_captured s) (s_slot_values s) (finished s) (s_agent_text s) (end_now_affirm s)
    (decision_current s).

Definition set_sent (s : session) (l : list out_frame) : session :=
  Session (s_db s) l (path_call_id s) (last_response_id_handled s)
    (last_agent_text_sent s) (opening_sent s) (awaiting_confirmation s) (db_call_id s)
    (s_captured s) (s_slot_values s) (finished s) (s_agent_text s) (end_now_affirm s)
    (decision_current s).

Definition set_last_response_id_handled (s : session) (r : option Z) : session :=
  Session (s_db s) (s_sent s) (path_call_id s) r
    (last_agent_text_sent s) (opening_sent s) (awaiting_confirmation s) (db_call_id s)
    (s_captured s) (s_slot_values s) (finished s) (s_agent_text s) (end_now_affirm s)
    (decision_current s).

Definition set_last_agent_text_sent (s : session) (t : string) : session :=
  Session (s_db s) (s_sent s) (path_call_id s) (last_response_id_handled s)
    t (opening_sent s) (awaiting_confirmation s) (db_call_id s)
    (s_captured s) (s_slot_values s) (finished s) (s_agent_text s) (end_now_affirm s)
    (decision_current s).

Definition set_opening_sent (s : session) (b : bool) : session :=
  Session (s_db s) (s_sent s) (path_call_id s) (last_response_id_handled s)
    (last_agent_text_sent s) b (awaiting_confirmation s) (db_call_id s)
    (s_captured s) (s_slot_values s) (finished s) (s_agent_text s) (end_now_affirm s)
    (decision_current s).

Definition set_awaiting_confirmation (s : session) (b : bool) : session :=
  Session (s_db s) (s_sent s) (path_call_id s) (last_response_id_handled s)
    (last_agent_text_sent s) (opening_sent s) b (db_call_id s)
    (s_captured s) (s_slot_values s) (finished s) (s_agent_text s) (end_now_affirm s)
    (decision_current s).

Definition set_db_call_id (s : session) (c : string) : session :=
  Session (s_db s) (s_sent s) (path_call_id s) (last_response_id_handled s)
    (last_agent_text_sent s) (opening_sent s) (awaiting_confirmation s) c
    (s_captured s) (s_slot_values s) (finished s) (s_agent_text s) (end_now_affirm s)
    (decision_current s).

Definition set_captured (s : session) (c : captured) : session :=
  Session (s_db s) (s_sent s) (path_call_id s) (last_response_id_handled s)
    (last_agent_text_sent s) (opening_sent s) (awaiting_confirmation s) (db_call_id s)
    c (s_slot_values s) (finished s) (s_agent_text s) (end_now_affirm s)
    (decision_current s).

Definition set_slot_values (s : session) (v : slot_values) : session :=
  Session (s_db s) (s_sent s) (path_call_id s) (last_response_id_handled s)
    (last_agent_text_sent s) (opening_sent s) (awaiting_confirmation s) (db_call_id s)
    (s_captured s) v (finished s) (s_agent_text s) (end_now_affirm s)
    (decision_current s).

Definition set_finished (s : session) (b : bool) : session :=
  Session (s_db s) (s_sent s) (path_call_id s) (last_response_id_handled s)
    (last_agent_text_sent s) (opening_sent s) (awaiting_confirmation s) (db_call_id s)
    (s_captured s) (s_slot_values s) b (s_agent_text s) (end_now_affirm s)
    (decision_current s).

Definition set_agent_text (s : session) (t : string) : session :=
  Session (s_db s) (s_sent s) (path_call_id s) (last_response_id_handled s)
    (last_agent_text_sent s) (opening_sent s) (awaiting_confirmation s) (db_call_id s)
    (s_captured s) (s_slot_values s) (finished s) t (end_now_affirm s)
    (decision_current s).

Definition set_end_now_affirm (s : session) (b : bool) : session :=
  Session (s_db s) (s_sent s) (path_call_id s) (last_response_id_handled s)
    (last_agent_text_sent s) (opening_sent s) (awaiting_confirmation s) (db_call_id s)
    (s_captured s) (s_slot_values s) (finished s) (s_agent_text s) b
    (decision_current s).

Definition set_decision_current (s : session) (d : option decision) : session :=
  Session (s_db s) (s_sent s) (path_call_id s) (last_response_id_handled s)
    (last_agent_text_sent s) (opening_sent s) (awaiting_confirmation s) (db_call_id s)
    (s_captured s) (s_slot_values s) (finished s) (s_agent_text s) (end_now_affirm s)
    d.

(** [a or b] on string-or-None values. *)
Definition py_or (a b : option string) : option string :=
  if truthy a then a else b.

(** [msg.get("content") or msg.get("text") or ""] *)
Definition utter_text (m : utter) : string :=
  or_else (py_or (content m) (u_text m)) "".

(** [msg.get("role") or msg.get("speaker")] *)
Definition utter_role (m : utter) : option string :=
  py_or (role m) (u_speaker m).

(** [xs[-n:]] *)
Definition last_n {A : Type} (n : nat) (xs : list A) : list A :=
  skipn (length xs - n) xs.

Definition misspellings_ws : list (string * string) :=
  [("moutan", "Multan"); ("mudan", "Multan"); ("muzan", "Multan");
   ("muntan", "Multan"); ("muntaan", "Multan"); ("lahar", "Lahore")].

(** [(?i)\b(right\s+now|currently|for\s+now)\b\.?$] *)
Definition filler_re : regex :=
  seqs [Bnd;
        Grp 1 (alts [seqs [Lit "right"; ws; Lit "now"]; Lit "currently";
                     seqs [Lit "for"; ws; Lit "now"]]);
        Bnd; opt (is_char "."); Eos].

(** [(?i)\beta\b|\beta\s+is\b] *)
Definition eta_token_re : regex :=
  Alt (seqs [Bnd; Lit "eta"; Bnd]) (seqs [Bnd; Lit "eta"; ws; Lit "is"; Bnd]).

(** The pattern of line 320, which scans the transcript window. *)
Definition eta_window_re : regex :=
  alts [seqs [Bnd;
              Grp 1 (seqs [Rep is_digit 1 (Some 2%nat); opt is_space; Grp 2 am_pm]);
              Bnd];
        seqs [Bnd; Rep is_digit 1 (Some 2%nat); Lit ":"; Rep is_digit 2 (Some 2%nat); Bnd];
        seqs [Bnd; Lit "noon"; Bnd];
        seqs [Bnd; Lit "midnight"; Bnd];
        seqs [Bnd; Lit "ETA"; Bnd];
        seqs [Bnd;
              Grp 3 (seqs [Lit "in"; ws; plus is_digit; ws;
                           Grp 4 (alts [Seq (Lit "hour") (opt (is_char "s"));
                                        Seq (Lit "hr") (opt (is_char "s"));
                                        Seq (Lit "minute") (opt (is_char "s"));
                                        Seq (Lit "min") (opt (is_char "s"))])]);
              Bnd];
        seqs [Bnd; Grp 5 (alts [Lit "today"; Lit "tonight"; Lit "tomorrow"]); Bnd]].

Definition status_words_ws : list string :=
  ["driving"; "delayed"; "arrived"; "dispatched"].

Definition affirmative_words : list string :=
  ["yes"; "yeah"; "yep"; "correct"; "right"; "confirm"; "confirmed"].

Definition negative_words : list string :=
  ["no"; "nope"; "incorrect"; "not correct"; "wrong"].

(** Lines 395-410: the location of this utterance, normalised. *)
Definition normalized_location (m : rematch) : string :=
  let loc_raw := rstrip_chars "." (strip (default "" (group m 1))) in
  let loc_norm :=
    fold_left (fun l ab => if str_in (lower (fst ab)) (lower l) then snd ab else l)
              misspellings_ws loc_raw in
  rstrip_chars " ,." (strip (sub_empty filler_re loc_norm)).

(** Lines 439-446. *)
Definition eta_text (lower_text : string) : option string :=
  match search eta_digit_re lower_text with
  | Some d => Some (group0 d)
  | None =>
      match search eta_word_re lower_text, search eta_day_re lower_text with
      | Some w, Some d => Some (group0 d +:+ " " +:+ group0 w)
      | Some w, None => Some (group0 w)
      | None, _ =>
          match search eta_rel_re lower_text with
          | Some r => Some (group0 r)
          | None => None
          end
      end
  end.

(** The condition of line 435. *)
Definition eta_seen (lower_text : string) : bool :=
  let d := bool_decide (is_Some (search eta_digit_re lower_text)) in
  let w := bool_decide (is_Some (search eta_word_re lower_text)) in
  let r := bool_decide (is_Some (search eta_rel_re lower_text)) in
  let dy := bool_decide (is_Some (search eta_day_re lower_text)) in
  let tok := bool_decide (is_Some (search eta_token_re lower_text)) in
  d || w || r || (dy && (d || w)) || tok.

Section Handler.
Context `{X : Collaborators}.

Definition upd (f : session -> session) : M session unit := modify f.

Definition upd_db (f : InMemoryDB -> InMemoryDB) : M session unit :=
  modify (fun s => set_db s (f (s_db s))).

(** [await websocket.send_text(json.dumps(f))], or [websocket.close], on a
    peer that takes the frame; [s_sent] lists the frames taken. *)
Definition send (f : out_frame) : M session unit :=
  modify (fun s => set_sent s (s_sent s ++ [f])).

Definition metadata_context (b : body) : context :=
  Context (Some (default "" (meta_driver_name b))) (Some (default "" (meta_load_number b)))
          (Some "") (Some "").

Definition with_prompt_template (c : context) (p : option string) : context :=
  Context (ctx_driver_name c) (ctx_load_number c) (ctx_call_history c) p.

Definition with_call_history (c : context) (h : option string) : context :=
  Context (ctx_driver_name c) (ctx_load_number c) h (ctx_prompt_template c).

(** Lines 228-277. *)
Definition build_context (b : body) : M session context :=
  s <- get ;;
  let call_ref := or_else (py_or (Some (path_call_id s)) (py_or (b_call_id b) (meta_call_id b))) "" in
  if String.eqb call_ref "" then ret empty_context
  else if startswith call_ref "call_" then
    match get_call_by_retell_id (s_db s) call_ref with
    | Some (Some id) =>
        match get_call_context (s_db s) id with
        | Some c => upd (fun s => set_db_call_id s id) ;; ret c
        | None => ret (metadata_context b)
        end
    | Some None =>
        let c := metadata_context b in
        match meta_agent_config_id b with
        | Some a =>
            if String.eqb a "" then ret c
            else match agent_configs (s_db s) !! a with
                 | Some cfg => ret (with_prompt_template c (prompt_template cfg))
                 | None => ret c
                 end
        | None => ret c
        end
    | None => ret (metadata_context b)
    end
  else
    match get_call_context (s_db s) call_ref with
    | Some c => ret c
    | None => ret empty_context
    end.

Definition is_user (m : utter) : bool :=
  bool_decide (role m = Some "user") || bool_decide (u_speaker m = Some "user").

(** Lines 284-287 and 327-330: the newest user entry. *)
Definition last_user_of_transcript (t : list utter) : option string :=
  match List.find is_user (rev t) with
  | Some m => py_or (content m) (u_text m)
  | None => None
  end.

(** [None] when the conversation has no user entry; otherwise the [content]
    of the newest one, which may itself be [None]. *)
Definition last_user_of_conversation (c : list utter) : option (option string) :=
  match List.find (fun m => bool_decide (role m = Some "user")) (rev c) with
  | Some m => Some (content m)
  | None => None
  end.

(** Lines 303-306: the line of the history an entry gives, if any. *)
Definition chunk_of (m : utter) : option string :=
  let r := or_else (utter_role m) "user" in
  let text := strip (utter_text m) in
  if String.eqb text "" then None else Some (r +:+ ": " +:+ text).

(** Lines 300-308. *)
Definition history_chunks (t : list utter) : list string :=
  omap chunk_of (last_n 8 t).

(** The entries a [for] loop inside a [try] gets through: those before the
    first that is no object, where [msg.get] raises and the [except] ends
    the loop. *)
Fixpoint objects_before (l : list entry) : list utter :=
  match l with
  | Obj m :: l' => m :: objects_before l'
  | _ => []
  end.

(** [for msg in l: if p(msg): ...; break] outside any [try], as at lines
    284-287 and 327-330: [None] when the loop meets an entry that is no
    object before one that satisfies [p], and so raises; otherwise the entry
    found, if any. *)
Fixpoint scan (p : utter -> bool) (l : list entry) : option (option utter) :=
  match l with
  | [] => Some None
  | NotObj :: _ => None
  | Obj m :: l' => if p m then Some (Some m) else scan p l'
  end.

(** Lines 309-323: one entry of the transcript window. *)
Definition capture_from (c : captured) (m : utter) : captured :=
  if negb (bool_decide (utter_role m = Some "user")) then c
  else
    let t := lower (utter_text m) in
    Captured (cap_status c || any_in status_words_ws t)
             (cap_location c || bool_decide (is_Some (search loc_re t)))
             (cap_eta c || bool_decide (is_Some (search eta_window_re t))).

Definition agent_segment (text : string) : segment :=
  Segment text "agent" (Some utcnow) (Some 1%Q).

(** [db.append_transcript(...)] inside [try: ... except: pass]. *)
Definition append_quietly (cid : string) (seg : segment) : M session unit :=
  upd_db (fun d => fst (append_transcript d cid seg)).

(** Lines 203-208: the slot memory is fed from the entries of a window. *)
Definition refresh_from (window : list utter) : M session unit :=
  s <- get ;;
  let user_texts :=
    map utter_text
        (List.filter (fun m => bool_decide (utter_role m = Some "user")
                               || bool_decide (utter_role m = Some "driver"))
                     window) in
  upd_db (fun d =>
    fold_left (fun d text =>
                 let updates := extract_slots environ text in
                 if dict_truthy updates && negb (String.eqb (db_call_id s) "")
                 then fst (update_slot_memory d (db_call_id s) updates)
                 else d)
              user_texts d).

(** Lines 198-212: a message that asks for no reply still feeds the slot memory. *)
Definition on_update_only (b : body) : M session unit :=
  refresh_from (last_n 3 (b_transcript b)).

(** Lines 356-368: a pending yes/no confirmation is looked at first. *)
Definition handle_confirmation (lower_text : string) : M session unit :=
  s <- get ;;
  when (awaiting_confirmation s)
    (if any_in affirmative_words lower_text then
       upd (fun s => set_awaiting_confirmation
                       (set_end_now_affirm
                          (set_agent_text s "Thanks for confirming. Drive safe â€” ending the call.") true)
                       false)
     else if any_in negative_words lower_text then
       upd (fun s => set_awaiting_confirmation
                       (set_agent_text
                          (set_captured s (Captured false false false))
                          "No problem. What is your current status?")
                       false)
     else ret tt).

(** Lines 372-388. *)
Definition emergency_branch : M session unit :=
  d <- of_option emergency_protocol ;;
  upd (fun s => set_agent_text (set_decision_current s (Some d))
                  (or_else (agent_text d) "A human dispatcher will call you back immediately.")) ;;
  s <- get ;;
  when (match structured_emergency d with
        | Some info => dict_truthy info
        | None => false
        end && negb (String.eqb (db_call_id s) ""))
       (let info := default ∅ (structured_emergency d) in
        upd_db (fun db => fst (update_slot_memory db (db_call_id s)
                  (<["emergency_type" := dget info "emergency_type"]>
                   (<["emergency_location" := dget info "emergency_location"]> ∅))))) ;;
  when (bool_decide (action d = Some "escalate") && negb (String.eqb (db_call_id s) ""))
       (fun s0 => match flag_escalation (s_db s0) (db_call_id s0) with
                  | Some db' => (set_db s0 db', Ok tt)
                  | None => (s0, Raised)
                  end).

(** Lines 411-446: what this utterance captures. *)
Definition capture_utterance (last_user : string) : M session unit :=
  let lower_text := lower last_user in
  let location_match := search loc_re last_user in
  upd (fun s =>
    let c := s_captured s in
    let v := s_slot_values s in
    let has_status := any_in status_words_ws lower_text in
    let status' :=
      if has_status && negb (truthy (sv_status v))
      then match first_word_in status_words_ws lower_text with
           | Some w => Some w
           | None => sv_status v
           end
      else sv_status v in
    let location' :=
      match location_match with
      | Some m => Some (normalized_location m)
      | None => sv_location v
      end in
    let has_eta := eta_seen lower_text in
    let eta' :=
      if has_eta && negb (truthy (sv_eta v))
      then match eta_text lower_text with
           | Some e => Some e
           | None => sv_eta v
           end
      else sv_eta v in
    set_slot_values
      (set_captured s (Captured (cap_status c || has_status)
                                (cap_location c || bool_decide (is_Some location_match))
                                (cap_eta c || has_eta)))
      (SlotValues status' location' eta')).

(** One of the three reconciliations of lines 452-460. *)
Definition reconcile (flag : captured -> bool) (value : slot_values -> option string)
    (key : string) (shared_slots : gmap string (option string))
    : M session (gmap string (option string)) :=
  s <- get ;;
  if flag (s_captured s) && truthy (value (s_slot_values s))
     && negb (truthy (dget shared_slots key))
  then
    upd_db (fun d => fst (update_slot_memory d (db_call_id s)
                            (<[key := value (s_slot_values s)]> ∅))) ;;
    s' <- get ;;
    ret (get_slot_memory (s_db s') (db_call_id s'))
  else ret shared_slots.

(** Lines 448-466: the body of the inner [try]. *)
Definition slot_driven : M session unit :=
  s <- get ;;
  let shared0 : gmap string (option string) :=
    if String.eqb (db_call_id s) "" then ∅ else get_slot_memory (s_db s) (db_call_id s) in
  shared1 <- reconcile cap_status sv_status "driver_status" shared0 ;;
  shared2 <- reconcile cap_location sv_location "current_location" shared1 ;;
  shared3 <- reconcile cap_eta sv_eta "eta" shared2 ;;
  let missing := get_missing_slots shared3 in
  match missing with
  | [] => upd (fun s => set_end_now_affirm
                          (set_agent_text s (polite_end_from_slots environ shared3)) true)
  | _ => upd (fun s => set_agent_text s (build_followup_for_missing environ missing))
  end.

(** Lines 468-485: the [except] of that [try]. *)
Definition heuristic_prompts : M session unit :=
  upd (fun s =>
    let c := s_captured s in
    let v := s_slot_values s in
    if negb (cap_status c && cap_location c && cap_eta c) then
      if negb (cap_status c) then set_agent_text s "Got it. What is your current status?"
      else if negb (cap_location c) then set_agent_text s "Thanks. Where are you right now?"
      else if negb (cap_eta c) then set_agent_text s "Noted. What's your ETA?"
      else s
    else if negb (awaiting_confirmation s) then
      set_awaiting_confirmation
        (set_agent_text s
           ("Just to confirm, status " +:+ or_else (sv_status v) "your status"
            +:+ ", location " +:+ or_else (sv_location v) "your location"
            +:+ ", ETA " +:+ or_else (sv_eta v) "your ETA" +:+ ". Is that correct?"))
        true
    else set_agent_text s "Please say yes or no to confirm.").

(** Lines 486-505: the oracle fills in when no text was produced. *)
Definition out_of_scope_guard (ctx : context) (last_user : string) : M session unit :=
  s <- get ;;
  when (String.eqb (s_agent_text s) "" || String.eqb (strip (s_agent_text s)) "Okay.")
    (let llm_context :=
       if String.eqb (db_call_id s) "" then ctx
       else
         match get_missing_slots (get_slot_memory (s_db s) (db_call_id s)) with
         | [] => ctx
         | missing_now =>
             with_call_history ctx
               (Some (or_else (ctx_call_history ctx) "" +:+ Processor.newline
                      +:+ "[HINT] " +:+ "Missing fields: " +:+ join ", " missing_now))
         end in
     d <- of_option (decide_next_action llm_context (Some last_user)) ;;
     upd (fun s => set_agent_text (set_decision_current s (Some d))
                     (or_else (agent_text d) (or_else (Some (s_agent_text s)) "Okay.")))).

(** Lines 340-515: the reply of this turn. *)
Definition generate (ctx : context) (last_user : option string) : M session unit :=
  try_except
    (upd (fun s => set_decision_current (set_end_now_affirm (set_agent_text s "") false) None) ;;
     if truthy last_user then
       let u := default "" last_user in
       attempt (s <- get ;;
                when (negb (String.eqb (db_call_id s) "")
                      && dict_truthy (extract_slots environ u))
                     (upd_db (fun d => fst (update_slot_memory d (db_call_id s)
                                              (extract_slots environ u))))) ;;
       handle_confirmation (lower u) ;;
       if detect_emergency_keywords u then emergency_branch
       else
         capture_utterance u ;;
         try_except slot_driven heuristic_prompts ;;
         attempt (out_of_scope_guard ctx u)
     else
       s <- get ;;
       if opening_sent s then
         upd (fun s => set_agent_text s
                         "Could you share your current status: Driving, Delayed, or Arrived?")
       else
         d <- of_option (decide_next_action ctx (Some "")) ;;
         upd (fun s => set_agent_text s
                         (or_else (agent_text d) "Hello, how can I help you today?")))
    (upd (fun s => set_agent_text s "I understand.")).

Definition rephrase_hint : string :=
  Processor.newline +:+ "[HINT] Please avoid repeating the last sentence; rephrase succinctly.".

(** Lines 517-532: no identical text twice in a row. *)
Definition avoid_repeat (ctx : context) (last_user : option string) : M session unit :=
  s <- get ;;
  when (String.eqb (strip (s_agent_text s)) (strip (last_agent_text_sent s)))
    (attempt
       (d1 <- of_option (decide_next_action ctx last_user) ;;
        upd (fun s => set_decision_current s (Some d1)) ;;
        if truthy (agent_text d1)
           && negb (String.eqb (strip (default "" (agent_text d1))) (strip (s_agent_text s)))
        then upd (fun s => set_agent_text s (default "" (agent_text d1)))
        else
          let varied_ctx :=
            with_call_history ctx (Some (or_else (ctx_call_history ctx) "" +:+ rephrase_hint)) in
          d2 <- of_option (decide_next_action varied_ctx last_user) ;;
          upd (fun s => set_agent_text (set_decision_current s (Some d2))
                          (or_else (agent_text d2) (s_agent_text s))))).

Definition says_goodbye (text : string) : bool :=
  any_in ["bye"; "goodbye"] (lower text) || str_in "arrived" (lower text).

Definition oracle_ends (d : option decision) : bool :=
  match d with
  | Some dc => bool_decide (action dc = Some "end_call")
               || bool_decide (action dc = Some "escalate")
  | None => false
  end.

Definition show (v : option string) : string := default "None" v.

(** Lines 589-595. *)
Definition memo_line (slots : gmap string (option string)) : string :=
  "[SLOTS] driver_status=" +:+ show (dget slots "driver_status")
  +:+ ", current_location=" +:+ show (dget slots "current_location")
  +:+ ", eta=" +:+ show (dget slots "eta")
  +:+ ", emergency_type=" +:+ show (dget slots "emergency_type")
  +:+ ", emergency_location=" +:+ show (dget slots "emergency_location").

(** Lines 534-606: the reply is sent and recorded; the call is wound up when
    an end condition holds.  After [websocket.close(code=1000)] the loop goes
    on to the next [receive()]. *)
Definition emit (b : body) (last_user : option string) : M session unit :=
  s <- get ;;
  let agent_text := s_agent_text s in
  let end_now := says_goodbye (default "" last_user) || oracle_ends (decision_current s) in
  let c := s_captured s in
  let slots_done := cap_status c && cap_location c && cap_eta c in
  let end_call := end_now || end_now_affirm s || slots_done in
  send (Response (b_response_id b) agent_text end_call) ;;
  when (negb (String.eqb (db_call_id s) "") && negb (String.eqb agent_text ""))
       (append_quietly (db_call_id s) (agent_segment agent_text)) ;;
  upd (fun s => set_last_agent_text_sent
                  (set_last_response_id_handled s (b_response_id b)) agent_text) ;;
  attempt
    (when (end_call && negb (String.eqb (db_call_id s) ""))
       (upd_db (fun d => update_call_status d (db_call_id s) "completed") ;;
        upd_db (fun d => fst (append_transcript d (db_call_id s)
                               (agent_segment (memo_line (get_slot_memory d (db_call_id s)))))) ;;
        (fun s0 => let (d', r) := process_transcript_and_store (db_call_id s) None false false
                                    (s_db s0) in
                   (set_db s0 d', r)) ;;
        send (Close 1000))).

(** Lines 222-606: a message that asks for a reply. *)
Definition respond (b : body) : M session unit :=
  ctx0 <- build_context b ;;
  let transcript := b_transcript b in
  let from_transcript := last_user_of_transcript transcript in
  when (negb (bool_decide (transcript = [])))
       (s <- get ;;
        when (negb (String.eqb (db_call_id s) "") && truthy from_transcript)
             (append_quietly (db_call_id s)
                (Segment (default "" from_transcript) "driver" (Some utcnow) (Some 1%Q))) ;;
        upd (fun s => set_captured s (fold_left capture_from transcript (s_captured s)))) ;;
  let last_user :=
    if truthy from_transcript then from_transcript
    else match last_user_of_conversation (b_conversation b) with
         | Some u => u
         | None => from_transcript
         end in
  let chunks := match transcript with [] => [] | _ => history_chunks transcript end in
  let ctx := match chunks with
             | [] => ctx0
             | _ => with_call_history ctx0
                      (Some (join (" " +:+ Processor.newline) (last_n 8 chunks)))
             end in
  generate ctx last_user ;;
  avoid_repeat ctx last_user ;;
  emit b last_user.

Definition wants_reply (b : body) : bool :=
  bool_decide (b_interaction_type b = Some "response_required")
  || bool_decide (b_interaction_type b = Some "reminder_required").

(** [if response_id and response_id == last_response_id_handled] *)
Definition is_duplicate (b : body) (s : session) : bool :=
  match b_response_id b with
  | Some r => negb (Z.eqb r 0) && bool_decide (last_response_id_handled s = Some r)
  | None => false
  end.

(** Lines 222-606 for a frame whose lists may hold entries that are no
    objects and whose reply may not be taken.  The scans of lines 284 and 327
    are outside any [try]; the loops of lines 302 and 312 are inside one, and
    so is the store of the utterance. *)
Definition respond_loose (b : body) (t c : list entry) (delivered : bool)
    : M session unit :=
  ctx0 <- build_context b ;;
  found <- of_option (scan is_user (rev t)) ;;
  let from_transcript :=
    match found with
    | Some m => py_or (content m) (u_text m)
    | None => None
    end in
  when (negb (bool_decide (t = [])))
       (s <- get ;;
        when (negb (String.eqb (db_call_id s) "") && truthy from_transcript)
             (append_quietly (db_call_id s)
                (Segment (default "" from_transcript) "driver" (Some utcnow) (Some 1%Q))) ;;
        upd (fun s => set_captured s
                        (fold_left capture_from (objects_before t) (s_captured s)))) ;;
  last_user <- (if truthy from_transcript then ret from_transcript
                else
                  m <- of_option (scan (fun m => bool_decide (role m = Some "user")) (rev c)) ;;
                  ret (match m with
                       | Some m => content m
                       | None => from_transcript
                       end)) ;;
  let chunks := omap chunk_of (objects_before (last_n 8 t)) in
  let ctx := match chunks with
             | [] => ctx0
             | _ => with_call_history ctx0
                      (Some (join (" " +:+ Processor.newline) (last_n 8 chunks)))
             end in
  generate ctx last_user ;;
  avoid_repeat ctx last_user ;;
  if delivered then emit b last_user else raise.

(** Whether one of the two scans raises on the lists [t] and [c]: the
    second is made only when the first finds no utterance. *)
Definition scans_raise (t c : list entry) : bool :=
  match scan is_user (rev t) with
  | None => true
  | Some found =>
      let from_transcript :=
        match found with
        | Some m => py_or (content m) (u_text m)
        | None => None
        end in
      if truthy from_transcript then false
      else match scan (fun m => bool_decide (role m = Some "user")) (rev c) with
           | None => true
           | Some _ => false
           end
  end.

(** One round of the [while True] loop, for the frame received.  [raise] is
    an exception that leaves the loop. *)
Definition loop_body (f : frame) : M session unit :=
  match f with
  | NonText => ret tt
  | BadJson => send EmptyReply
  | Disconnect => upd (fun s => set_finished s true)
  | NotObject => raise
  | Msg b =>
      s <- get ;;
      if bool_decide (b_interaction_type b = Some "ping_pong") then send (Pong (b_timestamp b))
      else if negb (wants_reply b) then on_update_only b
      else if is_duplicate b s then ret tt
      else respond b
  | Loose b t c delivered =>
      s <- get ;;
      if bool_decide (b_interaction_type b = Some "ping_pong")
      then when delivered (send (Pong (b_timestamp b)))
      else if negb (wants_reply b) then refresh_from (objects_before (last_n 3 t))
      else if is_duplicate b s then ret tt
      else respond_loose b t c delivered
  end.

(** Whether the peer takes what the round of this frame sends. *)
Definition peer_takes (f : frame) : bool :=
  match f with
  | Loose _ _ _ delivered => delivered
  | _ => true
  end.

(** Lines 609-614: an exception that leaves the loop is logged, the close
    with code 1011 is attempted, inside a [try] of its own, so that it is
    swallowed when the peer does not take it, and the function returns. *)
Definition on_error (f : frame) : M session unit :=
  when (peer_takes f) (send (Close 1011)) ;;
  upd (fun s => set_finished s true).

(** One round of the loop inside the [try] of the function: the handler
    itself never lets an exception out. *)
Definition on_frame (f : frame) : M session unit :=
  try_except (loop_body f) (on_error f).

(** Lines 77-156: the accept, the config frame and the opening line, on a
    peer that takes them. *)
Definition on_connect : M session unit :=
  send Config ;;
  attempt
    (s <- get ;;
     let open_context :=
       match get_call_by_retell_id (s_db s) (path_call_id s) with
       | Some (Some id) => default empty_context (get_call_context (s_db s) id)
       | _ => empty_context
       end in
     d <- of_option (decide_next_action open_context (Some "")) ;;
     let opening_text :=
       or_else (agent_text d) "Hello, this is Dispatch. Can you give me a quick status update?" in
     send (Begin opening_text) ;;
     send (Interrupt opening_text) ;;
     upd (fun s => set_opening_sent (set_last_agent_text_sent s opening_text) true)).

(** The session after a list of frames, in order: once the function has
    returned, nothing more is received. *)
Definition run_frames (fs : list frame) (s : session) : session :=
  fold_left (fun s f => if finished s then s else fst (on_frame f s)) fs s.

(** [retell_custom_llm_ws]: a connection for [call_id] that receives the
    frames [fs]. *)
Definition retell_custom_llm_ws (d : InMemoryDB) (call_id : string) (fs : list frame)
    : session :=
  run_frames fs (fst (on_connect (new_session d call_id))).

End Handler.
End Llm.

(** ** Predicates used in the statements *)

Module Props.
Import PyStr SlotMemory Db Eff Webhook.

(** The computation returns from every state: no exception leaves it. *)
Definition never_raises {S A : Type} (m : M S A) : Prop :=
  forall s, exists s' a, m s = (s', Ok a).

(** The computation carries the property [P] of the state from its start to
    its end, whether it returns or raises. *)
Definition preserves {S A : Type} (P : S -> Prop) (m : M S A) : Prop :=
  forall s s' r, m s = (s', r) -> P s -> P s'.

(** Well-formed extractor output: known keys, non-empty string values. *)
Definition slots_ok (m : gmap string (option string)) : Prop :=
  forall k v, m !! k = Some v -> In k SLOT_KEYS /\ exists s, v = Some s /\ s <> "".

(** The call has reached its end: marked completed, or processed once its
    summary has been filed. *)
Definition ended (d : InMemoryDB) (cid : string) : Prop :=
  exists c, calls d !! cid = Some c /\
            (status c = "completed" \/ status c = "processed").

(** The slot is filled: neither [None] nor the empty string. *)
Definition filled (d : InMemoryDB) (cid k : string) : Prop :=
  is_missing (dget (get_slot_memory d cid) k) = false.

(** The escalation flag of the call is raised. *)
Definition escalated (d : InMemoryDB) (cid : string) : Prop :=
  exists c, calls d !! cid = Some c /\
            call_escalation_status c = Some "Escalation Flagged".

(** The slot memory and the noise and short-utterance counters are as before. *)
Definition undisturbed (d d' : InMemoryDB) : Prop :=
  slot_memory d' = slot_memory d /\
  noisy_counter d' = noisy_counter d /\
  short_counter d' = short_counter d.

End Props.

(** ** Concrete collaborators and stores used in the examples *)

Module Scenarios.
Import PyStr SlotMemory Db Eff Oracle.

(** No API keys: the oracle answers with its canned texts, speech delivery
    only logs, both switches are unset. *)
Definition offline : Collaborators :=
  {| environ := Env None None;
     simulated := true;
     chat_decide := fun _ _ _ => None;
     chat_emergency := None;
     chat_summarize := fun _ _ => None;
     speak_fails := fun _ _ => false;
     uuid4 := fun _ => "00000000-0000-4000-8000-000000000000";
     utcnow := "2025-01-01T00:00:00";
     get_call_by_retell_id := fun _ _ => None |}.

(** As [offline], with text templates switched off. *)
Definition offline_no_templates : Collaborators :=
  {| environ := Env None (Some "false");
     simulated := true;
     chat_decide := fun _ _ _ => None;
     chat_emergency := None;
     chat_summarize := fun _ _ => None;
     speak_fails := fun _ _ => false;
     uuid4 := fun _ => "00000000-0000-4000-8000-000000000000";
     utcnow := "2025-01-01T00:00:00";
     get_call_by_retell_id := fun _ _ => None |}.

(** A configured chat service that is down: every attempt raises. *)
Definition outage : Collaborators :=
  {| environ := Env None None;
     simulated := false;
     chat_decide := fun _ _ _ => None;
     chat_emergency := None;
     chat_summarize := fun _ _ => None;
     speak_fails := fun _ _ => false;
     uuid4 := fun _ => "00000000-0000-4000-8000-000000000000";
     utcnow := "2025-01-01T00:00:00";
     get_call_by_retell_id := fun _ _ => None |}.

(** The same outage with text templates switched off. *)
Definition outage_no_templates : Collaborators :=
  {| environ := Env None (Some "false");
     simulated := false;
     chat_decide := fun _ _ _ => None;
     chat_emergency := None;
     chat_summarize := fun _ _ => None;
     speak_fails := fun _ _ => false;
     uuid4 := fun _ => "00000000-0000-4000-8000-000000000000";
     utcnow := "2025-01-01T00:00:00";
     get_call_by_retell_id := fun _ _ => None |}.

Definition a_call : call :=
  Call (Some "Mike") (Some "+15550100") (Some "L-7") None "in_progress" [] None None.

(** A store holding one call in progress, known as "c1". *)
Definition one_call : InMemoryDB :=
  MkDb ∅ (<["c1" := a_call]> ∅) [] ∅ ∅ ∅ ∅ ∅.

Definition core_slots : gmap string (option string) :=
  <["driver_status" := Some "Driving"]> (<["current_location" := Some "Multan"]>
  (<["eta" := Some "5pm"]> empty_slots)).

Definition all_slots : gmap string (option string) :=
  <["emergency_type" := Some "Accident"]> (<["emergency_location" := Some "Multan"]>
  core_slots).

(** The same store once the three core slots of "c1" are known. *)
Definition core_filled : InMemoryDB :=
  with_slot_memory one_call (<["c1" := core_slots]> ∅).

(** The same store once all five slots of "c1" are known. *)
Definition all_filled : InMemoryDB :=
  with_slot_memory one_call (<["c1" := all_slots]> ∅).

Definition speech (text : string) (conf : Q) : Webhook.event :=
  Webhook.Event "speech" "c1" None text "driver" (Some conf) None None None None None None.

Definition user_says (text : string) : Llm.utter :=
  Llm.Utter (Some "user") None (Some text) None.

Definition reply_wanted (rid : Z) (transcript : list Llm.utter) : Llm.body :=
  Llm.Body (Some "response_required") (Some rid) None transcript [] None None None None None.

(** A fresh duplex session over the one-call store, before the greeting. *)
Definition fresh : Llm.session := Llm.new_session one_call "c1".

(** That session once the greeting has gone out, offline. *)
Definition greeted : Llm.session := fst (Llm.on_connect (X := offline) fresh).

Definition first_turn : Llm.body :=
  reply_wanted 1 [user_says "I am driving in Lahar, ETA 5pm"].

(** A session whose computed reply is, but for a trailing blank, the text it
    sent last. *)
Definition about_to_repeat : Llm.session :=
  Llm.set_agent_text
    (Llm.set_last_agent_text_sent fresh "Got it. What's your current status?")
    "Got it. What's your current status? ".

End Scenarios.

(** ** Readings of the stored records *)

Module Views.
Import Db.

(** [summary[k]] for the five slot keys of the structured summary. *)
Definition summary_get (s : summary) (k : string) : option string :=
  if String.eqb k "driver_status" then sum_driver_status s
  else if String.eqb k "current_location" then sum_current_location s
  else if String.eqb k "eta" then sum_eta s
  else if String.eqb k "emergency_type" then sum_emergency_type s
  else if String.eqb k "emergency_location" then sum_emergency_location s
  else None.

End Views.

(** ** The store operations a handler performs for one call *)

Module Trace.
Import PyStr SlotMemory Db.

(** One write to the store on behalf of the call [cid], other than the
    recording of a transcript segment: a status change, a slot or
    conversation-state update, a counter increment, the escalation flag, or
    the filing of a summary. *)
Inductive db_step (cid : string) : InMemoryDB -> InMemoryDB -> Prop :=
| step_status (d : InMemoryDB) (s : string) :
    db_step cid d (update_call_status d cid s)
| step_slots (d : InMemoryDB) (u : gmap string (option string)) :
    db_step cid d (fst (update_slot_memory d cid u))
| step_conv (d : InMemoryDB) (u : conv_update) :
    db_step cid d (update_conversation_state d cid u)
| step_noisy (d : InMemoryDB) :
    db_step cid d (fst (increment_noisy_counter d cid))
| step_short (d : InMemoryDB) :
    db_step cid d (fst (increment_short_utterances d cid))
| step_flag (d d' : InMemoryDB) :
    flag_escalation d cid = Some d' -> db_step cid d d'
| step_summary (d : InMemoryDB) (s : summary) :
    db_step cid d (fst (save_summary d cid s)).

(** What a call record shows to the other parts of the system, apart from
    its status and summary. *)
Definition same_identity (c c' : call) : Prop :=
  driver_name c' = driver_name c /\ phone_number c' = phone_number c /\
  load_number c' = load_number c /\ agent_config_id c' = agent_config_id c.

(** The frame of a run of store operations for [cid]: the agent
    configurations and the flat transcript list are as before, everything
    filed under another call is as before, and the record of [cid] keeps its
    identity, its transcript and a raised escalation flag. *)
Definition framed (cid : string) (d d' : InMemoryDB) : Prop :=
  agent_configs d' = agent_configs d /\
  transcripts d' = transcripts d /\
  (forall k, k <> cid ->
     calls d' !! k = calls d !! k /\
     summaries d' !! k = summaries d !! k /\
     slot_memory d' !! k = slot_memory d !! k /\
     noisy_counter d' !! k = noisy_counter d !! k /\
     short_counter d' !! k = short_counter d !! k /\
     conversation_state d' !! k = conversation_state d !! k) /\
  (forall c, calls d !! cid = Some c ->
     exists c', calls d' !! cid = Some c' /\
       full_transcript c' = full_transcript c /\
       same_identity c c' /\
       (call_escalation_status c = Some "Escalation Flagged" ->
        call_escalation_status c' = Some "Escalation Flagged")).

End Trace.

(** ** Further stores and events used in the examples *)

Module Cases.
Import PyStr SlotMemory Db Eff Oracle Scenarios.

(** The one-call store after two noisy turns of "c1". *)
Definition noisy_twice : InMemoryDB :=
  MkDb ∅ (<["c1" := a_call]> ∅) [] ∅ (<["c1" := 2%nat]> ∅) ∅ ∅ ∅.

(** The one-call store after two short driver turns of "c1". *)
Definition short_twice : InMemoryDB :=
  MkDb ∅ (<["c1" := a_call]> ∅) [] ∅ ∅ (<["c1" := 2%nat]> ∅) ∅ ∅.

Definition another_call : call :=
  Call (Some "Sara") (Some "+15550111") (Some "L-9") None "in_progress" [] None
       (Some "Escalation Flagged").

(** Two calls in progress, "c1" and "c2", the second with its three core
    slots known. *)
Definition two_calls : InMemoryDB :=
  MkDb ∅ (<["c2" := another_call]> (<["c1" := a_call]> ∅)) [] ∅ ∅ ∅
       (<["c2" := core_slots]> ∅) ∅.

(** An event of the given type for the call [cid], with an empty payload. *)
Definition bare (ty cid : string) : Webhook.event :=
  Webhook.Event ty cid None "" "driver" (Some 1%Q) None None None None None None.

(** A speech turn that is marked update-only. *)
Definition quiet (text : string) : Webhook.event :=
  Webhook.Event "speech" "c1" None text "driver" (Some 1%Q) (Some "update_only")
                None None None None None.

(** As [Scenarios.offline], over a store that indexes its calls by the
    provider's identifier: "call_1" is the call "c1". *)
Definition indexed : Collaborators :=
  {| environ := Env None None;
     simulated := true;
     chat_decide := fun _ _ _ => None;
     chat_emergency := None;
     chat_summarize := fun _ _ => None;
     speak_fails := fun _ _ => false;
     uuid4 := fun _ => "00000000-0000-4000-8000-000000000000";
     utcnow := "2025-01-01T00:00:00";
     get_call_by_retell_id :=
       fun _ r => if String.eqb r "call_1" then Some (Some "c1") else Some None |}.

End Cases.

(** ** Runs of the webhook *)

Module Runs.
Import Eff Oracle Webhook.

Section Runs.
Context `{X : Collaborators}.

(** The world after the webhook has handled the events one after the other;
    a request that raises is answered with an error and the next one finds
    the store as the failed one left it. *)
Definition run_events (evs : list event) (w : world) : world :=
  fold_left (fun w ev => fst (retell_webhook ev w)) evs w.

End Runs.
End Runs.

(** ** api/webhook.py: the helpers that read the request body

    A parsed JSON value.  An object is the list of its items in document
    order, which is the iteration order of the dict that [json.loads] builds;
    [JNull] is Python's [None]. *)

Module Json.
Import PyStr.

Unset Elimination Schemes.
Inductive json : Type :=
| JNull
| JBool (b : bool)
| JNum (q : Q)
| JStr (s : string)
| JArr (items : list json)
| JObj (fields : list (string * json)).
Set Elimination Schemes.

(** Python truthiness. *)
Definition truthy_json (v : json) : bool :=
  match v with
  | JNull => false
  | JBool b => b
  | JNum q => negb (Qeq_bool q 0)
  | JStr s => negb (String.eqb s "")
  | JArr items => match items with [] => false | _ => true end
  | JObj fields => match fields with [] => false | _ => true end
  end.

(** [a or b] *)
Definition por (a b : json) : json := if truthy_json a then a else b.

(** [d[key]] for a key that may be absent. *)
Fixpoint assoc (key : string) (fields : list (string * json)) : option json :=
  match fields with
  | [] => None
  | (k, v) :: rest => if String.eqb k key then Some v else assoc key rest
  end.

(** [d.get(key)] on a dict. *)
Definition dict_get (fields : list (string * json)) (key : string) : json :=
  default JNull (assoc key fields).

(** [d[key] = v]: an existing key keeps its place, a new one goes last. *)
Fixpoint dict_set (key : string) (v : json) (fields : list (string * json))
    : list (string * json) :=
  match fields with
  | [] => [(key, v)]
  | (k, old) :: rest =>
      if String.eqb k key then (k, v) :: rest else (k, old) :: dict_set key v rest
  end.

(** [deep_get(d, path)], with its default [None]. *)
Fixpoint deep_get (d : json) (path : list string) : json :=
  match path with
  | [] => d
  | key :: rest =>
      match d with
      | JObj fields =>
          match assoc key fields with
          | Some v => deep_get v rest
          | None => JNull
          end
      | _ => JNull
      end
  end.

(** [find_first_key(d, keys)]: the depth-first search of lines 46-60. *)
Fixpoint find_first_key (keys : list string) (d : json) : json :=
  match d with
  | JObj fields =>
      (fix over_items (l : list (string * json)) : json :=
         match l with
         | [] => JNull
         | (k, v) :: rest =>
             if existsb (String.eqb k) keys && truthy_json v then v
             else
               let found := find_first_key keys v in
               if truthy_json found then found else over_items rest
         end) fields
  | JArr items =>
      (fix over_list (l : list json) : json :=
         match l with
         | [] => JNull
         | item :: rest =>
             let found := find_first_key keys item in
             if truthy_json found then found else over_list rest
         end) items
  | _ => JNull
  end.

Definition type_keys : list string := ["event_type"; "type"].
Definition id_keys : list string := ["call_id"; "callId"].

(** Lines 66-71: one event of a batch gets its type and call identifier
    written back; an event that is not an object makes the assignment raise. *)
Definition stamp_batched (ev : json) : option json :=
  let ev_type := por (find_first_key type_keys ev) (deep_get ev ["event"; "type"]) in
  let ev_call_id :=
    por (find_first_key id_keys ev)
        (por (deep_get ev ["call"; "id"]) (deep_get ev ["data"; "call"; "id"])) in
  match ev with
  | JObj fields => Some (JObj (dict_set "call_id" ev_call_id (dict_set "event_type" ev_type fields)))
  | _ => None
  end.

(** The loop of lines 65-72: [None] as soon as one assignment raises. *)
Fixpoint stamp_all (evs : list json) : option (list json) :=
  match evs with
  | [] => Some []
  | ev :: rest =>
      match stamp_batched ev with
      | Some ev' =>
          match stamp_all rest with
          | Some rest' => Some (ev' :: rest')
          | None => None
          end
      | None => None
      end
  end.

(** Lines 62-75: the event the rest of the handler works on. *)
Definition pick_event (event : json) : option json :=
  match event with
  | JObj fields =>
      match dict_get fields "events" with
      | JArr evs =>
          match stamp_all evs with
          | Some results =>
              match last results with
              | Some ev => Some ev
              | None => Some event
              end
          | None => None
          end
      | _ => Some event
      end
  | _ => Some event
  end.

(** Lines 77-91 on the picked event; anything but an object raises, at the
    latest in the assignments of lines 90-91. *)
Definition stamp_event (event : json) : option (list (string * json)) :=
  match event with
  | JObj fields =>
      let raw_event_type :=
        por (find_first_key type_keys event)
            (por (dict_get fields "event") (deep_get event ["event"; "type"])) in
      let raw_call_id :=
        por (find_first_key id_keys event)
            (por (deep_get event ["call"; "id"])
                 (por (deep_get event ["data"; "call"; "id"])
                      (deep_get event ["metadata"; "call_id"]))) in
      Some (dict_set "call_id" raw_call_id (dict_set "event_type" raw_event_type fields))
  | _ => None
  end.

(** Lines 34-107: the body, once parsed, becomes the event the handler
    dispatches on; [None] stands for the 400 answers. *)
Definition normalize (body : json) : option (list (string * json)) :=
  match pick_event body with
  | Some event =>
      match stamp_event event with
      | Some fields =>
          if truthy_json (dict_get fields "call_id")
             && truthy_json (dict_get fields "event_type")
          then Some fields
          else None
      | None => None
      end
  | None => None
  end.

(** Every key-value pair of the objects nested in [d], in the order a
    depth-first walk meets them. *)
Fixpoint pairs (d : json) : list (string * json) :=
  match d with
  | JObj fields =>
      (fix over_items (l : list (string * json)) : list (string * json) :=
         match l with
         | [] => []
         | (k, v) :: rest => (k, v) :: pairs v ++ over_items rest
         end) fields
  | JArr items =>
      (fix over_list (l : list json) : list (string * json) :=
         match l with
         | [] => []
         | item :: rest => pairs item ++ over_list rest
         end) items
  | _ => []
  end.

(** The pair the search is after: a wanted key with a truthy value. *)
Definition wanted (keys : list string) (kv : string * json) : bool :=
  existsb (String.eqb (fst kv)) keys && truthy_json (snd kv).

End Json.

(** ** db.py: agent configurations and the call listing *)

Module Admin.
Import PyStr Json Db.

(** A stored agent configuration, with all its columns. *)
Record agent_row : Type := AgentRow {
  ar_id : string;
  ar_name : string;
  ar_description : option string;
  ar_prompt_template : string;
  ar_voice_settings : list (string * json);
  ar_created_at : string;
  ar_updated_at : string
}.

(** [AgentConfigCreate] *)
Record create_body : Type := CreateBody {
  c_name : string;
  c_description : option string;
  c_prompt_template : string;
  c_voice_settings : option (list (string * json))
}.

(** [AgentConfigUpdate]: every field is optional. *)
Record update_body : Type := UpdateBody {
  u_name : option string;
  u_description : option string;
  u_prompt_template : option string;
  u_voice_settings : option (list (string * json))
}.

Definition get_agent_config (cfgs : gmap string agent_row) (rid : string) : option agent_row :=
  cfgs !! rid.

(** [rid] is the fresh [str(uuid4())]; [t1] and [t2] are the two readings of
    the clock. *)
Definition create_agent_config (cfgs : gmap string agent_row) (body : create_body)
    (rid t1 t2 : string) : gmap string agent_row * agent_row :=
  let obj := AgentRow rid (c_name body) (c_description body) (c_prompt_template body)
               (default [] (c_voice_settings body)) t1 t2 in
  (<[rid := obj]> cfgs, obj).

Definition update_agent_config (cfgs : gmap string agent_row) (rid : string) (body : update_body)
    (now : string) : gmap string agent_row * option agent_row :=
  match cfgs !! rid with
  | None => (cfgs, None)
  | Some obj =>
      let obj' := AgentRow (ar_id obj)
                    (default (ar_name obj) (u_name body))
                    (match u_description body with
                     | Some v => Some v
                     | None => ar_description obj
                     end)
                    (default (ar_prompt_template obj) (u_prompt_template body))
                    (default (ar_voice_settings obj) (u_voice_settings body))
                    (ar_created_at obj) now in
      (<[rid := obj']> cfgs, Some obj')
  end.

(** [self.agent_configs.pop(str(rid), None) is not None] *)
Definition delete_agent_config (cfgs : gmap string agent_row) (rid : string) : gmap string agent_row * bool :=
  (delete rid cfgs, bool_decide (is_Some (cfgs !! rid))).

(** [xs[start:stop]] for integers of either sign. *)
Definition py_slice {A : Type} (xs : list A) (start stop : Z) : list A :=
  let n := Z.of_nat (length xs) in
  let clamp (i : Z) : Z := if (i <? 0)%Z then Z.max (i + n) 0 else Z.min i n in
  let a := clamp start in
  let b := clamp stop in
  firstn (Z.to_nat (b - a)) (skipn (Z.to_nat a) xs).

(** The test [driver_name.lower() in c.get("driver_name", "").lower()];
    [None] when the stored name is [None], on which [.lower()] raises. *)
Definition name_matches (wanted : string) (c : call) : option bool :=
  match driver_name c with
  | Some n => Some (str_in (lower wanted) (lower n))
  | None => None
  end.

(** The list comprehension over [name_matches]: it raises as soon as one
    test raises. *)
Fixpoint filter_by_name (wanted : string) (items : list call) : option (list call) :=
  match items with
  | [] => Some []
  | c :: rest =>
      match name_matches wanted c with
      | Some b =>
          match filter_by_name wanted rest with
          | Some rest' => Some (if b then c :: rest' else rest')
          | None => None
          end
      | None => None
      end
  end.

(** [list_calls], from [items = list(self.calls.values())] on: the calls in
    the order in which they were created. *)
Definition list_calls (items : list call) (status_wanted driver_wanted : option string)
    (page page_size : Z) : option (list call * nat) :=
  let items1 :=
    if truthy status_wanted
    then List.filter (fun c => String.eqb (status c) (default "" status_wanted)) items
    else items in
  match (if truthy driver_wanted
         then filter_by_name (default "" driver_wanted) items1
         else Some items1) with
  | Some items2 =>
      let total := length items2 in
      let start := ((page - 1) * page_size)%Z in
      let stop := (start + page_size)%Z in
      Some (py_slice items2 start stop, total)
  | None => None
  end.

(** The calls that pass both filters, for stored names that are strings. *)
Definition selected (status_wanted driver_wanted : option string) (c : call) : bool :=
  (negb (truthy status_wanted) || String.eqb (status c) (default "" status_wanted))
  && (negb (truthy driver_wanted)
      || match driver_name c with
         | Some n => str_in (lower (default "" driver_wanted)) (lower n)
         | None => false
         end).

End Admin.

(** ** services/retell_client.py: the webhook address handed to the provider *)

Module Retell.
Import PyStr.

(** [s.endswith(p)]: some tail of [s] is [p]. *)
Fixpoint endswith (s p : string) : bool :=
  String.eqb s p ||
  match s with
  | EmptyString => false
  | String _ s' => endswith s' p
  end.

Definition webhook_path : string := "/api/retell/webhook".

(** Lines 40-45 of [initiate_call], for the value [backend_url] of the
    [BACKEND_URL] variable (or its default). *)
Definition webhook_url_of (backend_url : string) : string :=
  let backend_url_env := rstrip_chars "/" backend_url in
  if endswith backend_url_env webhook_path then backend_url_env
  else backend_url_env +:+ webhook_path.

End Retell.

(** * Verification *)

(** ** Facts about strings *)

Section StringFacts.
Import PyStr.

Lemma app_cons (c : ascii) (s t : string) : String c s +:+ t = String c (s +:+ t).
Proof. reflexivity. Qed.

Lemma app_nil (t : string) : "" +:+ t = t.
Proof. reflexivity. Qed.

Lemma append_nil_r (s : string) : s +:+ "" = s.
Proof. induction s as [|c s IH]; [reflexivity | now rewrite app_cons, IH]. Qed.

Lemma append_assoc (a b c : string) : (a +:+ b) +:+ c = a +:+ (b +:+ c).
Proof. induction a as [|x a IH]; [reflexivity | now rewrite !app_cons, IH]. Qed.

Lemma length_app (a b : string) :
  String.length (a +:+ b) = (String.length a + String.length b)%nat.
Proof. induction a as [|x a IH]; [reflexivity | rewrite app_cons; simpl; now rewrite IH]. Qed.

Lemma substring_prefix (w r : string) :
  substring 0 (String.length w) (w +:+ r) = w.
Proof.
  induction w as [|c w IH].
  - rewrite app_nil. destruct r; reflexivity.
  - rewrite app_cons. simpl. now rewrite IH.
Qed.

Lemma startswith_app (k t : string) : startswith (k +:+ t) k = true.
Proof.
  induction k as [|c k IH]; [destruct t; reflexivity |].
  rewrite app_cons. simpl. rewrite Ascii.eqb_refl. exact IH.
Qed.

Lemma str_in_prefix (k t : string) : startswith t k = true -> str_in k t = true.
Proof. intros H. destruct t; simpl in *; rewrite H; reflexivity. Qed.

(** [k in (pre + k + post)] *)
Lemma str_in_app (pre k post : string) : str_in k (pre +:+ k +:+ post) = true.
Proof.
  induction pre as [|c pre IH].
  - rewrite app_nil. apply str_in_prefix, startswith_app.
  - rewrite app_cons. simpl. rewrite IH. apply orb_true_r.
Qed.

Lemma startswith_split (t k : string) :
  startswith t k = true -> exists post, t = k +:+ post.
Proof.
  revert t; induction k as [|c k IH]; intros t H.
  - exists t. reflexivity.
  - destruct t as [|d t]; [discriminate |]. simpl in H.
    apply andb_true_iff in H as [Hc Hk]. apply Ascii.eqb_eq in Hc. subst d.
    destruct (IH _ Hk) as [post ->]. exists post. reflexivity.
Qed.

Lemma str_in_split (k t : string) :
  str_in k t = true -> exists pre post, t = pre +:+ k +:+ post.
Proof.
  induction t as [|c t IH]; simpl; intros H.
  - rewrite orb_false_r in H. destruct k; [|discriminate].
    exists "", "". reflexivity.
  - apply orb_true_iff in H as [H|H].
    + destruct (startswith_split (String c t) k H) as [post E].
      exists "", post. exact E.
    + destruct (IH H) as (pre & post & ->). exists (String c pre), post. reflexivity.
Qed.

Lemma alpha_not_space (c : ascii) : is_alpha c = true -> is_space c = false.
Proof. destruct c as [[] [] [] [] [] [] [] []]; vm_compute; congruence. Qed.

Lemma alpha_not_dot (c : ascii) :
  is_alpha c = true -> str_in (String c "") "." = false.
Proof. destruct c as [[] [] [] [] [] [] [] []]; vm_compute; congruence. Qed.

Lemma rstrip_by_keeps_head (p : ascii -> bool) (c : ascii) (w : string) :
  p c = false -> rstrip_by p (String c w) = String c (rstrip_by p w).
Proof.
  intros Hc. simpl. destruct (rstrip_by p w); [now rewrite Hc | reflexivity].
Qed.

Lemma capitalize_nonempty (w : string) : w <> "" -> capitalize w <> "".
Proof. destruct w; [congruence | discriminate]. Qed.

End StringFacts.

(** ** Facts about the matcher *)

Section MatcherFacts.
Import PyStr Re.

Lemma taken_app (st st' : mstate) (w : string) :
  m_rest st = w +:+ m_rest st' -> taken st st' = w.
Proof.
  intros E. unfold taken. rewrite E, length_app.
  replace (String.length w + String.length (m_rest st') - String.length (m_rest st'))%nat
    with (String.length w) by lia.
  apply substring_prefix.
Qed.

Lemma match_lit_consumes (l : string) : forall st st',
  In st' (match_lit l st) ->
  exists w, m_rest st = w +:+ m_rest st' /\ String.length w = String.length l.
Proof.
  induction l as [|a l IH]; intros st st' H; simpl in H.
  - destruct H as [<-|[]]. exists "". split; reflexivity.
  - destruct (m_rest st) as [|c s] eqn:E; [destruct H |].
    destruct (Ascii.eqb (lower_char c) (lower_char a)); [|destruct H].
    destruct (IH _ _ H) as (w & Hw & Hl). simpl in Hw.
    exists (String c w). rewrite app_cons. split; simpl; congruence.
Qed.

Lemma stop_here_inv (lo : nat) (st st' : mstate) :
  In st' (stop_here lo st) -> lo = 0%nat /\ st' = st.
Proof. destruct lo; simpl; intros H; [destruct H as [<-|[]]; auto | destruct H]. Qed.

Lemma match_rep_consumes (p : ascii -> bool) (caps : gmap nat string) (s : string) :
  forall lo hi prev st',
  In st' (match_rep p lo hi prev caps s) ->
  exists w, s = w +:+ m_rest st' /\ (lo <= String.length w)%nat /\ m_caps st' = caps.
Proof.
  induction s as [|c s IH]; intros lo hi prev st' H; simpl in H.
  - apply stop_here_inv in H as [-> ->]. exists "". repeat split; simpl; lia.
  - apply in_app_iff in H as [H|H].
    + destruct (hi_allows hi && p c); [|destruct H].
      destruct (IH _ _ _ _ H) as (w & Hw & Hl & Hc).
      exists (String c w). rewrite app_cons.
      repeat split; simpl; [congruence | lia | exact Hc].
    + apply stop_here_inv in H as [-> ->]. exists "". repeat split; simpl; lia.
Qed.

Lemma in_rmatch_seq (r1 r2 : regex) (st st' : mstate) :
  In st' (rmatch (Seq r1 r2) st) <->
  exists st1, In st1 (rmatch r1 st) /\ In st' (rmatch r2 st1).
Proof.
  simpl. rewrite in_concat. split.
  - intros (l & Hl & Hin). apply in_map_iff in Hl as (st1 & <- & H1). eauto.
  - intros (st1 & H1 & H2). exists (rmatch r2 st1). split; [|exact H2].
    apply in_map_iff. eauto.
Qed.

Lemma in_rmatch_grp (n : nat) (r : regex) (st st' : mstate) :
  In st' (rmatch (Grp n r) st) <->
  exists st1, In st1 (rmatch r st) /\ st' = set_cap n st st1.
Proof.
  simpl. rewrite in_map_iff. split; intros (st1 & H1 & H2); eauto.
Qed.

Lemma in_rmatch_bnd (st st' : mstate) :
  In st' (rmatch Bnd st) -> st' = st.
Proof. simpl. destruct (at_boundary st); intros H; [destruct H as [<-|[]]; auto | destruct H]. Qed.

(** Every way of matching consumes a prefix of the remaining input, at least
    [min_len] characters long. *)
Lemma rmatch_consumes (r : regex) : forall st st',
  In st' (rmatch r st) ->
  exists w, m_rest st = w +:+ m_rest st' /\ (min_len r <= String.length w)%nat.
Proof.
  induction r as [l|p|p lo hi| | |r1 IH1 r2 IH2|r1 IH1 r2 IH2|n r IH]; intros st st' H.
  - destruct (match_lit_consumes _ _ _ H) as (w & Hw & Hl).
    exists w. split; [exact Hw | simpl; lia].
  - simpl in H. destruct (m_rest st) as [|c s] eqn:E; [destruct H |].
    destruct (p c); [|destruct H]. destruct H as [<-|[]].
    exists (String c ""). split; simpl; [reflexivity | lia].
  - simpl in H. destruct (match_rep_consumes _ _ _ _ _ _ _ H) as (w & Hw & Hl & _).
    exists w. split; [exact Hw | simpl; exact Hl].
  - apply in_rmatch_bnd in H as ->. exists "". split; simpl; [reflexivity | lia].
  - simpl in H. destruct (at_end (m_rest st)); [|destruct H].
    destruct H as [<-|[]]. exists "". split; simpl; [reflexivity | lia].
  - apply in_rmatch_seq in H as (st1 & H1 & H2).
    destruct (IH1 _ _ H1) as (w1 & E1 & L1). destruct (IH2 _ _ H2) as (w2 & E2 & L2).
    exists (w1 +:+ w2). split.
    + rewrite E1, E2. symmetry. apply append_assoc.
    + rewrite length_app. simpl. lia.
  - simpl in H. apply in_app_iff in H as [H|H].
    + destruct (IH1 _ _ H) as (w & E & L). exists w. split; [exact E | simpl; lia].
    + destruct (IH2 _ _ H) as (w & E & L). exists w. split; [exact E | simpl; lia].
  - apply in_rmatch_grp in H as (st1 & H1 & ->).
    destruct (IH _ _ H1) as (w & E & L). exists w. split; [exact E | exact L].
Qed.

(** What a successful search returns: a run of the matcher from some position
    of the input, whose consumed text is [group(0)]. *)
Lemma search_from_run (r : regex) (s : string) : forall prev m,
  search_from r prev s = Some m ->
  exists pre post st st',
    s = pre +:+ group0 m +:+ post /\
    m_caps st = ∅ /\ In st' (rmatch r st) /\
    group0 m = taken st st' /\ groups m = m_caps st' /\
    (min_len r <= String.length (group0 m))%nat.
Proof.
  assert (Hhit : forall prev s st' l m,
            rmatch r (MState prev s ∅) = st' :: l ->
            Some (ReMatch (taken (MState prev s ∅) st') (m_caps st')) = Some m ->
            exists pre post st st0,
              s = pre +:+ group0 m +:+ post /\
              m_caps st = ∅ /\ In st0 (rmatch r st) /\
              group0 m = taken st st0 /\ groups m = m_caps st0 /\
              (min_len r <= String.length (group0 m))%nat).
  { intros prev s0 st' l m E H. injection H as <-. simpl.
    assert (Hin : In st' (rmatch r (MState prev s0 ∅))) by (rewrite E; left; reflexivity).
    destruct (rmatch_consumes _ _ _ Hin) as (w & Hw & Hl).
    rewrite (taken_app _ _ _ Hw).
    exists "", (m_rest st'), (MState prev s0 ∅), st'.
    rewrite app_nil. simpl in Hw.
    repeat split; auto. symmetry. now apply taken_app. }
  induction s as [|c s IH]; intros prev m H; simpl in H.
  - destruct (rmatch r (MState prev "" ∅)) as [|st' l] eqn:E; [discriminate |].
    eapply Hhit; eauto.
  - destruct (rmatch r (MState prev (String c s) ∅)) as [|st' l] eqn:E.
    + destruct (IH _ _ H) as (pre & post & st & st1 & Hs & Hrest).
      exists (String c pre), post, st, st1.
      split; [rewrite app_cons; now rewrite <- Hs | exact Hrest].
    + eapply Hhit; eauto.
Qed.

(** [group(0)] is a piece of the searched text, never shorter than the
    pattern's minimum. *)
Lemma search_verbatim (r : regex) (s : string) (m : rematch) :
  search r s = Some m ->
  (exists pre post, s = pre +:+ group0 m +:+ post) /\
  (min_len r <= String.length (group0 m))%nat.
Proof.
  intros H. destruct (search_from_run _ _ _ _ H) as (pre & post & st & st' & Hs & _ & _ & _ & _ & Hl).
  split; [eauto | exact Hl].
Qed.

End MatcherFacts.

(** ** The slot extractor and the missing-slot policy *)

Section SlotFacts.
Import PyStr Re SlotMemory Props.

(** In every match of the location pattern, group 1 starts with a letter. *)
Lemma loc_group1_alpha (st st' : mstate) :
  In st' (rmatch loc_re st) ->
  exists c w, m_caps st' !! 1%nat = Some (String c w) /\ is_alpha c = true.
Proof.
  unfold loc_re. cbn [seqs]. intros H.
  apply in_rmatch_seq in H as (s1 & _ & H).
  apply in_rmatch_seq in H as (s2 & _ & H).
  apply in_rmatch_seq in H as (s3 & _ & H).
  apply in_rmatch_seq in H as (s4 & Hg & Hb).
  apply in_rmatch_bnd in Hb as ->.
  apply in_rmatch_grp in Hg as (s5 & Hbody & ->).
  apply in_rmatch_seq in Hbody as (s6 & Hc & Hrep).
  simpl in Hc. destruct (m_rest s3) as [|c rest] eqn:E; [destruct Hc |].
  destruct (is_alpha c) eqn:Ha; [|destruct Hc]. destruct Hc as [<-|[]].
  destruct (rmatch_consumes _ _ _ Hrep) as (w & Hw & _). simpl in Hw.
  exists c, w. split; [|exact Ha].
  unfold set_cap. simpl. rewrite lookup_insert_eq. f_equal.
  apply taken_app. rewrite E, Hw. reflexivity.
Qed.

Lemma normalize_loc_nonempty (l : string) : l <> "" -> normalize_loc l <> "".
Proof.
  intros Hl. unfold normalize_loc, misspellings. simpl.
  repeat match goal with
         | |- context [if ?b then _ else _] => destruct b
         end; simpl; congruence.
Qed.

Lemma loc_of_match_nonempty (text : string) (m : rematch) :
  search loc_re text = Some m -> loc_of_match m <> "".
Proof.
  intros H. destruct (search_from_run _ _ _ _ H) as (_ & _ & st & st' & _ & _ & Hin & _ & Hg & _).
  destruct (loc_group1_alpha _ _ Hin) as (c & w & Hc & Ha).
  unfold loc_of_match, group. rewrite Hg, Hc. simpl default.
  apply normalize_loc_nonempty.
  unfold strip. cbn [lstrip_by]. rewrite (alpha_not_space _ Ha).
  rewrite rstrip_by_keeps_head by (now apply alpha_not_space).
  unfold rstrip_chars. rewrite rstrip_by_keeps_head by (now apply alpha_not_dot).
  discriminate.
Qed.

Lemma first_word_in_nonempty (words : list string) (t s : string) :
  Forall (fun w => w <> "") words -> first_word_in words t = Some s -> s <> "".
Proof.
  intros Hall. unfold first_word_in.
  destruct (List.find _ words) as [w|] eqn:E; [|discriminate].
  simpl. intros [= <-]. apply find_some in E as [Hin _].
  apply capitalize_nonempty. rewrite List.Forall_forall in Hall. apply Hall, Hin.
Qed.

Lemma status_words_nonempty : Forall (fun w => w <> "") status_words.
Proof. repeat constructor; discriminate. Qed.

Lemma emergency_type_words_nonempty : Forall (fun w => w <> "") emergency_type_words.
Proof. repeat constructor; discriminate. Qed.

Lemma nonempty_of_length (s : string) : (1 <= String.length s)%nat -> s <> "".
Proof. destruct s; simpl; [lia | discriminate]. Qed.

Lemma app_nonempty_l (a b : string) : a <> "" -> a +:+ b <> "".
Proof. destruct a; [congruence | discriminate]. Qed.

Lemma eta_of_nonempty (lt s : string) : eta_of lt = Some s -> s <> "".
Proof.
  unfold eta_of.
  destruct (search eta_digit_re lt) as [d|] eqn:Ed.
  { intros [= <-]. apply nonempty_of_length.
    apply search_verbatim in Ed as [_ Hl]. vm_compute min_len in Hl. lia. }
  destruct (search eta_word_re lt) as [w|] eqn:Ew.
  { apply search_verbatim in Ew as [_ Hw]. vm_compute min_len in Hw.
    destruct (search eta_day_re lt) as [d|] eqn:Edy.
    - apply search_verbatim in Edy as [_ Hd]. vm_compute min_len in Hd.
      intros [= <-]. apply app_nonempty_l, nonempty_of_length. lia.
    - intros [= <-]. apply nonempty_of_length. lia. }
  destruct (search eta_rel_re lt) as [r|] eqn:Er; [|discriminate].
  intros [= <-]. apply nonempty_of_length.
  apply search_verbatim in Er as [_ Hl]. vm_compute min_len in Hl. lia.
Qed.

Lemma slots_ok_empty : slots_ok ∅.
Proof. intros k v H. rewrite lookup_empty in H. discriminate. Qed.

Lemma slots_ok_insert (k s : string) (m : gmap string (option string)) :
  In k SLOT_KEYS -> s <> "" -> slots_ok m -> slots_ok (<[k := Some s]> m).
Proof.
  intros Hk Hs Hm k' v H. destruct (decide (k = k')) as [<-|Hne].
  - rewrite lookup_insert_eq in H. injection H as <-. eauto.
  - rewrite lookup_insert_ne in H by exact Hne. eauto.
Qed.

Lemma slots_ok_set_if (k : string) (v : option string) (m : gmap string (option string)) :
  In k SLOT_KEYS -> (forall s, v = Some s -> s <> "") -> slots_ok m -> slots_ok (set_if k v m).
Proof.
  intros Hk Hv Hm. destruct v as [s|]; simpl; [|exact Hm].
  apply slots_ok_insert; auto.
Qed.

Lemma lookup_set_if_ne (k k' : string) (v : option string) (m : gmap string (option string)) :
  k <> k' -> set_if k v m !! k' = m !! k'.
Proof. intros Hne. destruct v; simpl; [now rewrite lookup_insert_ne | reflexivity]. Qed.

End SlotFacts.

Section SlotProperties.
Import PyStr Re SlotMemory Props.

Lemma lookup_set_if_eq (k : string) (v : option string) (m : gmap string (option string)) :
  m !! k = None -> set_if k v m !! k = Some <$> v.
Proof. intros Hm. destruct v; simpl; [apply lookup_insert_eq | exact Hm]. Qed.

(** With heuristics on and a non-empty utterance, the [eta] entry of the
    result is exactly what the [if]/[elif] chain yields. *)
Lemma extract_slots_eta (e : env) (text : string) :
  switched_off (SLOT_HEURISTICS_ENABLED e) = false -> text <> "" ->
  extract_slots e text !! "eta" = Some <$> eta_of (lower text).
Proof.
  intros Hon Hne. unfold extract_slots. rewrite Hon.
  destruct (String.eqb_spec text ""); [contradiction |].
  apply lookup_set_if_eq.
  destruct (search loc_re text); destruct (any_in emergency_context_words (lower text));
    rewrite ?lookup_insert_ne, ?lookup_set_if_ne, ?lookup_empty by discriminate;
    reflexivity.
Qed.

Lemma eta_searches_empty :
  search eta_digit_re "" = None /\ search eta_word_re "" = None /\
  search eta_rel_re "" = None.
Proof. repeat split; reflexivity. Qed.

(** C7 — Config gating: with slot heuristics switched off ([SLOT_HEURISTICS_ENABLED]
    set to "false", "0" or "no", in any letter case) [extract_slots] returns the
    empty map for every utterance; with text templates switched off
    ([SLOT_TEXT_TEMPLATES_ENABLED]) [build_followup_for_missing] and
    [polite_end_from_slots] return the empty string for every argument. *)
Theorem config_gating (e : env) :
  (switched_off (SLOT_HEURISTICS_ENABLED e) = true ->
     forall text, extract_slots e text = ∅) /\
  (switched_off (SLOT_TEXT_TEMPLATES_ENABLED e) = true ->
     forall (missing : list string) (slots : gmap string (option string)),
       build_followup_for_missing e missing = "" /\
       polite_end_from_slots e slots = "").
Proof.
  split.
  - intros Hoff text. unfold extract_slots. rewrite Hoff.
    destruct (String.eqb text ""); reflexivity.
  - intros Hoff missing slots. split.
    + unfold build_followup_for_missing. now rewrite Hoff.
    + unfold polite_end_from_slots. now rewrite Hoff.
Qed.

Lemma config_gating_witness :
  extract_slots (Env (Some "false") (Some "false"))
    "I'm at I-10 near Indio, CA, arriving at 5pm, status driving" = ∅ /\
  build_followup_for_missing (Env (Some "false") (Some "false")) ["eta"] = "" /\
  polite_end_from_slots (Env (Some "false") (Some "false"))
    (<["driver_status" := Some "Driving"]> ∅) = "".
Proof.
  destruct (config_gating (Env (Some "false") (Some "false"))) as [Hx Ht].
  split; [apply Hx; reflexivity |].
  exact (Ht eq_refl ["eta"] (<["driver_status" := Some "Driving"]> ∅)).
Defined.

Lemma digit_cases (d : ascii) :
  is_digit d = true -> In d ["0"; "1"; "2"; "3"; "4"; "5"; "6"; "7"; "8"; "9"]%char.
Proof.
  destruct d as [b0 b1 b2 b3 b4 b5 b6 b7].
  destruct b0, b1, b2, b3, b4, b5, b6, b7; intros H;
    solve [vm_compute in H; discriminate H | simpl; tauto].
Qed.

(** The [eta] entry for an utterance that is a known, non-empty string. *)
Lemma said_eta (e : env) (text v : string) :
  switched_off (SLOT_HEURISTICS_ENABLED e) = false ->
  String.eqb text "" = false ->
  eta_of (lower text) = Some v ->
  extract_slots e text !! "eta" = Some (Some v).
Proof.
  intros Hon Hne Hv. rewrite extract_slots_eta, Hv; [reflexivity | exact Hon |].
  intros ->. discriminate Hne.
Qed.

Lemma said_no_eta (e : env) (text : string) :
  switched_off (SLOT_HEURISTICS_ENABLED e) = false ->
  String.eqb text "" = false ->
  eta_of (lower text) = None ->
  extract_slots e text !! "eta" = None.
Proof.
  intros Hon Hne Hv. rewrite extract_slots_eta, Hv; [reflexivity | exact Hon |].
  intros ->. discriminate Hne.
Qed.

(** C8 — ETA pattern precedence: [extract_slots] tries the explicit digit time
    first, then the word-number with meridiem (prefixed by the day word when one
    occurs), then the relative duration; the first that matches supplies the
    [eta] value, which is the matched text of the lower-cased utterance as it
    stands, with no rewriting to a clock format; when none matches there is
    no [eta] entry.  Each pattern does fire: "5pm" and "12:30" are found by
    the digit pattern, "Five PM" by the word pattern, "in 2 hours" by the
    relative one; a digit time wins over a word time, a day word and a
    duration said before it; a word time wins over a duration and takes the
    day word in front of it; a duration is reported when it stands alone. *)
Theorem eta_pattern_precedence (e : env) (text : string) :
  switched_off (SLOT_HEURISTICS_ENABLED e) = false ->
  let lt := lower text in
  let eta := extract_slots e text !! "eta" in
  let said := fun u : string => extract_slots e u !! "eta" in
  (forall d, search eta_digit_re lt = Some d -> eta = Some (Some (group0 d))) /\
  (search eta_digit_re lt = None ->
   forall w, search eta_word_re lt = Some w ->
     eta = Some (Some (match search eta_day_re lt with
                       | Some d => group0 d +:+ " " +:+ group0 w
                       | None => group0 w
                       end))) /\
  (search eta_digit_re lt = None -> search eta_word_re lt = None ->
   forall r, search eta_rel_re lt = Some r -> eta = Some (Some (group0 r))) /\
  (search eta_digit_re lt = None -> search eta_word_re lt = None ->
   search eta_rel_re lt = None -> eta = None) /\
  (forall r m, In r [eta_digit_re; eta_word_re; eta_day_re; eta_rel_re] ->
     search r lt = Some m ->
     group0 m <> "" /\ exists pre post, lt = pre +:+ group0 m +:+ post) /\
  (said "5pm" = Some (Some "5pm") /\
   said "12:30" = Some (Some "12:30") /\
   said "Five PM" = Some (Some "five pm") /\
   said "in 2 hours" = Some (Some "in 2 hours") /\
   said "no idea yet" = None) /\
  (forall d ap, is_digit d = true -> In ap ["am"; "pm"] ->
     said ("Tomorrow five pm, in 2 hours, or " +:+ String d ap)
       = Some (Some (String d ap))) /\
  (forall d1 d2, is_digit d1 = true -> is_digit d2 = true ->
     said ("Five pm or 12:" +:+ String d1 (String d2 ""))
       = Some (Some ("12:" +:+ String d1 (String d2 "")))) /\
  said "Five PM tomorrow, or in 2 hours" = Some (Some "tomorrow five pm") /\
  said "Five PM, or in 2 hours" = Some (Some "five pm") /\
  (forall d, is_digit d = true ->
     said ("I will be there in " +:+ String d " hours")
       = Some (Some ("in " +:+ String d " hours"))).
Proof.
  intros Hon lt eta said.
  assert (Hverb : forall r m, In r [eta_digit_re; eta_word_re; eta_day_re; eta_rel_re] ->
     search r lt = Some m ->
     group0 m <> "" /\ exists pre post, lt = pre +:+ group0 m +:+ post).
  { intros r m Hr Hm. apply search_verbatim in Hm as [Hpiece Hlen]. split; [|exact Hpiece].
    apply nonempty_of_length.
    simpl in Hr. destruct Hr as [<-|[<-|[<-|[<-|[]]]]]; vm_compute min_len in Hlen; lia. }
  assert (Hfire :
    (said "5pm" = Some (Some "5pm") /\
     said "12:30" = Some (Some "12:30") /\
     said "Five PM" = Some (Some "five pm") /\
     said "in 2 hours" = Some (Some "in 2 hours") /\
     said "no idea yet" = None) /\
    (forall d ap, is_digit d = true -> In ap ["am"; "pm"] ->
       said ("Tomorrow five pm, in 2 hours, or " +:+ String d ap)
         = Some (Some (String d ap))) /\
    (forall d1 d2, is_digit d1 = true -> is_digit d2 = true ->
       said ("Five pm or 12:" +:+ String d1 (String d2 ""))
         = Some (Some ("12:" +:+ String d1 (String d2 "")))) /\
    said "Five PM tomorrow, or in 2 hours" = Some (Some "tomorrow five pm") /\
    said "Five PM, or in 2 hours" = Some (Some "five pm") /\
    (forall d, is_digit d = true ->
       said ("I will be there in " +:+ String d " hours")
         = Some (Some ("in " +:+ String d " hours")))).
  { subst said. cbv beta.
    split; [repeat match goal with |- _ /\ _ => split end;
            (apply (said_eta e _ _ Hon) || apply (said_no_eta e _ Hon));
            vm_compute; reflexivity |].
    split.
    { intros d ap Hd Hap. apply digit_cases in Hd. simpl in Hd, Hap.
      decompose [or] Hd; decompose [or] Hap; subst; try contradiction;
        apply (said_eta e _ _ Hon); vm_compute; reflexivity. }
    split.
    { intros d1 d2 Hd1 Hd2. apply digit_cases in Hd1, Hd2. simpl in Hd1, Hd2.
      decompose [or] Hd1; decompose [or] Hd2; subst; try contradiction;
        apply (said_eta e _ _ Hon); vm_compute; reflexivity. }
    split; [apply (said_eta e _ _ Hon); vm_compute; reflexivity |].
    split; [apply (said_eta e _ _ Hon); vm_compute; reflexivity |].
    intros d Hd. apply digit_cases in Hd. simpl in Hd.
    decompose [or] Hd; subst; try contradiction;
      apply (said_eta e _ _ Hon); vm_compute; reflexivity. }
  destruct (String.eqb_spec text "") as [->|Hne].
  { destruct eta_searches_empty as (Hd & Hw & Hr). subst lt eta. simpl lower in *.
    split; [intros d H; rewrite Hd in H; discriminate |].
    split; [intros _ w H; rewrite Hw in H; discriminate |].
    split; [intros _ _ r H; rewrite Hr in H; discriminate |].
    split; [intros _ _ _; reflexivity |]. split; [exact Hverb | exact Hfire]. }
  assert (Heta : eta = Some <$> eta_of lt) by (now apply extract_slots_eta).
  rewrite Heta. unfold eta_of. fold lt.
  split; [intros d ->; reflexivity |].
  split; [intros -> w ->; destruct (search eta_day_re lt); reflexivity |].
  split; [intros -> -> r ->; reflexivity |].
  split; [intros -> -> ->; reflexivity |]. split; [exact Hverb | exact Hfire].
Qed.

Lemma eta_pattern_precedence_witness :
  switched_off (SLOT_HEURISTICS_ENABLED (Env None None)) = false /\
  extract_slots (Env None None) "Five PM tomorrow, or in 2 hours" !! "eta"
    = Some (Some "tomorrow five pm") /\
  extract_slots (Env None None) "Tomorrow five pm, in 2 hours, or 5pm" !! "eta"
    = Some (Some "5pm") /\
  extract_slots (Env None None) "Five pm or 12:30" !! "eta" = Some (Some "12:30") /\
  extract_slots (Env None None) "I will be there in 2 hours" !! "eta"
    = Some (Some "in 2 hours").
Proof.
  split; [reflexivity |].
  destruct (eta_pattern_precedence (Env None None) "Five PM tomorrow, or in 2 hours" eq_refl)
    as (_ & Hword & _ & _ & _ & _ & Hdigit & Hclock & _ & _ & Hrel).
  split; [eapply eq_trans; [eapply Hword; vm_compute; reflexivity | vm_compute; reflexivity] |].
  split; [exact (Hdigit "5"%char "pm" eq_refl (or_intror (or_introl eq_refl))) |].
  split; [exact (Hclock "3"%char "0"%char eq_refl eq_refl) |].
  exact (Hrel "2"%char eq_refl).
Defined.

(** C10 — Extractor output well-formedness: for every utterance, every key of
    the map returned by [extract_slots] is one of the five slot names, every
    value is a non-empty string, and whenever [emergency_location] is present
    [current_location] is present with the same value. *)
Theorem extract_slots_well_formed (e : env) (text : string) :
  (forall k v, extract_slots e text !! k = Some v ->
     In k SLOT_KEYS /\ exists s, v = Some s /\ s <> "") /\
  (forall v, extract_slots e text !! "emergency_location" = Some v ->
     extract_slots e text !! "current_location" = Some v).
Proof.
  unfold extract_slots.
  destruct (String.eqb text ""); [split; intros *; rewrite lookup_empty; discriminate |].
  destruct (switched_off (SLOT_HEURISTICS_ENABLED e));
    [split; intros *; rewrite lookup_empty; discriminate |].
  cbv zeta.
  assert (H1 : slots_ok (set_if "driver_status" (first_word_in status_words (lower text)) ∅)).
  { apply slots_ok_set_if; [simpl; tauto | | apply slots_ok_empty].
    intros s. apply first_word_in_nonempty, status_words_nonempty. }
  assert (H2 : slots_ok
            (set_if "emergency_type" (first_word_in emergency_type_words (lower text))
               (set_if "driver_status" (first_word_in status_words (lower text)) ∅))).
  { apply slots_ok_set_if; [simpl; tauto | | exact H1].
    intros s. apply first_word_in_nonempty, emergency_type_words_nonempty. }
  split.
  - apply slots_ok_set_if; [simpl; tauto | intros s; apply eta_of_nonempty |].
    destruct (search loc_re text) as [m|] eqn:Em.
    + pose proof (loc_of_match_nonempty _ _ Em) as Hloc.
      destruct (any_in emergency_context_words (lower text)).
      * repeat apply slots_ok_insert; auto; simpl; tauto.
      * apply slots_ok_insert; auto; simpl; tauto.
    + destruct (any_in emergency_context_words (lower text)); assumption.
  - intros v. rewrite !lookup_set_if_ne by discriminate.
    destruct (search loc_re text) as [m|];
      destruct (any_in emergency_context_words (lower text));
      rewrite ?lookup_insert_eq, ?lookup_insert_ne, ?lookup_insert_eq,
        ?lookup_set_if_ne, ?lookup_empty by discriminate;
      intros H; solve [discriminate H | exact H].
Qed.

Lemma extract_slots_well_formed_witness :
  extract_slots (Env None None) "There was a crash near Muzan road, in 2 hours"
    !! "current_location" = Some (Some "Multan").
Proof.
  apply (proj2 (extract_slots_well_formed (Env None None)
                  "There was a crash near Muzan road, in 2 hours")).
  vm_compute. reflexivity.
Defined.

End SlotProperties.

(** ** The slot store *)

Section StoreFacts.
Import PyStr SlotMemory Db.

Lemma merge_updates_lookup (current updates : gmap string (option string)) (k : string) :
  merge_updates current updates !! k =
  match updates !! k with
  | Some v => if is_missing v then current !! k else Some v
  | None => current !! k
  end.
Proof.
  unfold merge_updates. revert k.
  apply (map_fold_weak_ind
           (fun r (m : gmap string (option string)) => forall k,
              r !! k = match m !! k with
                       | Some v => if is_missing v then current !! k else Some v
                       | None => current !! k
                       end)).
  - intros k. now rewrite lookup_empty.
  - intros i x m r Hi IH k. unfold merge_item.
    destruct (decide (i = k)) as [->|Hne].
    + rewrite lookup_insert_eq. destruct (is_missing x) eqn:Hx.
      * rewrite IH, Hi. reflexivity.
      * now rewrite lookup_insert_eq.
    + rewrite (lookup_insert_ne m) by exact Hne.
      destruct (is_missing x); [apply IH |].
      rewrite lookup_insert_ne by exact Hne. apply IH.
Qed.

Lemma dget_merge_updates (current updates : gmap string (option string)) (k : string) :
  dget (merge_updates current updates) k =
  if is_missing (dget updates k) then dget current k else dget updates k.
Proof.
  unfold dget. rewrite merge_updates_lookup.
  destruct (updates !! k) as [v|]; simpl; [|reflexivity].
  destruct (is_missing v); reflexivity.
Qed.

Lemma get_slot_memory_update_same (d : InMemoryDB) (cid : string)
    (u : gmap string (option string)) :
  get_slot_memory (fst (update_slot_memory d cid u)) cid
  = merge_updates (get_slot_memory d cid) u.
Proof. unfold update_slot_memory, get_slot_memory. simpl. now rewrite lookup_insert_eq. Qed.

Lemma get_slot_memory_update_other (d : InMemoryDB) (cid cid' : string)
    (u : gmap string (option string)) :
  cid' <> cid ->
  get_slot_memory (fst (update_slot_memory d cid' u)) cid = get_slot_memory d cid.
Proof.
  intros Hne. unfold update_slot_memory, get_slot_memory. simpl.
  now rewrite lookup_insert_ne.
Qed.

(** One update leaves a slot as it was or sets it to a non-empty new value. *)
Lemma update_slot_memory_step (d : InMemoryDB) (cid cid' k : string)
    (u : gmap string (option string)) :
  let d' := fst (update_slot_memory d cid' u) in
  dget (get_slot_memory d' cid) k = dget (get_slot_memory d cid) k \/
  (cid' = cid /\ exists s, u !! k = Some (Some s) /\ s <> "" /\
                           dget (get_slot_memory d' cid) k = Some s).
Proof.
  intros d'. subst d'. destruct (decide (cid' = cid)) as [->|Hne].
  - rewrite get_slot_memory_update_same, dget_merge_updates.
    destruct (is_missing (dget u k)) eqn:Hm; [left; reflexivity |].
    right. split; [reflexivity |]. unfold dget in *.
    destruct (u !! k) as [[s|]|]; try discriminate.
    exists s. repeat split. intros ->. discriminate.
  - left. now rewrite get_slot_memory_update_other.
Qed.

Lemma update_slot_memory_keeps_filled (d : InMemoryDB) (cid cid' k : string)
    (u : gmap string (option string)) :
  is_missing (dget (get_slot_memory d cid) k) = false ->
  is_missing (dget (get_slot_memory (fst (update_slot_memory d cid' u)) cid) k) = false.
Proof.
  intros H. destruct (update_slot_memory_step d cid cid' k u) as [E|(_ & s & _ & Hs & E)].
  - now rewrite E.
  - rewrite E. simpl. now apply String.eqb_neq.
Qed.

(** C3 — Monotonic fill: over every sequence of slot-memory updates, to this
    call or to others, a slot of a call that holds a non-null, non-empty value
    never goes back to null or empty; and a single update either leaves a
    slot as it was or overwrites it with a non-empty value taken from the
    update.  (No operation of the store resets a slot: the guard of
    [update_slot_memory] skips [None] and the empty string.) *)
Theorem monotonic_fill (d : InMemoryDB)
    (us : list (string * gmap string (option string))) (cid k : string) :
  is_missing (dget (get_slot_memory d cid) k) = false ->
  is_missing (dget (get_slot_memory (update_all d us) cid) k) = false /\
  (forall cid' u,
     let d' := fst (update_slot_memory d cid' u) in
     dget (get_slot_memory d' cid) k = dget (get_slot_memory d cid) k \/
     exists s, u !! k = Some (Some s) /\ s <> "" /\
               dget (get_slot_memory d' cid) k = Some s).
Proof.
  intros H. split.
  - revert d H. unfold update_all.
    induction us as [|[cid' u] us IH]; intros d H; simpl; [exact H |].
    apply IH. now apply update_slot_memory_keeps_filled.
  - intros cid' u d'.
    destruct (update_slot_memory_step d cid cid' k u) as [E|(_ & s & Hs)]; eauto.
Qed.

Lemma monotonic_fill_witness :
  is_missing (dget (get_slot_memory Scenarios.core_filled "c1") "eta") = false /\
  is_missing (dget (get_slot_memory
     (update_all Scenarios.core_filled
        [("c1", <["eta" := None]> ∅); ("c1", <["eta" := Some ""]> ∅);
         ("c2", <["eta" := Some "noon"]> ∅)]) "c1") "eta") = false.
Proof.
  split; [reflexivity |].
  apply (monotonic_fill Scenarios.core_filled
           [("c1", <["eta" := None]> ∅); ("c1", <["eta" := Some ""]> ∅);
            ("c2", <["eta" := Some "noon"]> ∅)] "c1" "eta").
  reflexivity.
Defined.

End StoreFacts.

(** ** The webhook handler *)

Section MonadFacts.
Import Eff.
Context {S A B : Type}.

Lemma bind_ok (m : M S A) (k : A -> M S B) (s s' : S) (a : A) :
  m s = (s', Ok a) -> Eff.bind m k s = k a s'.
Proof. intros H. unfold Eff.bind. now rewrite H. Qed.

Lemma bind_raised (m : M S A) (k : A -> M S B) (s s' : S) :
  m s = (s', Raised) -> Eff.bind m k s = (s', Raised).
Proof. intros H. unfold Eff.bind. now rewrite H. Qed.

End MonadFacts.

Section CloseText.
Import PyStr SlotMemory.

Lemma truthy_not_missing (v : option string) : truthy v = negb (is_missing v).
Proof. destruct v; reflexivity. Qed.

Lemma get_missing_nil (s : gmap string (option string)) :
  get_missing_slots s = [] <->
  (forall k, In k SLOT_KEYS -> is_missing (dget s k) = false).
Proof.
  unfold get_missing_slots. split.
  - intros H k Hk. destruct (is_missing (dget s k)) eqn:E; [|reflexivity].
    assert (Hin : In k (List.filter (fun key => is_missing (dget s key)) SLOT_KEYS))
      by (apply filter_In; auto).
    rewrite H in Hin. destruct Hin.
  - intros H. induction SLOT_KEYS as [|k l IH]; [reflexivity |]. simpl.
    rewrite (H k) by (left; reflexivity). apply IH. intros k' Hk'. apply H. now right.
Qed.

(** With templates on and the three core slots filled, the close sentence
    embeds the three values. *)
Lemma polite_end_mentions (e : env) (slots : gmap string (option string)) :
  switched_off (SLOT_TEXT_TEMPLATES_ENABLED e) = false ->
  truthy (dget slots "driver_status") = true ->
  truthy (dget slots "current_location") = true ->
  truthy (dget slots "eta") = true ->
  let close := polite_end_from_slots e slots in
  close <> "" /\
  str_in (text_of (dget slots "driver_status")) close = true /\
  str_in (text_of (dget slots "current_location")) close = true /\
  str_in (text_of (dget slots "eta")) close = true.
Proof.
  intros Hon Hs Hl He close. subst close. unfold polite_end_from_slots.
  rewrite Hon, Hs, Hl, He. cbn [negb andb].
  set (st := text_of (dget slots "driver_status")).
  set (lo := text_of (dget slots "current_location")).
  set (et := text_of (dget slots "eta")).
  split; [discriminate |]. split; [apply str_in_app |]. split.
  - rewrite <- (append_assoc _ st), <- (append_assoc _ ", location ").
    apply str_in_app.
  - rewrite <- (append_assoc _ st), <- (append_assoc _ ", location "),
      <- (append_assoc _ lo), <- (append_assoc _ ", ETA ").
    apply str_in_app.
Qed.

End CloseText.

Section WebhookSteps.
Import PyStr SlotMemory Escalation Db Eff Oracle Processor Webhook Props.
Context `{X : Collaborators}.

Lemma undisturbed_refl (d : InMemoryDB) : undisturbed d d.
Proof. repeat split. Qed.

Lemma undisturbed_trans (d1 d2 d3 : InMemoryDB) :
  undisturbed d1 d2 -> undisturbed d2 d3 -> undisturbed d1 d3.
Proof. unfold undisturbed. intros (A & B & C) (A' & B' & C'). repeat split; congruence. Qed.

Lemma undisturbed_slots (d d' : InMemoryDB) (cid : string) :
  undisturbed d d' -> get_slot_memory d' cid = get_slot_memory d cid.
Proof. intros (H & _). unfold get_slot_memory. now rewrite H. Qed.

Lemma ended_with_calls_insert (d : InMemoryDB) (cs : gmap string call) (cid : string) (c : call) :
  status c = "completed" \/ status c = "processed" ->
  ended (with_calls d (<[cid := c]> cs)) cid.
Proof. intros H. exists c. split; [simpl; apply lookup_insert_eq | exact H]. Qed.

(** Summarisation either raises and leaves the store alone, or files the
    summary and marks the call processed; the slot memory is not touched. *)
Lemma process_spec (d : InMemoryDB) (cid : string) (c : call)
    (info : option (gmap string (option string))) (noisy no_response : bool) :
  calls d !! cid = Some c ->
  exists d' r,
    process_transcript_and_store cid info noisy no_response d = (d', r) /\
    undisturbed d d' /\
    ((r = Raised /\ d' = d) \/
     (r = Ok tt /\ exists c', calls d' !! cid = Some c' /\ status c' = "processed" /\
                              call_escalation_status c' = call_escalation_status c)).
Proof.
  intros Hc. unfold process_transcript_and_store.
  unfold Eff.bind at 1. unfold get at 1. unfold get_call. rewrite Hc.
  set (tt_text := join newline (map segment_line (full_transcript c))).
  assert (Hsave : forall s, exists d',
             (let (d1, r) := save_summary d cid s in
              (d1, match r with Some _ => Ok tt | None => Raised end)) = (d', Ok tt) /\
             undisturbed d d' /\
             exists c', calls d' !! cid = Some c' /\ status c' = "processed" /\
                        call_escalation_status c' = call_escalation_status c).
  { intros s. unfold save_summary. rewrite Hc. eexists. split; [reflexivity |].
    split; [repeat split |]. eexists. split; [simpl; apply lookup_insert_eq |].
    split; reflexivity. }
  destruct noisy.
  { destruct (Hsave (if dict_truthy (get_slot_memory d cid)
                     then with_slots noisy_summary (get_slot_memory d cid)
                     else noisy_summary)) as (d' & E & Hm & Hc').
    exists d', (Ok tt). split; [exact E |]. split; [exact Hm |]. right. eauto. }
  destruct no_response.
  { destruct (Hsave (if dict_truthy (get_slot_memory d cid)
                     then with_slots no_response_summary (get_slot_memory d cid)
                     else no_response_summary)) as (d' & E & Hm & Hc').
    exists d', (Ok tt). split; [exact E |]. split; [exact Hm |]. right. eauto. }
  unfold Eff.bind, of_option, ret, raise.
  destruct (summarize tt_text) as [s0|].
  - match goal with
    | |- context [save_summary d cid ?s] => destruct (Hsave s) as (d' & E & Hm & Hc')
    end.
    exists d', (Ok tt). split; [exact E |]. split; [exact Hm |]. right. eauto.
  - exists d, Raised. split; [reflexivity |]. split; [apply undisturbed_refl |]. left. auto.
Qed.

(** [finish]: the call is marked completed, then handed to summarisation. *)
Lemma finish_spec (w : world) (cid : string) (c : call)
    (info : option (gmap string (option string))) (noisy no_response : bool) :
  calls (w_db w) !! cid = Some c ->
  exists w' r,
    finish cid info noisy no_response w = (w', r) /\
    w_spoken w' = w_spoken w /\
    undisturbed (w_db w) (w_db w') /\
    ended (w_db w') cid /\
    (exists c', calls (w_db w') !! cid = Some c' /\
                call_escalation_status c' = call_escalation_status c).
Proof.
  intros Hc. unfold finish, db_do, on_db, modify.
  unfold Eff.bind at 1. cbn [w_db w_spoken].
  set (d1 := update_call_status (w_db w) cid "completed").
  assert (Hc1 : calls d1 !! cid = Some (with_status c "completed")).
  { subst d1. unfold update_call_status. rewrite Hc. simpl. apply lookup_insert_eq. }
  assert (Hm1 : undisturbed (w_db w) d1).
  { subst d1. unfold update_call_status. rewrite Hc. repeat split. }
  destruct (process_spec d1 cid _ info noisy no_response Hc1)
    as (d' & r & E & Hm & [[-> ->]|(-> & c' & Hc' & Hst & Hesc)]).
  - rewrite E. eexists _, _. split; [reflexivity |]. cbn [w_db w_spoken].
    split; [reflexivity |]. split; [exact Hm1 |]. split.
    + exists (with_status c "completed"). split; [exact Hc1 | left; reflexivity].
    + exists (with_status c "completed"). split; [exact Hc1 | reflexivity].
  - rewrite E. eexists _, _. split; [reflexivity |]. cbn [w_db w_spoken].
    split; [reflexivity |]. split; [exact (undisturbed_trans _ _ _ Hm1 Hm) |]. split.
    + exists c'. split; [exact Hc' | right; exact Hst].
    + exists c'. split; [exact Hc' |]. rewrite Hesc. reflexivity.
Qed.

(** Line 139, for a call the store knows. *)
Lemma record_segment_spec (ev : event) (w : world) (c : call) :
  calls (w_db w) !! call_id ev = Some c ->
  exists w' c',
    record_segment ev w = (w', Ok tt) /\
    w_spoken w' = w_spoken w /\
    undisturbed (w_db w) (w_db w') /\
    calls (w_db w') !! call_id ev = Some c' /\
    status c' = status c /\
    call_escalation_status c' = call_escalation_status c.
Proof.
  intros Hc. unfold record_segment, on_db, append_transcript. rewrite Hc.
  eexists _, (Call (driver_name c) (phone_number c) (load_number c) (agent_config_id c)
                (status c) (full_transcript c ++ [_]) (structured_summary c)
                (call_escalation_status c)).
  split; [reflexivity |]. cbn [w_db w_spoken].
  repeat split. simpl. apply lookup_insert_eq.
Qed.

(** Lines 142-154 never raise; they touch the slot memory, where filled slots
    stay filled, and the conversation state, nothing else. *)
Lemma refresh_state_spec (ev : event) (w : world) :
  exists w',
    refresh_state ev w = (w', Ok tt) /\
    w_spoken w' = w_spoken w /\
    calls (w_db w') = calls (w_db w) /\
    noisy_counter (w_db w') = noisy_counter (w_db w) /\
    short_counter (w_db w') = short_counter (w_db w) /\
    (forall k, filled (w_db w) (call_id ev) k -> filled (w_db w') (call_id ev) k).
Proof.
  unfold refresh_state, when.
  destruct (String.eqb (speaker ev) "driver" && negb (String.eqb (speech_text ev) "")).
  2:{ exists w. repeat split; auto. }
  set (u := extract_slots environ (speech_text ev)).
  assert (Hstep1 : exists w1,
            (if dict_truthy u
             then db_do (fun d => fst (update_slot_memory d (call_id ev) u))
             else ret tt) w = (w1, Ok tt) /\
            w_spoken w1 = w_spoken w /\ calls (w_db w1) = calls (w_db w) /\
            noisy_counter (w_db w1) = noisy_counter (w_db w) /\
            short_counter (w_db w1) = short_counter (w_db w) /\
            (forall k, filled (w_db w) (call_id ev) k -> filled (w_db w1) (call_id ev) k)).
  { destruct (dict_truthy u).
    - eexists. split; [reflexivity |]. cbn [w_db w_spoken]. repeat split.
      intros k Hk. unfold filled in *. now apply update_slot_memory_keeps_filled.
    - exists w. repeat split; auto. }
  destruct Hstep1 as (w1 & E1 & Hs1 & Hc1 & Hn1 & Hsh1 & Hf1).
  rewrite (bind_ok _ _ _ _ _ E1).
  unfold db_read, on_db, get, ret. unfold Eff.bind at 1. unfold Eff.bind at 1.
  cbn [w_db w_spoken].
  assert (Hsame : World (w_db w1) (w_spoken w1) = w1) by (destruct w1; reflexivity).
  destruct (last_prompted_slot (get_conversation_state (w_db w1) (call_id ev))) as [ls|].
  2:{ exists w1. rewrite Hsame. repeat split; auto. }
  destruct (negb (String.eqb ls "") && truthy (dget u ls)).
  2:{ exists w1. rewrite Hsame. repeat split; auto. }
  eexists. split; [unfold db_do, on_db, modify; reflexivity |].
  cbn [w_db w_spoken]. repeat split; auto.
Qed.

Lemma world_eta (w : world) : World (w_db w) (w_spoken w) = w.
Proof. destruct w; reflexivity. Qed.

Lemma speak_spec (cid t : string) (w : world) :
  speak cid t w =
  if speak_fails cid t then (w, Raised)
  else (World (w_db w) (w_spoken w ++ [(cid, t)]), Ok tt).
Proof. unfold speak. destruct (speak_fails cid t); reflexivity. Qed.

(** The oracle is consulted without touching the store. *)
Lemma ask_oracle_spec (cid text : string) (w : world) (c : call) :
  calls (w_db w) !! cid = Some c ->
  exists ctx,
    ask_oracle cid text w =
    (w, match decide_next_action ctx (Some text) with
        | Some d => Ok d
        | None => Raised
        end).
Proof.
  intros Hc. unfold ask_oracle.
  assert (E1 : exists ctx,
            (d <- db_read (fun d => d) ;; of_option (get_call_context d cid)) w
            = (w, Ok ctx)).
  { unfold db_read, on_db, get, Eff.bind, ret. cbn [w_db w_spoken].
    unfold get_call_context. rewrite Hc. unfold of_option, ret. rewrite world_eta.
    eexists. reflexivity. }
  destruct E1 as (ctx & E1). exists ctx. rewrite (bind_ok _ _ _ _ _ E1).
  unfold of_option, ret, raise.
  destruct (decide_next_action ctx (Some text)); reflexivity.
Qed.

Lemma flag_spec (cid : string) (w : world) (c : call) :
  calls (w_db w) !! cid = Some c ->
  exists w' c',
    flag cid w = (w', Ok tt) /\
    w_spoken w' = w_spoken w /\
    undisturbed (w_db w) (w_db w') /\
    calls (w_db w') !! cid = Some c' /\
    status c' = status c /\
    call_escalation_status c' = Some "Escalation Flagged".
Proof.
  intros Hc. unfold flag, on_db, flag_escalation. rewrite Hc.
  eexists _, (Call (driver_name c) (phone_number c) (load_number c) (agent_config_id c)
                (status c) (full_transcript c) (structured_summary c)
                (Some "Escalation Flagged")).
  split; [reflexivity |]. cbn [w_db w_spoken].
  repeat split. simpl. apply lookup_insert_eq.
Qed.

(** The [except] branch may speak and may wind the call up; it never takes
    back what was said, never touches the slot memory and never reopens a
    call that has ended. *)
Lemma llm_fallback_spec (ev : event) (w : world) :
  ended (w_db w) (call_id ev) ->
  exists w' r,
    llm_fallback ev w = (w', r) /\
    (exists rest, w_spoken w' = w_spoken w ++ rest) /\
    undisturbed (w_db w) (w_db w') /\
    ended (w_db w') (call_id ev).
Proof.
  intros Hend. pose proof Hend as (c & Hc & Hst).
  assert (Hstay : exists w' r, (w, @Raised response) = (w', r) /\
            (exists rest, w_spoken w' = w_spoken w ++ rest) /\
            undisturbed (w_db w) (w_db w') /\ ended (w_db w') (call_id ev)).
  { exists w, Raised. split; [reflexivity |]. split; [exists []; now rewrite app_nil_r |].
    split; [apply undisturbed_refl | exact Hend]. }
  unfold llm_fallback.
  destruct (ask_oracle_spec (call_id ev) (speech_text ev) w c Hc) as (ctx & Eo).
  destruct (decide_next_action ctx (Some (speech_text ev))) as [dec|].
  2:{ rewrite (bind_raised _ _ _ _ Eo). exact Hstay. }
  rewrite (bind_ok _ _ _ _ _ Eo).
  set (t := or_else (agent_text dec) "Okay.").
  pose proof (speak_spec (call_id ev) t w) as Es.
  destruct (speak_fails (call_id ev) t).
  { rewrite (bind_raised _ _ _ _ Es). exact Hstay. }
  rewrite (bind_ok _ _ _ _ _ Es).
  set (w1 := World (w_db w) (w_spoken w ++ [(call_id ev, t)])).
  unfold when.
  destruct (String.eqb (default "" (action dec)) "end_call"
            || String.eqb (default "" (action dec)) "escalate").
  2:{ exists w1, (Ok RespOk). split; [reflexivity |]. subst w1. cbn [w_db w_spoken].
      split; [eauto |]. split; [apply undisturbed_refl | exact Hend]. }
  assert (Hfin : forall (w2 : world) c2,
            calls (w_db w2) !! call_id ev = Some c2 ->
            w_spoken w2 = w_spoken w1 -> undisturbed (w_db w) (w_db w2) ->
            exists w' r,
              (finish (call_id ev) None false false ;; ret RespOk) w2 = (w', r) /\
              (exists rest, w_spoken w' = w_spoken w ++ rest) /\
              undisturbed (w_db w) (w_db w') /\
              ended (w_db w') (call_id ev)).
  { intros w2 c2 Hc2 Hsp2 Hm2.
    destruct (finish_spec w2 (call_id ev) c2 None false false Hc2)
      as (w3 & r3 & Ef & Hsp3 & Hm3 & Hend3 & _).
    assert (Hsp : exists rest, w_spoken w3 = w_spoken w ++ rest).
    { exists [(call_id ev, t)]. rewrite Hsp3, Hsp2. reflexivity. }
    pose proof (undisturbed_trans _ _ _ Hm2 Hm3) as Hm.
    destruct r3 as [[]|].
    - rewrite (bind_ok _ _ _ _ _ Ef). exists w3, (Ok RespOk).
      split; [reflexivity |]. split; [exact Hsp |]. split; assumption.
    - rewrite (bind_raised _ _ _ _ Ef). exists w3, Raised.
      split; [reflexivity |]. split; [exact Hsp |]. split; assumption. }
  destruct (String.eqb (default "" (action dec)) "escalate").
  - destruct (flag_spec (call_id ev) w1 c Hc) as (w2 & c2 & Efl & Hsp2 & Hm2 & Hc2 & _).
    destruct (Hfin w2 c2 Hc2 Hsp2 Hm2) as (w' & r & E & Hrest).
    exists w', r. split; [|exact Hrest].
    rewrite <- E. unfold Eff.bind. rewrite Efl. reflexivity.
  - destruct (Hfin w1 c Hc eq_refl (undisturbed_refl _)) as (w' & r & E & Hrest).
    exists w', r. split; [|exact Hrest].
    rewrite <- E. reflexivity.
Qed.

End WebhookSteps.

Section WebhookProperties.
Import PyStr SlotMemory Escalation Db Eff Oracle Processor Webhook Props.
Context `{X : Collaborators}.

Lemma filled_truthy (d : InMemoryDB) (cid k : string) :
  filled d cid k -> truthy (dget (get_slot_memory d cid) k) = true.
Proof. unfold filled. intros H. now rewrite truthy_not_missing, H. Qed.

Lemma get_slot_memory_ext (d d' : InMemoryDB) (cid : string) :
  slot_memory d' = slot_memory d -> get_slot_memory d' cid = get_slot_memory d cid.
Proof. unfold get_slot_memory. now intros ->. Qed.

(** Lines 199-223 and 254-265 when the close is due: either nothing is
    missing or the driver said goodbye, and the three core slots are filled. *)
Lemma reply_closes (ev : event) (w : world) (c : call) :
  let cid := call_id ev in
  calls (w_db w) !! cid = Some c ->
  (forall t, speak_fails cid t = false) ->
  switched_off (SLOT_TEXT_TEMPLATES_ENABLED environ) = false ->
  detect_emergency_keywords (speech_text ev) = false ->
  filled (w_db w) cid "driver_status" ->
  filled (w_db w) cid "current_location" ->
  filled (w_db w) cid "eta" ->
  get_missing_slots (get_slot_memory (w_db w) cid) = [] \/ says_goodbye (speech_text ev) = true ->
  exists w' r rest,
    reply ev w = (w', r) /\
    w_spoken w' = w_spoken w
                  ++ (cid, polite_end_from_slots environ (get_slot_memory (w_db w) cid)) :: rest /\
    undisturbed (w_db w) (w_db w') /\
    ended (w_db w') cid.
Proof.
  intros cid Hc Hspeak Hon Hnoem Hs Hl He Hdue.
  set (slots := get_slot_memory (w_db w) cid).
  set (close := polite_end_from_slots environ slots).
  destruct (polite_end_mentions environ slots Hon (filled_truthy _ _ _ Hs)
              (filled_truthy _ _ _ Hl) (filled_truthy _ _ _ He)) as (Hne & _).
  fold close in Hne.
  unfold reply. rewrite Hnoem.
  (* the slot-driven body boils down to: speak the close, finish *)
  assert (Ebody : slot_driven ev w
                  = (speak cid close ;; finish cid None false false ;; ret RespEnded) w).
  { unfold slot_driven. fold cid. unfold db_read, on_db, get, ret.
    unfold Eff.bind at 1. unfold Eff.bind at 1. cbn [w_db w_spoken].
    rewrite world_eta. fold slots. fold close.
    destruct (says_goodbye (speech_text ev)) eqn:Hbye; [reflexivity |].
    destruct Hdue as [Hmiss|Hb]; [|discriminate].
    change (get_missing_slots slots = []) in Hmiss. rewrite Hmiss.
    apply String.eqb_neq in Hne. rewrite Hne. reflexivity. }
  pose proof (speak_spec cid close w) as Es. rewrite Hspeak in Es.
  set (w1 := World (w_db w) (w_spoken w ++ [(cid, close)])) in Es.
  destruct (finish_spec w1 cid c None false false Hc)
    as (w2 & r2 & Ef & Hsp2 & Hm2 & Hend2 & _).
  destruct r2 as [[]|].
  - exists w2, (Ok RespEnded), [].
    split.
    + unfold try_except. rewrite Ebody, (bind_ok _ _ _ _ _ Es), (bind_ok _ _ _ _ _ Ef).
      reflexivity.
    + split; [exact Hsp2 |]. split; [exact Hm2 | exact Hend2].
  - destruct (llm_fallback_spec ev w2 Hend2) as (w3 & r3 & El & (rest & Hsp3) & Hm3 & Hend3).
    exists w3, r3, rest. split.
    + unfold try_except. rewrite Ebody, (bind_ok _ _ _ _ _ Es), (bind_raised _ _ _ _ Ef).
      exact El.
    + split; [|split; [exact (undisturbed_trans _ _ _ Hm2 Hm3) | exact Hend3]].
      rewrite Hsp3, Hsp2. subst w1. cbn [w_spoken]. now rewrite <- app_assoc.
Qed.

(** The guards of lines 156-186 let the turn through to [reply]. *)
Lemma guards_pass (ev : event) (w : world) :
  event_type ev = "speech" \/ event_type ev = "transcript_update" ->
  interaction_type ev <> Some "update_only" ->
  is_noisy (confidence ev) (speech_text ev) = false ->
  (speaker ev = "driver" -> (3 <= split_len (speech_text ev))%nat) ->
  (if String.eqb (event_type ev) "update_only"
      || bool_decide (interaction_type ev = Some "update_only")
   then ret RespUpdated
   else noise_guard ev) w = reply ev w.
Proof.
  intros Hty Hint Hnoise Hshort.
  assert (E1 : String.eqb (event_type ev) "update_only" = false)
    by (destruct Hty as [-> | ->]; reflexivity).
  rewrite E1, bool_decide_eq_false_2 by exact Hint. cbn [orb].
  unfold noise_guard. rewrite Hnoise. unfold short_guard.
  destruct (String.eqb_spec (speaker ev) "driver") as [Hd|Hd]; [|reflexivity].
  cbn [andb]. specialize (Hshort Hd).
  apply Nat.ltb_ge in Hshort. rewrite Hshort. reflexivity.
Qed.

Lemma dispatch_speech (ev : event) (w : world) :
  event_type ev = "speech" \/ event_type ev = "transcript_update" ->
  call_id ev <> "" ->
  retell_webhook ev w = on_speech ev w.
Proof.
  intros Hty Hcid. unfold retell_webhook.
  apply String.eqb_neq in Hcid. rewrite Hcid.
  destruct Hty as [-> | ->]; reflexivity.
Qed.

(** What precedes the guards: the segment is stored and the slot memory
    refreshed, for a call the store knows. *)
Lemma prelude_spec (ev : event) (w : world) (c : call) :
  calls (w_db w) !! call_id ev = Some c ->
  exists w2 c2,
    (record_segment ev ;; refresh_state ev) w = (w2, Ok tt) /\
    w_spoken w2 = w_spoken w /\
    noisy_counter (w_db w2) = noisy_counter (w_db w) /\
    short_counter (w_db w2) = short_counter (w_db w) /\
    calls (w_db w2) !! call_id ev = Some c2 /\
    status c2 = status c /\
    call_escalation_status c2 = call_escalation_status c /\
    (forall k, filled (w_db w) (call_id ev) k -> filled (w_db w2) (call_id ev) k).
Proof.
  intros Hc.
  destruct (record_segment_spec ev w c Hc)
    as (w1 & c1 & E1 & Hsp1 & (Hm1 & Hn1 & Hsh1) & Hc1 & Hst1 & Hesc1).
  destruct (refresh_state_spec ev w1) as (w2 & E2 & Hsp2 & Hcs2 & Hn2 & Hsh2 & Hf2).
  exists w2, c1. split; [now rewrite (bind_ok _ _ _ _ _ E1) |].
  repeat split; try congruence.
  intros k Hk. apply Hf2. unfold filled in *.
  now rewrite (get_slot_memory_ext _ _ _ Hm1).
Qed.

(** When the webhook does close: on a speech turn that gets past
    the noise guard, the short-utterance guard and the emergency scan, with
    text templates on and speech delivery working, if the call's
    [driver_status], [current_location] and [eta] are filled and either no slot
    is reported missing or the driver says goodbye, then the reply of this
    very turn is the close sentence, which contains the three values, and the
    call is ended (marked completed; processed once the summary is filed). *)
Theorem termination_completeness (ev : event) (w : world) (c : call) :
  event_type ev = "speech" \/ event_type ev = "transcript_update" ->
  interaction_type ev <> Some "update_only" ->
  call_id ev <> "" ->
  calls (w_db w) !! call_id ev = Some c ->
  (forall t, speak_fails (call_id ev) t = false) ->
  switched_off (SLOT_TEXT_TEMPLATES_ENABLED environ) = false ->
  is_noisy (confidence ev) (speech_text ev) = false ->
  (speaker ev = "driver" -> (3 <= split_len (speech_text ev))%nat) ->
  detect_emergency_keywords (speech_text ev) = false ->
  filled (w_db w) (call_id ev) "driver_status" ->
  filled (w_db w) (call_id ev) "current_location" ->
  filled (w_db w) (call_id ev) "eta" ->
  get_missing_slots (get_slot_memory (w_db w) (call_id ev)) = []
    \/ says_goodbye (speech_text ev) = true ->
  exists w' r close rest,
    retell_webhook ev w = (w', r) /\
    w_spoken w' = w_spoken w ++ (call_id ev, close) :: rest /\
    (let slots := get_slot_memory (w_db w') (call_id ev) in
     truthy (dget slots "driver_status") = true /\
     truthy (dget slots "current_location") = true /\
     truthy (dget slots "eta") = true /\
     str_in (text_of (dget slots "driver_status")) close = true /\
     str_in (text_of (dget slots "current_location")) close = true /\
     str_in (text_of (dget slots "eta")) close = true) /\
    ended (w_db w') (call_id ev).
Proof.
  intros Hty Hint Hcid Hc Hspeak Hon Hnoise Hshort Hnoem Hs Hl He Hdue.
  destruct (prelude_spec ev w c Hc)
    as (w2 & c2 & Epre & Hsp2 & _ & _ & Hc2 & _ & _ & Hf2).
  assert (Hdue2 : get_missing_slots (get_slot_memory (w_db w2) (call_id ev)) = []
                  \/ says_goodbye (speech_text ev) = true).
  { destruct Hdue as [Hmiss|Hbye]; [left | now right].
    apply get_missing_nil. intros k Hk. apply Hf2.
    now apply (proj1 (get_missing_nil _) Hmiss). }
  destruct (reply_closes ev w2 c2 Hc2 Hspeak Hon Hnoem (Hf2 _ Hs) (Hf2 _ Hl) (Hf2 _ He) Hdue2)
    as (w' & r & rest & Er & Hsp' & Hm' & Hend').
  exists w', r, (polite_end_from_slots environ (get_slot_memory (w_db w2) (call_id ev))), rest.
  split.
  { rewrite (dispatch_speech ev w Hty Hcid). unfold on_speech.
    change (record_segment ev ;; refresh_state ev ;; ?k)
      with (record_segment ev ;; (refresh_state ev ;; k)).
    pose proof Epre as Epre'. unfold Eff.bind in Epre'.
    unfold Eff.bind at 1.
    destruct (record_segment ev w) as [w1 [[]|]]; [|discriminate].
    unfold Eff.bind at 1.
    destruct (refresh_state ev w1) as [w2' [[]|]]; [|discriminate].
    injection Epre' as ->.
    rewrite (guards_pass ev w2 Hty Hint Hnoise Hshort). exact Er. }
  split; [now rewrite Hsp', Hsp2 |].
  split; [|exact Hend'].
  rewrite (undisturbed_slots _ _ _ Hm').
  destruct (polite_end_mentions environ (get_slot_memory (w_db w2) (call_id ev)) Hon
              (filled_truthy _ _ _ (Hf2 _ Hs)) (filled_truthy _ _ _ (Hf2 _ Hl))
              (filled_truthy _ _ _ (Hf2 _ He))) as (_ & M1 & M2 & M3).
  cbv zeta. repeat split; auto using filled_truthy.
Qed.

(** Lines 188-196 when the oracle answers and the text is delivered. *)
Lemma emergency_path_spec (ev : event) (w : world) (c : call) (resp : decision) (t : string) :
  calls (w_db w) !! call_id ev = Some c ->
  emergency_protocol = Some resp ->
  agent_text resp = Some t ->
  speak_fails (call_id ev) t = false ->
  exists w' r,
    emergency_path ev w = (w', r) /\
    (r = Ok RespEscalated \/ r = Raised) /\
    w_spoken w' = w_spoken w ++ [(call_id ev, t)] /\
    undisturbed (w_db w) (w_db w') /\
    escalated (w_db w') (call_id ev) /\
    ended (w_db w') (call_id ev).
Proof.
  intros Hc Hresp Htext Hspeak. unfold emergency_path. rewrite Hresp.
  rewrite (bind_ok (of_option (Some resp)) _ w w resp eq_refl). rewrite Htext.
  rewrite (bind_ok (of_option (Some t)) _ w w t eq_refl).
  pose proof (speak_spec (call_id ev) t w) as Es. rewrite Hspeak in Es.
  rewrite (bind_ok _ _ _ _ _ Es).
  set (w1 := World (w_db w) (w_spoken w ++ [(call_id ev, t)])).
  destruct (flag_spec (call_id ev) w1 c Hc) as (w2 & c2 & Efl & Hsp2 & Hm2 & Hc2 & _ & Hesc2).
  rewrite (bind_ok _ _ _ _ _ Efl).
  destruct (finish_spec w2 (call_id ev) c2 (structured_emergency resp) false false Hc2)
    as (w3 & r3 & Ef & Hsp3 & Hm3 & Hend3 & (c3 & Hc3 & Hesc3)).
  assert (Hesc : escalated (w_db w3) (call_id ev)).
  { exists c3. split; [exact Hc3 | congruence]. }
  assert (Hsp : w_spoken w3 = w_spoken w ++ [(call_id ev, t)])
    by (rewrite Hsp3, Hsp2; reflexivity).
  assert (Hm : undisturbed (w_db w) (w_db w3))
    by exact (undisturbed_trans (w_db w) _ _ Hm2 Hm3).
  destruct r3 as [[]|].
  - rewrite (bind_ok _ _ _ _ _ Ef). exists w3, (Ok RespEscalated).
    split; [reflexivity |]. split; [now left |]. repeat split; auto; apply Hm.
  - rewrite (bind_raised _ _ _ _ Ef). exists w3, Raised.
    split; [reflexivity |]. split; [now right |]. repeat split; auto; apply Hm.
Qed.

(** C2 (amended) — Emergency precedence: on a webhook speech turn the noise
    guard and the short-utterance guard are tried first; once a turn is past
    both (confidence at least 0.5, no inaudible marker, at least three words),
    an utterance with an emergency keyword is handled by the emergency path
    and by nothing else, whatever status keywords it also contains: the
    handler behaves as [emergency_path], the noise and short-utterance
    counters are left alone, and when the oracle answers, its text is the only
    thing said, the call is flagged for escalation and ended. *)
Theorem emergency_precedence (ev : event) (w : world) (c : call) :
  event_type ev = "speech" \/ event_type ev = "transcript_update" ->
  interaction_type ev <> Some "update_only" ->
  call_id ev <> "" ->
  calls (w_db w) !! call_id ev = Some c ->
  is_noisy (confidence ev) (speech_text ev) = false ->
  (speaker ev = "driver" -> (3 <= split_len (speech_text ev))%nat) ->
  detect_emergency_keywords (speech_text ev) = true ->
  exists w2,
    retell_webhook ev w = emergency_path ev w2 /\
    w_spoken w2 = w_spoken w /\
    noisy_counter (w_db w2) = noisy_counter (w_db w) /\
    short_counter (w_db w2) = short_counter (w_db w) /\
    (forall resp t,
       emergency_protocol = Some resp -> agent_text resp = Some t ->
       speak_fails (call_id ev) t = false ->
       exists w' r,
         retell_webhook ev w = (w', r) /\
         (r = Ok RespEscalated \/ r = Raised) /\
         w_spoken w' = w_spoken w ++ [(call_id ev, t)] /\
         noisy_counter (w_db w') = noisy_counter (w_db w) /\
         short_counter (w_db w') = short_counter (w_db w) /\
         escalated (w_db w') (call_id ev) /\
         ended (w_db w') (call_id ev)).
Proof.
  intros Hty Hint Hcid Hc Hnoise Hshort Hem.
  destruct (prelude_spec ev w c Hc)
    as (w2 & c2 & Epre & Hsp2 & Hn2 & Hsh2 & Hc2 & _ & _ & _).
  assert (Erun : retell_webhook ev w = emergency_path ev w2).
  { rewrite (dispatch_speech ev w Hty Hcid). unfold on_speech.
    pose proof Epre as Epre'. unfold Eff.bind in Epre'.
    unfold Eff.bind at 1.
    destruct (record_segment ev w) as [w1 [[]|]]; [|discriminate].
    unfold Eff.bind at 1.
    destruct (refresh_state ev w1) as [w2' [[]|]]; [|discriminate].
    injection Epre' as ->.
    rewrite (guards_pass ev w2 Hty Hint Hnoise Hshort).
    unfold reply. now rewrite Hem. }
  exists w2. split; [exact Erun |]. split; [exact Hsp2 |].
  split; [exact Hn2 |]. split; [exact Hsh2 |].
  intros resp t Hresp Htext Hspeak.
  destruct (emergency_path_spec ev w2 c2 resp t Hc2 Hresp Htext Hspeak)
    as (w' & r & E & Hr & Hsp & (_ & Hn & Hsh) & Hesc & Hend).
  exists w', r. rewrite Erun. split; [exact E |]. split; [exact Hr |].
  repeat split; try congruence; assumption.
Qed.

End WebhookProperties.

Section WebhookExamples.
Import PyStr SlotMemory Escalation Db Eff Oracle Processor Webhook Props Scenarios.

Lemma termination_completeness_witness :
  exists w' r close rest,
    retell_webhook (X := offline) (speech "what else do you need" 1) (World all_filled [])
      = (w', r) /\
    w_spoken w' = [] ++ ("c1", close) :: rest /\
    (let slots := get_slot_memory (w_db w') "c1" in
     truthy (dget slots "driver_status") = true /\
     truthy (dget slots "current_location") = true /\
     truthy (dget slots "eta") = true /\
     str_in (text_of (dget slots "driver_status")) close = true /\
     str_in (text_of (dget slots "current_location")) close = true /\
     str_in (text_of (dget slots "eta")) close = true) /\
    ended (w_db w') "c1".
Proof.
  apply (termination_completeness (X := offline)
           (speech "what else do you need" 1) (World all_filled []) a_call).
  - left; reflexivity.
  - discriminate.
  - discriminate.
  - vm_compute; reflexivity.
  - intros t; reflexivity.
  - reflexivity.
  - vm_compute; reflexivity.
  - intros _. vm_compute. lia.
  - vm_compute; reflexivity.
  - vm_compute; reflexivity.
  - vm_compute; reflexivity.
  - vm_compute; reflexivity.
  - left. vm_compute; reflexivity.
Defined.

(** The guards come first: all slots of the call are filled, yet a turn
    heard with confidence 0.3 is answered by the request to repeat and the
    call stays in progress. *)
Lemma termination_completeness_counterexample :
  let res := retell_webhook (X := offline) (speech "yes that is all correct" (3 # 10))
               (World all_filled []) in
  filled all_filled "c1" "driver_status" /\
  filled all_filled "c1" "current_location" /\
  filled all_filled "c1" "eta" /\
  snd res = Ok RespContinued /\
  w_spoken (fst res) = [("c1", "I didn't catch that, could you please repeat?")] /\
  status <$> (calls (w_db (fst res)) !! "c1") = Some "in_progress" /\
  ~ ended (w_db (fst res)) "c1".
Proof.
  cbv zeta. repeat split; try (vm_compute; reflexivity).
  intros (c & Hc & Hst). vm_compute in Hc. injection Hc as <-.
  destruct Hst as [Hst|Hst]; vm_compute in Hst; discriminate.
Qed.

(** With the three core slots filled and no emergency on record, an ordinary
    turn is not closed: the two emergency slots count as missing and the
    handler asks for the first of them. *)
Lemma core_filled_asks_emergency_type :
  let res := retell_webhook (X := offline) (speech "what else do you need" 1)
               (World core_filled []) in
  get_missing_slots (get_slot_memory core_filled "c1")
    = ["emergency_type"; "emergency_location"] /\
  snd res = Ok RespOk /\
  w_spoken (fst res) = [("c1", "Understood. What type of emergency is it?")] /\
  status <$> (calls (w_db (fst res)) !! "c1") = Some "in_progress".
Proof. cbv zeta. repeat split; vm_compute; reflexivity. Qed.

Lemma emergency_precedence_witness :
  exists w' r,
    retell_webhook (X := offline) (speech "I am driving but there was a crash" 1)
      (World one_call []) = (w', r) /\
    r = Ok RespEscalated /\
    w_spoken w' = [("c1", "Emergency noted. A human dispatcher will call you back immediately.")].
Proof.
  destruct (emergency_precedence (X := offline)
              (speech "I am driving but there was a crash" 1) (World one_call []) a_call)
    as (w2 & Erun & _ & _ & _ & Hrun).
  - left; reflexivity.
  - discriminate.
  - discriminate.
  - vm_compute; reflexivity.
  - vm_compute; reflexivity.
  - intros _. vm_compute. lia.
  - vm_compute; reflexivity.
  - destruct (Hrun _ _ eq_refl eq_refl eq_refl) as (w' & r & E & _ & Hsp & _).
    exists w', r. split; [exact E |]. split; [|exact Hsp].
    vm_compute in E. now injection E as _ <-.
Defined.

(** C2, as stated, fails: a one-word cry of "Crash!" never reaches the
    emergency scan, the short-utterance guard answers it; and an emergency
    reported over a bad line (confidence 0.3) is answered by the noise guard. *)
Lemma emergency_precedence_counterexample :
  let short := retell_webhook (X := offline) (speech "Crash!" 1) (World one_call []) in
  let faint := retell_webhook (X := offline)
                 (speech "I am driving but there was a crash" (3 # 10)) (World one_call []) in
  Escalation.detect_emergency_keywords "Crash!" = true /\
  snd short = Ok RespFollowup /\
  w_spoken (fst short) = [("c1", "Could you clarify your status or location?")] /\
  (call_escalation_status <$> (calls (w_db (fst short)) !! "c1")) = Some None /\
  snd faint = Ok RespContinued /\
  w_spoken (fst faint) = [("c1", "I didn't catch that, could you please repeat?")] /\
  (call_escalation_status <$> (calls (w_db (fst faint)) !! "c1")) = Some None.
Proof. cbv zeta. repeat split; vm_compute; reflexivity. Qed.

(** C5 — the defect at work.  The chat service is down.  An emergency
    utterance makes the webhook call [emergency_protocol], which is attempted
    once and whose failure leaves the handler as an exception: nothing is
    said.  With templates off, an ordinary utterance makes it call
    [decide_next_action] in the slot-driven branch and again in the [except]
    branch; the second failure leaves the handler as well.  The duplex
    handler, given the same emergency utterance during the same outage,
    answers with its fallback sentence. *)
Theorem oracle_failure_escapes_webhook :
  let crash := retell_webhook (X := outage) (speech "I am driving but there was a crash" 1)
                 (World one_call []) in
  let plain := retell_webhook (X := outage_no_templates) (speech "what else do you need" 1)
                 (World core_filled []) in
  let duplex := Llm.on_frame (X := outage)
                  (Llm.Msg (reply_wanted 1 [user_says "I am driving but there was a crash"]))
                  fresh in
  emergency_protocol (X := outage) = chat_emergency (Collaborators := outage) /\
  snd crash = Raised /\ w_spoken (fst crash) = [] /\
  snd plain = Raised /\ w_spoken (fst plain) = [] /\
  snd duplex = Ok tt /\
  Llm.s_sent (fst duplex) = [Llm.Response (Some 1%Z) "I understand." false].
Proof. cbv zeta. repeat split; vm_compute; reflexivity. Qed.

(** C4, as stated, fails on the webhook: two garbled utterances in a row are
    answered with the same sentence. *)
Lemma no_repetition_counterexample :
  let w1 := fst (retell_webhook (X := offline) (speech "[inaudible] static" 1)
                   (World one_call [])) in
  let w2 := fst (retell_webhook (X := offline) (speech "uh [inaudible]" 1) w1) in
  w_spoken w2 = [("c1", "I didn't catch that, could you please repeat?");
                 ("c1", "I didn't catch that, could you please repeat?")].
Proof. vm_compute. reflexivity. Qed.

(** C6, as stated, fails on the webhook, which reads no turn identifier: the
    same event delivered twice is stored twice, counted twice and answered
    twice. *)
Lemma duplicate_turn_counterexample :
  let ev := speech "I am driving now" 1 in
  let w1 := fst (retell_webhook (X := offline) ev (World one_call [])) in
  let w2 := fst (retell_webhook (X := offline) ev w1) in
  w_spoken w1 = [("c1", "Thanks. Where are you right now?")] /\
  w_spoken w2 = [("c1", "Thanks. Where are you right now?");
                 ("c1", "And where are you at the moment?")] /\
  length (transcripts (w_db w1)) = 1%nat /\
  length (transcripts (w_db w2)) = 2%nat /\
  prompt_retries (get_conversation_state (w_db w1) "c1") = 1%nat /\
  prompt_retries (get_conversation_state (w_db w2) "c1") = 2%nat.
Proof. cbv zeta. repeat split; vm_compute; reflexivity. Qed.

End WebhookExamples.

(** ** The duplex channel *)

Section Combinators.
Import Eff Props.
Context {S : Type}.

Lemma nr_ret {A : Type} (a : A) : never_raises (@ret S A a).
Proof. intros s. eexists _, _. reflexivity. Qed.

Lemma nr_get : never_raises (@get S).
Proof. intros s. eexists _, _. reflexivity. Qed.

Lemma nr_modify (f : S -> S) : never_raises (modify f).
Proof. intros s. eexists _, _. reflexivity. Qed.

Lemma nr_bind {A B : Type} (m : M S A) (k : A -> M S B) :
  never_raises m -> (forall a, never_raises (k a)) -> never_raises (Eff.bind m k).
Proof.
  intros Hm Hk s. destruct (Hm s) as (s1 & a & E1). destruct (Hk a s1) as (s2 & b & E2).
  exists s2, b. now rewrite (bind_ok _ _ _ _ _ E1).
Qed.

Lemma nr_when (b : bool) (m : M S unit) : never_raises m -> never_raises (when b m).
Proof. intros Hm. destruct b; [exact Hm | apply nr_ret]. Qed.

Lemma nr_try_except {A : Type} (m h : M S A) :
  never_raises h -> never_raises (try_except m h).
Proof.
  intros Hh s. unfold try_except. destruct (m s) as [s1 [a|]].
  - eexists _, _. reflexivity.
  - apply Hh.
Qed.

Lemma nr_attempt (m : M S unit) : never_raises (attempt m).
Proof. apply nr_try_except, nr_ret. Qed.

Lemma try_except_ok {A : Type} (m h : M S A) (s s' : S) (a : A) :
  m s = (s', Ok a) -> try_except m h s = (s', Ok a).
Proof. unfold try_except. now intros ->. Qed.

Lemma try_except_raised {A : Type} (m h : M S A) (s s' : S) :
  m s = (s', Raised) -> try_except m h s = h s'.
Proof. unfold try_except. now intros ->. Qed.

End Combinators.

Section LlmSteps.
Import PyStr SlotMemory Escalation Db Eff Oracle Processor Llm Props.
Context `{X : Collaborators}.

Lemma nr_upd (f : session -> session) : never_raises (upd f).
Proof. apply nr_modify. Qed.

Lemma nr_upd_db (f : InMemoryDB -> InMemoryDB) : never_raises (upd_db f).
Proof. apply nr_modify. Qed.

Lemma nr_send (o : out_frame) : never_raises (send o).
Proof. apply nr_modify. Qed.

Lemma nr_refresh_from (window : list utter) : never_raises (refresh_from window).
Proof. unfold refresh_from. apply nr_bind; [apply nr_get | intros; apply nr_upd_db]. Qed.

Lemma nr_build_context (b : body) : never_raises (build_context b).
Proof.
  intros s. unfold build_context, Eff.bind, get.
  repeat match goal with
         | |- context [if ?c then _ else _] => destruct c
         | |- context [match ?o with Some _ => _ | None => _ end] => destruct o
         end;
    eexists _, _; reflexivity.
Qed.

Lemma nr_generate (ctx : context) (last_user : option string) :
  never_raises (generate ctx last_user).
Proof. apply nr_try_except, nr_upd. Qed.

Lemma nr_avoid_repeat (ctx : context) (last_user : option string) :
  never_raises (avoid_repeat ctx last_user).
Proof.
  unfold avoid_repeat. apply nr_bind; [apply nr_get |]. intros s.
  apply nr_when, nr_attempt.
Qed.

(** [emit] never raises; it appends the reply frame, holding the text
    computed so far, and records the turn identifier and that text. *)
Lemma emit_spec (b : body) (last_user : option string) (s : session) :
  exists s' flag rest,
    emit b last_user s = (s', Ok tt) /\
    s_sent s' = s_sent s ++ Response (b_response_id b) (s_agent_text s) flag :: rest /\
    last_response_id_handled s' = b_response_id b /\
    last_agent_text_sent s' = s_agent_text s.
Proof.
  unfold emit. unfold Eff.bind at 1. unfold get at 1.
  set (text := s_agent_text s).
  set (flag := (says_goodbye (default "" last_user) || oracle_ends (decision_current s))
               || end_now_affirm s
               || cap_status (s_captured s) && cap_location (s_captured s)
                  && cap_eta (s_captured s)).
  unfold send at 1. unfold Eff.bind at 1. unfold modify at 1.
  set (s1 := set_sent s (s_sent s ++ [Response (b_response_id b) text flag])).
  assert (H2 : exists s2,
            when (negb (String.eqb (db_call_id s) "") && negb (String.eqb text ""))
                 (append_quietly (db_call_id s) (agent_segment text)) s1 = (s2, Ok tt) /\
            s_sent s2 = s_sent s1).
  { unfold when. destruct (negb (String.eqb (db_call_id s) "") && negb (String.eqb text "")).
    - eexists. split; reflexivity.
    - eexists. split; reflexivity. }
  destruct H2 as (s2 & E2 & Hs2). rewrite (bind_ok _ _ _ _ _ E2).
  unfold upd at 1. unfold Eff.bind at 1. unfold modify at 1.
  set (s3 := set_last_agent_text_sent (set_last_response_id_handled s2 (b_response_id b)) text).
  set (tail := attempt _).
  assert (Htail : exists s4 rest,
            tail s3 = (s4, Ok tt) /\ s_sent s4 = s_sent s3 ++ rest /\
            last_response_id_handled s4 = last_response_id_handled s3 /\
            last_agent_text_sent s4 = last_agent_text_sent s3).
  { subst tail. unfold attempt, try_except, when.
    destruct (flag && negb (String.eqb (db_call_id s) "")).
    2:{ exists s3, []. rewrite app_nil_r. repeat split. }
    unfold upd_db, upd, send, modify, Eff.bind, ret.
    match goal with
    | |- context [process_transcript_and_store ?c ?i ?n ?r ?d] =>
        destruct (process_transcript_and_store c i n r d) as [d' [[]|]]
    end.
    - eexists _, [Close 1000]. split; [reflexivity |]. repeat split.
    - eexists _, []. split; [reflexivity |]. rewrite app_nil_r. repeat split. }
  destruct Htail as (s4 & rest & E4 & Hs4 & Hid4 & Htx4).
  exists s4, flag, rest. split; [exact E4 |].
  split; [|split; [rewrite Hid4; reflexivity | rewrite Htx4; reflexivity]].
  rewrite Hs4. subst s3. cbn [s_sent set_last_agent_text_sent set_last_response_id_handled].
  rewrite Hs2. subst s1. cbn [s_sent set_sent]. now rewrite <- app_assoc.
Qed.

End LlmSteps.

Section DuplexProperties.
Import PyStr SlotMemory Escalation Db Eff Oracle Processor Llm Props.
Context `{X : Collaborators}.

(** A message that asks for a reply is always answered, and the turn
    identifier it carries is the one remembered afterwards. *)
Lemma respond_marks (b : body) (s : session) :
  exists s1, respond b s = (s1, Ok tt) /\
             last_response_id_handled s1 = b_response_id b.
Proof.
  unfold respond.
  destruct (nr_build_context b s) as (sa & ctx0 & Ea). rewrite (bind_ok _ _ _ _ _ Ea).
  cbv zeta.
  match goal with
  | |- context [Eff.bind (when ?c ?m) _] =>
      assert (Hb : never_raises (when c m))
  end.
  { apply nr_when. apply nr_bind; [apply nr_get |]. intros s0.
    apply nr_bind; [|intros; apply nr_upd].
    apply nr_when. unfold append_quietly. apply nr_upd_db. }
  destruct (Hb sa) as (sb & [] & Eb). rewrite (bind_ok _ _ _ _ _ Eb).
  match goal with
  | |- context [Eff.bind (generate ?c ?l) _] =>
      destruct (nr_generate c l sb) as (sc & [] & Ec);
      destruct (nr_avoid_repeat c l sc) as (sd & [] & Ed);
      destruct (emit_spec b l sd) as (se & flag & rest & Ee & _ & Hid & _)
  end.
  rewrite (bind_ok _ _ _ _ _ Ec), (bind_ok _ _ _ _ _ Ed).
  exists se. split; [exact Ee | exact Hid].
Qed.

Lemma wants_reply_not_ping (b : body) :
  wants_reply b = true -> bool_decide (b_interaction_type b = Some "ping_pong") = false.
Proof.
  unfold wants_reply. intros H. apply orb_true_iff in H as [H|H];
    apply bool_decide_eq_true in H; rewrite H; reflexivity.
Qed.

(** A frame of a peer that keeps to the protocol never makes the loop body
    raise. *)
Lemma nr_msg_round (b : body) : never_raises (loop_body (Msg b)).
Proof.
  intros s. unfold loop_body, Eff.bind at 1, get at 1.
  destruct (bool_decide (b_interaction_type b = Some "ping_pong"));
    [eexists _, _; reflexivity |].
  destruct (negb (wants_reply b)); [apply nr_refresh_from |].
  destruct (is_duplicate b s); [eexists _, _; reflexivity |].
  destruct (respond_marks b s) as (s1 & E & _). eauto.
Qed.

Lemma on_frame_msg (b : body) (s : session) :
  on_frame (Msg b) s = loop_body (Msg b) s.
Proof.
  destruct (nr_msg_round b s) as (s1 & [] & E). rewrite E.
  now apply try_except_ok.
Qed.

(** The check of lines 214-220. *)
Lemma on_frame_duplicate (b : body) (r : Z) (s : session) :
  wants_reply b = true -> b_response_id b = Some r -> r <> 0%Z ->
  last_response_id_handled s = Some r ->
  on_frame (Msg b) s = (s, Ok tt).
Proof.
  intros Hw Hr Hnz Hlast. rewrite on_frame_msg. unfold loop_body, Eff.bind, get.
  rewrite (wants_reply_not_ping b Hw), Hw. cbn [negb].
  unfold is_duplicate. rewrite Hr, Hlast.
  apply Z.eqb_neq in Hnz. rewrite Hnz, bool_decide_eq_true_2 by reflexivity.
  reflexivity.
Qed.

(** C6 (amended) — Idempotent duplicate turns, on the duplex channel: a
    message that asks for a reply and carries a non-zero response identifier
    is ignored when that identifier is the one of the turn answered last: no
    field of the session or of the store changes and nothing is sent.  In
    particular, delivering such a message a second time right after it was
    handled changes nothing.  (The webhook reads no turn identifier.) *)
Theorem duplicate_turn_ignored (b : body) (r : Z) (s : session) :
  wants_reply b = true -> b_response_id b = Some r -> r <> 0%Z ->
  (last_response_id_handled s = Some r -> on_frame (Msg b) s = (s, Ok tt)) /\
  (let s1 := fst (on_frame (Msg b) s) in on_frame (Msg b) s1 = (s1, Ok tt)).
Proof.
  intros Hw Hr Hnz. split; [now apply on_frame_duplicate |].
  cbv zeta.
  destruct (is_duplicate b s) eqn:Hdup.
  { assert (E : on_frame (Msg b) s = (s, Ok tt)).
    { rewrite on_frame_msg. unfold loop_body, Eff.bind, get.
      rewrite (wants_reply_not_ping b Hw), Hw, Hdup. reflexivity. }
    rewrite E. cbn [fst]. exact E. }
  destruct (respond_marks b s) as (s1 & E1 & Hid).
  assert (E : on_frame (Msg b) s = (s1, Ok tt)).
  { rewrite on_frame_msg. unfold loop_body, Eff.bind, get.
    rewrite (wants_reply_not_ping b Hw), Hw, Hdup. exact E1. }
  rewrite E. cbn [fst]. apply (on_frame_duplicate b r); auto. congruence.
Qed.

(** No frame makes the duplex handler raise: what the oracle, the store or
    the summariser throw is caught inside the turn, and what leaves the loop
    is caught by the handler of lines 609-614. *)
Lemma on_frame_never_raises (f : frame) : never_raises (on_frame f).
Proof.
  unfold on_frame. apply nr_try_except. unfold on_error.
  apply nr_bind; [apply nr_when, nr_send | intros; apply nr_upd].
Qed.

(** Lines 517-532 never raise; they touch [agent_text] and
    [decision_current] only. *)
Lemma avoid_repeat_spec (ctx : context) (lu : option string) (s : session) :
  exists s',
    avoid_repeat ctx lu s = (s', Ok tt) /\
    s_sent s' = s_sent s /\
    last_agent_text_sent s' = last_agent_text_sent s /\
    s_agent_text s' =
      if String.eqb (strip (s_agent_text s)) (strip (last_agent_text_sent s)) then
        match decide_next_action ctx lu with
        | None => s_agent_text s
        | Some d1 =>
            if truthy (agent_text d1)
               && negb (String.eqb (strip (default "" (agent_text d1))) (strip (s_agent_text s)))
            then default "" (agent_text d1)
            else
              match decide_next_action
                      (with_call_history ctx
                         (Some (or_else (ctx_call_history ctx) "" +:+ rephrase_hint))) lu with
              | None => s_agent_text s
              | Some d2 => or_else (agent_text d2) (s_agent_text s)
              end
        end
      else s_agent_text s.
Proof.
  unfold avoid_repeat, Eff.bind at 1, get at 1, when.
  destruct (String.eqb (strip (s_agent_text s)) (strip (last_agent_text_sent s))).
  2:{ exists s. repeat split. }
  unfold attempt, try_except.
  destruct (decide_next_action ctx lu) as [d1|].
  2:{ exists s. repeat split. }
  unfold of_option at 1. unfold Eff.bind at 1, ret at 1.
  unfold upd at 1. unfold Eff.bind at 1, modify at 1.
  cbn [s_agent_text set_decision_current].
  destruct (truthy (agent_text d1)
            && negb (String.eqb (strip (default "" (agent_text d1))) (strip (s_agent_text s)))).
  { eexists. split; [reflexivity |]. repeat split. }
  destruct (decide_next_action _ lu) as [d2|].
  - eexists. split; [reflexivity |]. repeat split.
  - eexists. split; [reflexivity |]. repeat split.
Qed.

(** C4 (amended) — No immediate repetition, on the duplex channel: the text
    of a reply is compared, blanks at both ends aside, with the text sent just
    before.  When they differ the computed text is sent.  When they agree the
    oracle is asked: a non-empty answer that differs from the computed text is
    sent in its place, and so differs from the text sent just before; when the
    oracle raises, the computed text is sent; when its answer is empty or no
    different, it is asked once more with a hint to rephrase, and what it then
    answers is sent without a further comparison (the computed text if it
    answers nothing or raises).  (The webhook compares nothing.) *)
Theorem no_immediate_repetition (ctx : context) (lu : option string) (b : body) (s : session) :
  exists s' text flag rest,
    (avoid_repeat ctx lu ;; emit b lu) s = (s', Ok tt) /\
    s_sent s' = s_sent s ++ Response (b_response_id b) text flag :: rest /\
    last_agent_text_sent s' = text /\
    (strip (s_agent_text s) <> strip (last_agent_text_sent s) -> text = s_agent_text s) /\
    (strip (s_agent_text s) = strip (last_agent_text_sent s) ->
       (decide_next_action ctx lu = None -> text = s_agent_text s) /\
       (forall d alt,
          decide_next_action ctx lu = Some d -> agent_text d = Some alt -> alt <> "" ->
          strip alt <> strip (s_agent_text s) ->
          text = alt /\ strip text <> strip (last_agent_text_sent s)) /\
       (forall d,
          decide_next_action ctx lu = Some d ->
          truthy (agent_text d) = false
            \/ strip (default "" (agent_text d)) = strip (s_agent_text s) ->
          text = match decide_next_action
                         (with_call_history ctx
                            (Some (or_else (ctx_call_history ctx) "" +:+ rephrase_hint))) lu with
                 | None => s_agent_text s
                 | Some d2 => or_else (agent_text d2) (s_agent_text s)
                 end)).
Proof.
  destruct (avoid_repeat_spec ctx lu s) as (s1 & E1 & Hsent1 & Hlast1 & Htext1).
  destruct (emit_spec b lu s1) as (s2 & flag & rest & E2 & Hsent2 & _ & Hlast2).
  exists s2, (s_agent_text s1), flag, rest.
  split; [now rewrite (bind_ok _ _ _ _ _ E1) |].
  split; [now rewrite Hsent2, Hsent1 |].
  split; [exact Hlast2 |].
  split.
  - intros Hne. apply String.eqb_neq in Hne. now rewrite Htext1, Hne.
  - intros Heq. pose proof Heq as Heqb. apply String.eqb_eq in Heqb.
    rewrite Heqb in Htext1. split; [|split].
    + intros Hnone. now rewrite Htext1, Hnone.
    + intros d alt Hd Halt Hne Hdiff. rewrite Hd, Halt in Htext1.
      change (default "" (Some alt)) with alt in Htext1. unfold truthy in Htext1.
      apply String.eqb_neq in Hne. pose proof Hdiff as Hdiffb.
      apply String.eqb_neq in Hdiffb. rewrite Hne, Hdiffb in Htext1.
      cbn [negb andb] in Htext1. rewrite Htext1. split; [reflexivity |].
      now rewrite <- Heq.
    + intros d Hd Hsame. rewrite Hd in Htext1.
      destruct Hsame as [Hfalsy|Hsame].
      * now rewrite Hfalsy in Htext1.
      * apply String.eqb_eq in Hsame. rewrite Hsame in Htext1.
        cbn [negb] in Htext1. now rewrite andb_false_r in Htext1.
Qed.

End DuplexProperties.

Section DuplexExamples.
Import PyStr SlotMemory Escalation Db Eff Oracle Processor Llm Props Scenarios.

Lemma duplicate_turn_ignored_witness :
  let s1 := fst (on_frame (X := offline) (Msg first_turn) greeted) in
  on_frame (X := offline) (Msg first_turn) s1 = (s1, Ok tt).
Proof.
  apply (proj2 (duplicate_turn_ignored (X := offline) first_turn 1 greeted
                  eq_refl eq_refl ltac:(discriminate))).
Defined.

Lemma no_immediate_repetition_witness :
  exists s' flag rest,
    (avoid_repeat (X := offline) empty_context (Some "hello there") ;;
     emit (X := offline) (reply_wanted 2 []) (Some "hello there")) about_to_repeat
      = (s', Ok tt) /\
    s_sent s' = [] ++ Response (Some 2%Z) "Got it. Any delays or ETA?" flag :: rest.
Proof.
  destruct (no_immediate_repetition (X := offline) empty_context (Some "hello there")
              (reply_wanted 2 []) about_to_repeat)
    as (s' & text & flag & rest & E & Hsent & _ & _ & Hsame).
  destruct (Hsame eq_refl) as (_ & Halt & _).
  destruct (Halt _ "Got it. Any delays or ETA?" eq_refl eq_refl) as [Htext _].
  - discriminate.
  - vm_compute. discriminate.
  - exists s', flag, rest. split; [exact E |]. rewrite <- Htext. exact Hsent.
Defined.

(** A redelivery is not recognised when the identifier is 0. *)
Lemma zero_identifier_answered_twice :
  let turn := Msg (reply_wanted 0 [user_says "hello there my friend"]) in
  let s1 := fst (on_frame (X := offline) turn greeted) in
  let s2 := fst (on_frame (X := offline) turn s1) in
  length (s_sent s1) = 4%nat /\ length (s_sent s2) = 5%nat.
Proof. cbv zeta. split; vm_compute; reflexivity. Qed.

(** With text templates off and the oracle offline, the first reply of the
    session repeats the greeting word for word. *)
Lemma greeting_repeated_offline :
  s_sent (retell_custom_llm_ws (X := offline_no_templates) one_call "c1"
            [Msg (reply_wanted 1 [user_says "hello there my friend"])])
  = [Config; Begin "Got it. Any delays or ETA?";
     Interrupt "Got it. Any delays or ETA?";
     Response (Some 1%Z) "Got it. Any delays or ETA?" false].
Proof. vm_compute. reflexivity. Qed.

(** A whole session, offline: greeting, one informative turn, its
    redelivery, and a ping. *)
Lemma offline_session :
  s_sent (retell_custom_llm_ws (X := offline) one_call "c1"
            [Msg first_turn; Msg first_turn;
             Msg (Body (Some "ping_pong") None (Some "t0") [] [] None None None None None)])
  = [Config; Begin "Got it. Any delays or ETA?";
     Interrupt "Got it. Any delays or ETA?";
     Response (Some 1%Z) "Understood. What type of emergency is it?" true;
     Pong (Some "t0")].
Proof. vm_compute. reflexivity. Qed.

End DuplexExamples.

(** ** Filled slots survive every frame of the duplex channel *)

Section Preservation.
Import Eff Props.
Context {S : Type} (P : S -> Prop).

Lemma pres_ret {A : Type} (a : A) : preserves P (@ret S A a).
Proof. intros s s' r [= <- _] H. exact H. Qed.

Lemma pres_raise {A : Type} : preserves P (@raise S A).
Proof. intros s s' r [= <- _] H. exact H. Qed.

Lemma pres_get : preserves P (@get S).
Proof. intros s s' r [= <- _] H. exact H. Qed.

Lemma pres_of_option {A : Type} (o : option A) : preserves P (of_option o).
Proof. destruct o; [apply pres_ret | apply pres_raise]. Qed.

Lemma pres_modify (g : S -> S) : (forall s, P s -> P (g s)) -> preserves P (modify g).
Proof. intros Hg s s' r [= <- _] H. now apply Hg. Qed.

Lemma pres_bind {A B : Type} (m : M S A) (k : A -> M S B) :
  preserves P m -> (forall a, preserves P (k a)) -> preserves P (Eff.bind m k).
Proof.
  intros Hm Hk s s' r. unfold Eff.bind. destruct (m s) as [s1 [a|]] eqn:E1.
  - intros E2 H. exact (Hk a _ _ _ E2 (Hm _ _ _ E1 H)).
  - intros [= <- _] H. exact (Hm _ _ _ E1 H).
Qed.

Lemma pres_when (b : bool) (m : M S unit) : preserves P m -> preserves P (when b m).
Proof. intros Hm. destruct b; [exact Hm | apply pres_ret]. Qed.

Lemma pres_try_except {A : Type} (m h : M S A) :
  preserves P m -> preserves P h -> preserves P (try_except m h).
Proof.
  intros Hm Hh s s' r. unfold try_except. destruct (m s) as [s1 [a|]] eqn:E1.
  - intros [= <- _] H. exact (Hm _ _ _ E1 H).
  - intros E2 H. exact (Hh _ _ _ E2 (Hm _ _ _ E1 H)).
Qed.

Lemma pres_attempt (m : M S unit) : preserves P m -> preserves P (attempt m).
Proof. intros Hm. apply pres_try_except; [exact Hm | apply pres_ret]. Qed.


End Preservation.

Section DuplexInvariant.
Import PyStr SlotMemory Escalation Db Eff Oracle Processor Llm Props.
Context `{X : Collaborators}.
Variables (cid k : string).

Let still_filled (s : session) : Prop := filled (s_db s) cid k.

Lemma filled_ext (d d' : InMemoryDB) :
  slot_memory d' = slot_memory d -> filled d cid k -> filled d' cid k.
Proof. unfold filled. intros H. now rewrite (get_slot_memory_ext _ _ _ H). Qed.

Lemma filled_update (d : InMemoryDB) (c : string) (u : gmap string (option string)) :
  filled d cid k -> filled (fst (update_slot_memory d c u)) cid k.
Proof. apply update_slot_memory_keeps_filled. Qed.

Lemma pres_upd (f : session -> session) :
  (forall s, s_db (f s) = s_db s) -> preserves still_filled (upd f).
Proof. intros Hf. apply pres_modify. intros s. unfold still_filled. now rewrite Hf. Qed.

Lemma pres_upd_db (g : InMemoryDB -> InMemoryDB) :
  (forall d, filled d cid k -> filled (g d) cid k) -> preserves still_filled (upd_db g).
Proof. intros Hg. apply pres_modify. intros s. unfold still_filled. simpl. apply Hg. Qed.

Lemma pres_send (o : out_frame) : preserves still_filled (send o).
Proof. apply pres_modify. intros s H. exact H. Qed.

Lemma pres_append_quietly (c : string) (seg : segment) :
  preserves still_filled (append_quietly c seg).
Proof.
  apply pres_upd_db. intros d. apply filled_ext.
  unfold append_transcript. destruct (calls d !! c); reflexivity.
Qed.

(** Summarisation leaves the slot memory alone, whether the call is known to
    the store or not. *)
Lemma process_keeps_slot_memory (c : string) (info : option (gmap string (option string)))
    (noisy no_response : bool) (d : InMemoryDB) :
  slot_memory (fst (process_transcript_and_store c info noisy no_response d))
  = slot_memory d.
Proof.
  destruct (calls d !! c) as [cl|] eqn:Hc.
  - destruct (process_spec d c cl info noisy no_response Hc) as (d' & r & E & (Hm & _) & _).
    now rewrite E.
  - unfold process_transcript_and_store, Eff.bind, get, get_call. now rewrite Hc.
Qed.

Lemma pres_refresh_from (window : list utter) : preserves still_filled (refresh_from window).
Proof.
  unfold refresh_from. apply pres_bind; [apply pres_get |]. intros s.
  apply pres_upd_db. intros d.
  generalize (map utter_text
                (List.filter (fun m => bool_decide (utter_role m = Some "user")
                                       || bool_decide (utter_role m = Some "driver"))
                             window)).
  intros texts. revert d. induction texts as [|t texts IH]; intros d H; simpl; [exact H |].
  apply IH. destruct (dict_truthy _ && _); [now apply filled_update | exact H].
Qed.

Lemma pres_on_update_only (b : body) : preserves still_filled (on_update_only b).
Proof. apply pres_refresh_from. Qed.

Lemma pres_build_context (b : body) : preserves still_filled (build_context b).
Proof.
  unfold build_context. apply pres_bind; [apply pres_get |]. intros s.
  repeat match goal with
         | |- preserves _ (if ?c then _ else _) => destruct c
         | |- preserves _ (match ?o with Some _ => _ | None => _ end) => destruct o
         | |- preserves _ (ret _) => apply pres_ret
         | |- preserves _ (Eff.bind _ _) => apply pres_bind; [|intros]
         | |- preserves _ (upd _) => apply pres_upd; reflexivity
         end.
Qed.

Lemma pres_handle_confirmation (t : string) : preserves still_filled (handle_confirmation t).
Proof.
  unfold handle_confirmation. apply pres_bind; [apply pres_get |]. intros s.
  apply pres_when.
  destruct (any_in affirmative_words t); [apply pres_upd; reflexivity |].
  destruct (any_in negative_words t); [apply pres_upd; reflexivity | apply pres_ret].
Qed.

Lemma pres_emergency_branch : preserves still_filled emergency_branch.
Proof.
  unfold emergency_branch. apply pres_bind; [apply pres_of_option |]. intros d.
  apply pres_bind; [apply pres_upd; reflexivity |]. intros _.
  apply pres_bind; [apply pres_get |]. intros s.
  apply pres_bind.
  - apply pres_when. apply pres_upd_db. intros db. apply filled_update.
  - intros _. apply pres_when. intros s0 s' r. unfold still_filled.
    unfold flag_escalation. destruct (calls (s_db s0) !! db_call_id s0).
    + intros [= <- _] H. exact H.
    + intros [= <- _] H. exact H.
Qed.

Lemma pres_reconcile (flag : captured -> bool) (value : slot_values -> option string)
    (key : string) (shared : gmap string (option string)) :
  preserves still_filled (reconcile flag value key shared).
Proof.
  unfold reconcile. apply pres_bind; [apply pres_get |]. intros s.
  destruct (flag (s_captured s) && truthy (value (s_slot_values s))
            && negb (truthy (dget shared key))); [|apply pres_ret].
  apply pres_bind; [apply pres_upd_db; intros db; apply filled_update |]. intros _.
  apply pres_bind; [apply pres_get | intros; apply pres_ret].
Qed.

Lemma pres_slot_driven : preserves still_filled slot_driven.
Proof.
  unfold slot_driven. apply pres_bind; [apply pres_get |]. intros s.
  apply pres_bind; [apply pres_reconcile |]. intros s1.
  apply pres_bind; [apply pres_reconcile |]. intros s2.
  apply pres_bind; [apply pres_reconcile |]. intros s3.
  destruct (get_missing_slots s3); apply pres_upd; reflexivity.
Qed.

Lemma pres_generate (ctx : context) (lu : option string) :
  preserves still_filled (generate ctx lu).
Proof.
  unfold generate. apply pres_try_except; [|apply pres_upd; reflexivity].
  apply pres_bind; [apply pres_upd; reflexivity |]. intros _.
  destruct (truthy lu).
  - apply pres_bind.
    { apply pres_attempt. apply pres_bind; [apply pres_get |]. intros s.
      apply pres_when. apply pres_upd_db. intros db. apply filled_update. }
    intros _. apply pres_bind; [apply pres_handle_confirmation |]. intros _.
    destruct (detect_emergency_keywords (default "" lu)); [apply pres_emergency_branch |].
    apply pres_bind.
    { unfold capture_utterance. apply pres_upd. reflexivity. }
    intros _. apply pres_bind.
    { apply pres_try_except; [apply pres_slot_driven |].
      unfold heuristic_prompts. apply pres_upd. intros s.
      repeat match goal with |- context [if ?c then _ else _] => destruct c end;
        reflexivity. }
    intros _. apply pres_attempt. unfold out_of_scope_guard.
    apply pres_bind; [apply pres_get |]. intros s. apply pres_when.
    apply pres_bind; [apply pres_of_option | intros; apply pres_upd; reflexivity].
  - apply pres_bind; [apply pres_get |]. intros s.
    destruct (opening_sent s); [apply pres_upd; reflexivity |].
    apply pres_bind; [apply pres_of_option | intros; apply pres_upd; reflexivity].
Qed.

Lemma pres_avoid_repeat (ctx : context) (lu : option string) :
  preserves still_filled (avoid_repeat ctx lu).
Proof.
  unfold avoid_repeat. apply pres_bind; [apply pres_get |]. intros s.
  apply pres_when, pres_attempt.
  apply pres_bind; [apply pres_of_option |]. intros d1.
  apply pres_bind; [apply pres_upd; reflexivity |]. intros _.
  destruct (truthy (agent_text d1) && _); [apply pres_upd; reflexivity |].
  apply pres_bind; [apply pres_of_option | intros; apply pres_upd; reflexivity].
Qed.

Lemma pres_emit (b : body) (lu : option string) : preserves still_filled (emit b lu).
Proof.
  unfold emit. apply pres_bind; [apply pres_get |]. intros s.
  apply pres_bind; [apply pres_send |]. intros _.
  apply pres_bind; [apply pres_when, pres_append_quietly |]. intros _.
  apply pres_bind; [apply pres_upd; reflexivity |]. intros _.
  apply pres_attempt, pres_when.
  apply pres_bind.
  { apply pres_upd_db. intros d. apply filled_ext.
    unfold update_call_status. destruct (calls d !! db_call_id s); reflexivity. }
  intros _. apply pres_bind.
  { apply pres_upd_db. intros d. apply filled_ext.
    unfold append_transcript. destruct (calls d !! db_call_id s); reflexivity. }
  intros _. apply pres_bind.
  { intros s0 s' r. unfold still_filled.
    pose proof (process_keeps_slot_memory (db_call_id s) None false false (s_db s0)) as Hm.
    destruct (process_transcript_and_store (db_call_id s) None false false (s_db s0))
      as [d' r'].
    intros [= <- _]. simpl in *. now apply filled_ext. }
  intros _. apply pres_send.
Qed.

Lemma pres_respond (b : body) : preserves still_filled (respond b).
Proof.
  unfold respond. apply pres_bind; [apply pres_build_context |]. intros ctx0. cbv zeta.
  apply pres_bind.
  { apply pres_when. apply pres_bind; [apply pres_get |]. intros s.
    apply pres_bind; [apply pres_when, pres_append_quietly |]. intros _.
    apply pres_upd. reflexivity. }
  intros _. apply pres_bind; [apply pres_generate |]. intros _.
  apply pres_bind; [apply pres_avoid_repeat |]. intros _. apply pres_emit.
Qed.

Lemma pres_respond_loose (b : body) (t c : list entry) (delivered : bool) :
  preserves still_filled (respond_loose b t c delivered).
Proof.
  unfold respond_loose. apply pres_bind; [apply pres_build_context |]. intros ctx0.
  apply pres_bind; [destruct t; [apply pres_ret | apply pres_of_option] |]. intros found.
  cbv zeta. apply pres_bind.
  { apply pres_when. apply pres_bind; [apply pres_get |]. intros s.
    apply pres_bind; [apply pres_when, pres_append_quietly |]. intros _.
    apply pres_upd. reflexivity. }
  intros _. apply pres_bind.
  { destruct (truthy _); [apply pres_ret |].
    apply pres_bind; [apply pres_of_option | intros; apply pres_ret]. }
  intros lu. apply pres_bind; [apply pres_generate |]. intros _.
  apply pres_bind; [apply pres_avoid_repeat |]. intros _.
  destruct delivered; [apply pres_emit | apply pres_raise].
Qed.

Lemma pres_loop_body (f : frame) : preserves still_filled (loop_body f).
Proof.
  destruct f as [| |b| | |b t c delivered]; unfold loop_body.
  - apply pres_ret.
  - apply pres_send.
  - apply pres_bind; [apply pres_get |]. intros s0.
    destruct (bool_decide (b_interaction_type b = Some "ping_pong")); [apply pres_send |].
    destruct (negb (wants_reply b)); [apply pres_on_update_only |].
    destruct (is_duplicate b s0); [apply pres_ret | apply pres_respond].
  - apply pres_upd. reflexivity.
  - apply pres_raise.
  - apply pres_bind; [apply pres_get |]. intros s0.
    destruct (bool_decide (b_interaction_type b = Some "ping_pong"));
      [apply pres_when, pres_send |].
    destruct (negb (wants_reply b)); [apply pres_refresh_from |].
    destruct (is_duplicate b s0); [apply pres_ret | apply pres_respond_loose].
Qed.

(** Whatever frame arrives, whatever the oracle says, a slot of any call that
    is filled before the frame is still filled after it: the duplex handler
    has no way of resetting the slot set, on a negative confirmation or
    otherwise. *)
Lemma on_frame_keeps_filled (f : frame) (s : session) :
  filled (s_db s) cid k -> filled (s_db (fst (on_frame f s))) cid k.
Proof.
  assert (H : preserves still_filled (on_frame f)).
  { unfold on_frame. apply pres_try_except; [apply pres_loop_body |].
    unfold on_error. apply pres_bind; [apply pres_when, pres_send |]. intros _.
    apply pres_upd. reflexivity. }
  intros Hs. destruct (on_frame f s) as [s' r] eqn:E. exact (H _ _ _ E Hs).
Qed.

End DuplexInvariant.

(** ** Filled slots survive every webhook event *)

Section WebhookInvariant.
Import PyStr SlotMemory Escalation Db Eff Oracle Processor Webhook Props.
Context `{X : Collaborators}.
Variables (cid k : string).

Let kept (w : world) : Prop := filled (w_db w) cid k.

Lemma pres_db_do (g : InMemoryDB -> InMemoryDB) :
  (forall d, filled d cid k -> filled (g d) cid k) -> preserves kept (db_do g).
Proof. intros Hg w w' r [= <- _]. unfold kept. simpl. apply Hg. Qed.

Lemma pres_db_read {A : Type} (f : InMemoryDB -> A) : preserves kept (db_read f).
Proof. intros w w' r [= <- _]. unfold kept. simpl. auto. Qed.

Lemma pres_speak (c t : string) : preserves kept (speak c t).
Proof.
  intros w w' r. rewrite speak_spec. destruct (speak_fails c t); intros [= <- _]; auto.
Qed.

Lemma pres_on_db_same {A : Type} (m : M InMemoryDB A) :
  (forall d, slot_memory (fst (m d)) = slot_memory d) -> preserves kept (on_db m).
Proof.
  intros Hm w w' r. unfold on_db, kept. specialize (Hm (w_db w)).
  destruct (m (w_db w)) as [d' r']. intros [= <- _]. simpl in *.
  now apply filled_ext.
Qed.

Lemma pres_finish (c : string) (info : option (gmap string (option string)))
    (noisy no_response : bool) :
  preserves kept (finish c info noisy no_response).
Proof.
  unfold finish. apply pres_bind.
  - apply pres_db_do. intros d. apply filled_ext.
    unfold update_call_status. destruct (calls d !! c); reflexivity.
  - intros _. apply pres_on_db_same. intros d. apply process_keeps_slot_memory.
Qed.

Lemma pres_flag (c : string) : preserves kept (flag c).
Proof.
  apply pres_on_db_same. intros d. unfold flag_escalation.
  destruct (calls d !! c); reflexivity.
Qed.

Lemma pres_ask_oracle (c t : string) : preserves kept (ask_oracle c t).
Proof.
  unfold ask_oracle. apply pres_bind; [|intros; apply pres_of_option].
  apply pres_bind; [apply pres_db_read | intros; apply pres_of_option].
Qed.

Lemma pres_refresh_state (ev : event) : preserves kept (refresh_state ev).
Proof.
  unfold refresh_state. apply pres_when. apply pres_bind.
  - apply pres_when. apply pres_db_do. intros d. apply filled_update.
  - intros _. apply pres_bind; [apply pres_db_read |]. intros st.
    destruct (last_prompted_slot st); [|apply pres_ret].
    apply pres_when. apply pres_db_do. intros d. apply filled_ext. reflexivity.
Qed.

Lemma pres_llm_fallback (ev : event) : preserves kept (llm_fallback ev).
Proof.
  unfold llm_fallback. apply pres_bind; [apply pres_ask_oracle |]. intros dec.
  apply pres_bind; [apply pres_speak |]. intros _.
  apply pres_bind; [|intros; apply pres_ret].
  apply pres_when. apply pres_bind; [apply pres_when, pres_flag | intros; apply pres_finish].
Qed.

Lemma pres_slot_driven_webhook (ev : event) : preserves kept (Webhook.slot_driven ev).
Proof.
  unfold Webhook.slot_driven. apply pres_bind; [apply pres_db_read |]. intros slots.
  destruct (says_goodbye (speech_text ev)).
  { apply pres_bind; [apply pres_speak |]. intros _.
    apply pres_bind; [apply pres_finish | intros; apply pres_ret]. }
  destruct (get_missing_slots slots) as [|next rest].
  - apply pres_bind.
    { destruct (String.eqb _ ""); [|apply pres_ret].
      apply pres_bind; [apply pres_ask_oracle | intros; apply pres_ret]. }
    intros t. apply pres_bind; [apply pres_speak |]. intros _.
    apply pres_bind; [apply pres_finish | intros; apply pres_ret].
  - apply pres_bind; [apply pres_db_read |]. intros st.
    apply pres_bind.
    { destruct (String.eqb _ ""); [|apply pres_ret].
      apply pres_bind; [apply pres_ask_oracle | intros; apply pres_ret]. }
    intros p. apply pres_bind; [apply pres_speak |]. intros _.
    apply pres_bind; [|intros; apply pres_ret].
    apply pres_db_do. intros d. apply filled_ext. reflexivity.
Qed.

Lemma pres_reply (ev : event) : preserves kept (reply ev).
Proof.
  unfold reply. destruct (detect_emergency_keywords (speech_text ev)).
  - unfold emergency_path.
    apply pres_bind; [apply pres_of_option |]. intros resp.
    apply pres_bind; [apply pres_of_option |]. intros t.
    apply pres_bind; [apply pres_speak |]. intros _.
    apply pres_bind; [apply pres_flag |]. intros _.
    apply pres_bind; [apply pres_finish | intros; apply pres_ret].
  - apply pres_try_except; [apply pres_slot_driven_webhook | apply pres_llm_fallback].
Qed.

Lemma pres_noise_guard (ev : event) : preserves kept (noise_guard ev).
Proof.
  assert (Hshort : preserves kept (short_guard ev)).
  { unfold short_guard. destruct (String.eqb (speaker ev) "driver" && _); [|apply pres_reply].
    apply pres_bind.
    { apply pres_on_db_same. intros d. reflexivity. }
    intros n. destruct (Nat.eqb n 1 || Nat.eqb n 2).
    { apply pres_bind; [apply pres_speak | intros; apply pres_ret]. }
    destruct (3 <=? n)%nat; [|apply pres_reply].
    apply pres_bind; [apply pres_speak |]. intros _.
    apply pres_bind; [apply pres_finish | intros; apply pres_ret]. }
  unfold noise_guard. destruct (is_noisy (confidence ev) (speech_text ev)); [|exact Hshort].
  apply pres_bind.
  { apply pres_on_db_same. intros d. reflexivity. }
  intros n. destruct (n <=? 2)%nat.
  { apply pres_bind; [apply pres_speak | intros; apply pres_ret]. }
  apply pres_bind; [apply pres_speak |]. intros _.
  apply pres_bind; [apply pres_finish | intros; apply pres_ret].
Qed.

(** Whatever event arrives, a slot of any call that is filled before the
    event is still filled after it. *)
Lemma retell_webhook_keeps_filled (ev : event) (w : world) :
  filled (w_db w) cid k -> filled (w_db (fst (retell_webhook ev w))) cid k.
Proof.
  assert (H : preserves kept (retell_webhook ev)).
  { unfold retell_webhook.
    destruct (String.eqb (call_id ev) "" || String.eqb (event_type ev) "");
      [apply pres_raise |].
    destruct (String.eqb (event_type ev) "call.started").
    { unfold on_call_started. apply pres_bind; [apply pres_db_read |]. intros d.
      apply pres_bind.
      - apply pres_when. apply pres_db_do. intros d0. apply filled_ext. reflexivity.
      - intros _. apply pres_bind; [|intros; apply pres_ret].
        apply pres_db_do. intros d0. apply filled_ext.
        unfold update_call_status. destruct (calls d0 !! call_id ev); reflexivity. }
    destruct (String.eqb (event_type ev) "speech" || _ || _).
    { unfold on_speech. apply pres_bind.
      - unfold record_segment. apply pres_on_db_same. intros d.
        unfold append_transcript. destruct (calls d !! call_id ev); reflexivity.
      - intros _. apply pres_bind; [apply pres_refresh_state |]. intros _.
        destruct (String.eqb (event_type ev) "update_only" || _);
          [apply pres_ret | apply pres_noise_guard]. }
    destruct (String.eqb (event_type ev) "call.ended"); [|apply pres_ret].
    apply pres_bind; [apply pres_finish | intros; apply pres_ret]. }
  intros Hw. destruct (retell_webhook ev w) as [w' r] eqn:E. exact (H _ _ _ E Hw).
Qed.

End WebhookInvariant.

Section SlotPolicy.
Import PyStr Re SlotMemory Db Props.

Lemma lower_app (a b : string) : lower (a +:+ b) = lower a +:+ lower b.
Proof. induction a as [|c a IH]; [reflexivity |]. rewrite app_cons. simpl. now rewrite IH, app_cons. Qed.

Lemma lower_char_idem (c : ascii) : lower_char (lower_char c) = lower_char c.
Proof.
  destruct c as [[] [] [] [] [] [] [] []]; vm_compute; reflexivity.
Qed.

Lemma lower_idem (s : string) : lower (lower s) = lower s.
Proof. induction s as [|c s IH]; [reflexivity |]. simpl. now rewrite lower_char_idem, IH. Qed.

Lemma any_in_In (ks : list string) (k t : string) :
  In k ks -> str_in k t = true -> any_in ks t = true.
Proof.
  intros Hin Hk. unfold any_in. apply existsb_exists. exists k. split; assumption.
Qed.

(** The extractor's output is well formed (keys and values). *)
Lemma extract_slots_ok (e : env) (text : string) : slots_ok (extract_slots e text).
Proof.
  unfold extract_slots.
  destruct (String.eqb text ""); [apply slots_ok_empty |].
  destruct (switched_off (SLOT_HEURISTICS_ENABLED e)); [apply slots_ok_empty |].
  cbv zeta.
  assert (H1 : slots_ok (set_if "driver_status" (first_word_in status_words (lower text)) ∅)).
  { apply slots_ok_set_if; [simpl; tauto | | apply slots_ok_empty].
    intros s. apply first_word_in_nonempty, status_words_nonempty. }
  assert (H2 : slots_ok
            (set_if "emergency_type" (first_word_in emergency_type_words (lower text))
               (set_if "driver_status" (first_word_in status_words (lower text)) ∅))).
  { apply slots_ok_set_if; [simpl; tauto | | exact H1].
    intros s. apply first_word_in_nonempty, emergency_type_words_nonempty. }
  apply slots_ok_set_if; [simpl; tauto | intros s; apply eta_of_nonempty |].
  destruct (search loc_re text) as [m|] eqn:Em.
  - pose proof (loc_of_match_nonempty _ _ Em) as Hloc.
    destruct (any_in emergency_context_words (lower text)).
    + repeat apply slots_ok_insert; auto; simpl; tauto.
    + apply slots_ok_insert; auto; simpl; tauto.
  - destruct (any_in emergency_context_words (lower text)); assumption.
Qed.

(** X1 — The follow-up question is about the first missing slot in the
    canonical order.  With templates on, [build_followup_for_missing] applied
    to the result of [get_missing_slots] asks for the driver status when it is
    missing, else for the location, else for the ETA, else for the emergency
    type, else for the emergency location, and only when nothing is missing
    does it give the closing nudge; the catch-all sentence of the function is
    never produced on such an input. *)
Theorem followup_asks_first_missing (e : env) (slots : gmap string (option string)) :
  switched_off (SLOT_TEXT_TEMPLATES_ENABLED e) = false ->
  build_followup_for_missing e (get_missing_slots slots) =
    if is_missing (dget slots "driver_status") then "Got it. What's your current status?"
    else if is_missing (dget slots "current_location") then "Thanks. Where are you right now?"
    else if is_missing (dget slots "eta") then "Noted. What's your ETA?"
    else if is_missing (dget slots "emergency_type")
         then "Understood. What type of emergency is it?"
    else if is_missing (dget slots "emergency_location")
         then "Where exactly is the emergency?"
    else "Thanks. Anything else you want to add?".
Proof.
  intros Hon. unfold build_followup_for_missing, get_missing_slots, SLOT_KEYS.
  rewrite Hon. cbn [List.filter].
  destruct (is_missing (dget slots "driver_status"));
    destruct (is_missing (dget slots "current_location"));
    destruct (is_missing (dget slots "eta"));
    destruct (is_missing (dget slots "emergency_type"));
    destruct (is_missing (dget slots "emergency_location")); reflexivity.
Qed.

Lemma followup_asks_first_missing_witness :
  build_followup_for_missing (Env None None)
    (get_missing_slots (<["driver_status" := Some "Driving"]> (<["eta" := Some "5 pm"]> ∅)))
  = "Thanks. Where are you right now?".
Proof.
  rewrite (followup_asks_first_missing (Env None None) _ eq_refl). reflexivity.
Defined.

(** X2 — What the extractor finds is what the store remembers: after
    [update_slot_memory] with the output of [extract_slots] on any utterance,
    every slot the extractor reported holds exactly the extracted value, that
    value is a non-empty string, and the slot is no longer listed by
    [get_missing_slots]. *)
Theorem extracted_slots_are_stored (e : env) (d : InMemoryDB) (cid text k : string)
    (v : option string) :
  extract_slots e text !! k = Some v ->
  let d' := fst (update_slot_memory d cid (extract_slots e text)) in
  dget (get_slot_memory d' cid) k = v /\
  (exists s, v = Some s /\ s <> "") /\
  ~ In k (get_missing_slots (get_slot_memory d' cid)).
Proof.
  intros Hk d'. subst d'.
  destruct (extract_slots_ok e text k v Hk) as (_ & s & -> & Hs).
  assert (Hv : dget (get_slot_memory (fst (update_slot_memory d cid (extract_slots e text))) cid) k
               = Some s).
  { rewrite get_slot_memory_update_same, dget_merge_updates. unfold dget at 1 3.
    rewrite Hk. simpl. destruct (String.eqb_spec s ""); [contradiction | reflexivity]. }
  split; [exact Hv |]. split; [eauto |].
  unfold get_missing_slots. rewrite filter_In, Hv. simpl.
  intros [_ H]. apply String.eqb_eq in H. contradiction.
Qed.

Lemma extracted_slots_are_stored_witness :
  dget (get_slot_memory
          (fst (update_slot_memory empty_db "c1"
                  (extract_slots (Env None None) "I am driving near Lahar, there by 5 pm")))
          "c1") "current_location" = Some "Lahore".
Proof.
  apply (extracted_slots_are_stored (Env None None) empty_db "c1"
           "I am driving near Lahar, there by 5 pm" "current_location" (Some "Lahore")).
  vm_compute. reflexivity.
Defined.

Lemma find_split {A : Type} (f : A -> bool) (l : list A) :
  match List.find f l with
  | Some x => exists before after,
                l = before ++ x :: after /\ f x = true /\
                forall y, In y before -> f y = false
  | None => forall y, In y l -> f y = false
  end.
Proof.
  induction l as [|x l IH]; simpl; [intros y [] |].
  destruct (f x) eqn:Hx.
  - exists [], l. split; [reflexivity |]. split; [exact Hx | intros y []].
  - destruct (List.find f l) as [z|].
    + destruct IH as (before & after & -> & Hz & Hall).
      exists (x :: before), after. split; [reflexivity |]. split; [exact Hz |].
      intros y [<-|H]; [exact Hx | now apply Hall].
    + intros y [<-|H]; [exact Hx | now apply IH].
Qed.

(** The word reported is the first of the list that occurs in the text. *)
Lemma first_word_in_listed (words : list string) (t s : string) :
  first_word_in words t = Some s ->
  exists before w after,
    words = before ++ w :: after /\ s = capitalize w /\ str_in w t = true /\
    forall u, In u before -> str_in u t = false.
Proof.
  unfold first_word_in.
  pose proof (find_split (fun w => str_in w t) words) as H.
  destruct (List.find _ words) as [w|]; [|discriminate].
  simpl. intros [= <-]. destruct H as (before & after & E & Hw & Hbefore).
  exists before, w, after. auto.
Qed.

(** X3 — The extractor's enumerations.  A [driver_status] it reports is the
    capitalised form of the first word of driving, delayed, arrived,
    dispatched, stopped, waiting, in that order, that occurs in the
    lower-cased utterance, whatever the order of the words in the utterance;
    so it is one of Driving, Delayed, Arrived, Dispatched, Stopped, Waiting.
    An [emergency_type] it reports is in the same way the first word of
    accident, breakdown, medical, fire, other that occurs, so one of
    Accident, Breakdown, Medical, Fire, Other, and it is reported only when
    the utterance contains one of the emergency context words. *)
Theorem extract_slots_enumerations (e : env) (text : string) (v : option string) :
  (extract_slots e text !! "driver_status" = Some v ->
     (exists before w after,
        status_words = before ++ w :: after /\ v = Some (capitalize w) /\
        str_in w (lower text) = true /\
        forall u, In u before -> str_in u (lower text) = false) /\
     In v (map Some ["Driving"; "Delayed"; "Arrived"; "Dispatched"; "Stopped"; "Waiting"]) /\
     any_in status_words (lower text) = true) /\
  (extract_slots e text !! "emergency_type" = Some v ->
     (exists before w after,
        emergency_type_words = before ++ w :: after /\ v = Some (capitalize w) /\
        str_in w (lower text) = true /\
        forall u, In u before -> str_in u (lower text) = false) /\
     In v (map Some ["Accident"; "Breakdown"; "Medical"; "Fire"; "Other"]) /\
     any_in emergency_context_words (lower text) = true).
Proof.
  assert (Hlisted : forall words s,
            first_word_in words (lower text) = Some s ->
            (exists before w after,
               words = before ++ w :: after /\ Some s = Some (capitalize w) /\
               str_in w (lower text) = true /\
               forall u, In u before -> str_in u (lower text) = false) /\
            In s (map capitalize words) /\
            any_in words (lower text) = true).
  { intros words s E.
    apply first_word_in_listed in E as (before & w & after & Ew & -> & Hw & Hbefore).
    assert (Hin : In w words) by (rewrite Ew; apply in_elt).
    split; [exists before, w, after; auto |].
    split; [now apply in_map | exact (any_in_In words w _ Hin Hw)]. }
  unfold extract_slots.
  destruct (String.eqb text ""); [split; rewrite lookup_empty; discriminate |].
  destruct (switched_off (SLOT_HEURISTICS_ENABLED e));
    [split; rewrite lookup_empty; discriminate |].
  cbv zeta. split.
  - rewrite lookup_set_if_ne by discriminate.
    assert (Hrest : forall m : gmap string (option string),
              (match search loc_re text with
               | Some m0 =>
                   if any_in emergency_context_words (lower text)
                   then <["emergency_location" := Some (loc_of_match m0)]>
                          (<["current_location" := Some (loc_of_match m0)]> m)
                   else <["current_location" := Some (loc_of_match m0)]> m
               | None => m
               end) !! "driver_status" = m !! "driver_status").
    { intros m. destruct (search loc_re text); [|reflexivity].
      destruct (any_in emergency_context_words (lower text));
        rewrite ?lookup_insert_ne by discriminate; reflexivity. }
    rewrite Hrest.
    assert (Hst : (if any_in emergency_context_words (lower text)
                   then set_if "emergency_type" (first_word_in emergency_type_words (lower text))
                          (set_if "driver_status" (first_word_in status_words (lower text)) ∅)
                   else set_if "driver_status" (first_word_in status_words (lower text)) ∅)
                  !! "driver_status"
                  = set_if "driver_status" (first_word_in status_words (lower text)) ∅
                      !! "driver_status").
    { destruct (any_in emergency_context_words (lower text));
        rewrite ?lookup_set_if_ne by discriminate; reflexivity. }
    rewrite Hst.
    destruct (first_word_in status_words (lower text)) as [s|] eqn:E; simpl;
      [rewrite lookup_insert_eq | rewrite lookup_empty; discriminate].
    intros [= <-]. destruct (Hlisted _ _ E) as (Hfirst & Hin & Hany).
    split; [exact Hfirst |]. split; [|exact Hany].
    apply (in_map Some) in Hin. exact Hin.
  - rewrite lookup_set_if_ne by discriminate.
    destruct (any_in emergency_context_words (lower text)) eqn:Hctx.
    + assert (Hl : forall m : gmap string (option string),
                (match search loc_re text with
                 | Some m0 => <["emergency_location" := Some (loc_of_match m0)]>
                                (<["current_location" := Some (loc_of_match m0)]> m)
                 | None => m
                 end) !! "emergency_type" = m !! "emergency_type").
      { intros m. destruct (search loc_re text);
          rewrite ?lookup_insert_ne by discriminate; reflexivity. }
      rewrite Hl.
      destruct (first_word_in emergency_type_words (lower text)) as [s|] eqn:E; simpl.
      * rewrite lookup_insert_eq. intros [= <-].
        destruct (Hlisted _ _ E) as (Hfirst & Hin & _).
        split; [exact Hfirst |]. split; [|reflexivity].
        apply (in_map Some) in Hin. exact Hin.
      * rewrite lookup_set_if_ne, lookup_empty by discriminate. discriminate.
    + destruct (search loc_re text);
        rewrite ?lookup_insert_ne, ?lookup_set_if_ne, ?lookup_empty by discriminate;
        discriminate.
Qed.

End SlotPolicy.

Section KeywordScan.
Import PyStr SlotMemory Escalation.

Lemma extract_slots_enumerations_witness :
  (exists before w after,
     status_words = before ++ w :: after /\ Some "Driving" = Some (capitalize w) /\
     str_in w (lower "We ARRIVED after driving all night") = true /\
     forall u, In u before -> str_in u (lower "We ARRIVED after driving all night") = false) /\
  In (Some "Driving")
     (map Some ["Driving"; "Delayed"; "Arrived"; "Dispatched"; "Stopped"; "Waiting"]) /\
  any_in status_words (lower "We ARRIVED after driving all night") = true.
Proof.
  apply (proj1 (extract_slots_enumerations (Env None None)
                  "We ARRIVED after driving all night" (Some "Driving"))).
  vm_compute. reflexivity.
Defined.

(** X4 — The emergency scan is a case-insensitive substring test: an
    utterance is flagged exactly when its lower-cased text contains one of the
    eleven keywords somewhere, word boundaries playing no part; so a keyword
    written in any mix of cases, with anything before and after it, is
    flagged. *)
Theorem emergency_scan_is_substring_test (text : string) :
  (detect_emergency_keywords text = true <->
   exists kw pre post, In kw keywords /\ lower text = pre +:+ kw +:+ post) /\
  (forall pre v post, In (lower v) keywords -> text = pre +:+ v +:+ post ->
     detect_emergency_keywords text = true).
Proof.
  assert (Hiff : detect_emergency_keywords text = true <->
                 exists kw pre post, In kw keywords /\ lower text = pre +:+ kw +:+ post).
  { unfold detect_emergency_keywords, any_in. rewrite existsb_exists. split.
    - intros (kw & Hin & Hk). apply str_in_split in Hk as (pre & post & E). eauto.
    - intros (kw & pre & post & Hin & E). exists kw. split; [exact Hin |].
      rewrite E. apply str_in_app. }
  split; [exact Hiff |].
  intros pre v post Hin ->. apply Hiff.
  exists (lower v), (lower pre), (lower post). split; [exact Hin |].
  now rewrite !lower_app.
Qed.

Lemma emergency_scan_is_substring_test_witness :
  detect_emergency_keywords "The wHite van is parked" = true.
Proof.
  apply (proj2 (emergency_scan_is_substring_test "The wHite van is parked")
           "The w" "Hit" "e van is parked"); [vm_compute; tauto | reflexivity].
Defined.

End KeywordScan.

Section StoreAlgebra.
Import PyStr SlotMemory Db Props.

(** X5 — Replaying an update changes nothing: [update_slot_memory] applied a
    second time with the same updates leaves the slot memory of every call
    exactly as the first application left it, and returns the same merged
    dict. *)
Theorem update_slot_memory_idempotent (d : InMemoryDB) (cid : string)
    (u : gmap string (option string)) :
  let once := update_slot_memory d cid u in
  let twice := update_slot_memory (fst once) cid u in
  snd twice = snd once /\
  forall cid', get_slot_memory (fst twice) cid' = get_slot_memory (fst once) cid'.
Proof.
  intros once twice. subst once twice.
  assert (Hm : merge_updates (merge_updates (get_slot_memory d cid) u) u
               = merge_updates (get_slot_memory d cid) u).
  { apply map_eq. intros k. rewrite !merge_updates_lookup.
    destruct (u !! k) as [v|]; [|reflexivity].
    destruct (is_missing v); reflexivity. }
  assert (Hs : snd (update_slot_memory (fst (update_slot_memory d cid u)) cid u)
               = snd (update_slot_memory d cid u)).
  { unfold update_slot_memory at 1. cbn [snd].
    rewrite get_slot_memory_update_same. exact Hm. }
  split; [exact Hs |].
  intros cid'. destruct (decide (cid = cid')) as [<-|Hne].
  - rewrite (get_slot_memory_update_same (fst (update_slot_memory d cid u))).
    rewrite get_slot_memory_update_same. exact Hm.
  - now rewrite get_slot_memory_update_other.
Qed.

Lemma join_snoc (sep x : string) (xs : list string) :
  join sep (xs ++ [x]) =
  match xs with [] => x | _ => join sep xs +:+ sep +:+ x end.
Proof.
  induction xs as [|y ys IH]; [reflexivity |].
  destruct ys as [|z zs].
  - reflexivity.
  - change (join sep ((y :: z :: zs) ++ [x]))
      with (y +:+ sep +:+ join sep ((z :: zs) ++ [x])).
    rewrite IH.
    change (join sep (y :: z :: zs)) with (y +:+ sep +:+ join sep (z :: zs)).
    now rewrite !append_assoc.
Qed.

(** X6 — The transcript feeds the oracle's context: after [append_transcript]
    on a known call, the call history that [get_call_context] hands out is
    the previous history followed by a space and the new text (or the new text
    alone for the first segment), while the driver name, the load number and
    the prompt template of the context are unchanged; on an unknown call
    [append_transcript] raises, the flat transcript list having already been
    extended and no call having been created. *)
Theorem transcript_feeds_context (d : InMemoryDB) (cid : string) (seg : segment) :
  let d' := fst (append_transcript d cid seg) in
  (forall ctx, get_call_context d cid = Some ctx ->
     snd (append_transcript d cid seg) = Some tt /\
     exists ctx', get_call_context d' cid = Some ctx' /\
       ctx_driver_name ctx' = ctx_driver_name ctx /\
       ctx_load_number ctx' = ctx_load_number ctx /\
       ctx_prompt_template ctx' = ctx_prompt_template ctx /\
       exists texts,
         ctx_call_history ctx = Some (join " " texts) /\
         ctx_call_history ctx' =
           Some (match texts with
                 | [] => seg_text seg
                 | _ => join " " texts +:+ " " +:+ seg_text seg
                 end)) /\
  (get_call_context d cid = None ->
     snd (append_transcript d cid seg) = None /\
     transcripts d' = transcripts d ++ [(cid, seg)] /\
     calls d' = calls d).
Proof.
  intros d'. subst d'. unfold get_call_context, append_transcript.
  destruct (calls d !! cid) as [c|] eqn:Ec; cbn [fst snd].
  - split; [|discriminate]. intros ctx [= <-]. split; [reflexivity |].
    unfold with_calls. cbn [calls agent_configs]. rewrite lookup_insert_eq.
    eexists. split; [reflexivity |]. cbn.
    repeat (split; [reflexivity |]).
    exists (map seg_text (full_transcript c)). split; [reflexivity |].
    rewrite map_app. cbn [map]. now rewrite join_snoc.
  - split; [discriminate |]. intros _. repeat split.
Qed.

Lemma transcript_feeds_context_witness :
  snd (append_transcript Scenarios.one_call "c1"
         (Segment "on my way" "driver" None None)) = Some tt.
Proof.
  apply (proj1 (transcript_feeds_context Scenarios.one_call "c1"
                  (Segment "on my way" "driver" None None))
           (Context (Some "Mike") (Some "L-7") (Some "") (Some ""))).
  vm_compute. reflexivity.
Defined.

End StoreAlgebra.

Section Summaries.
Import PyStr SlotMemory Db Eff Oracle Processor Props Views.
Context `{X : Collaborators}.

Lemma with_slots_get (s : summary) (slots : gmap string (option string)) (k v : string) :
  In k SLOT_KEYS -> dget slots k = Some v -> summary_get (with_slots s slots) k = Some v.
Proof.
  intros Hk Hv. simpl in Hk.
  decompose [or] Hk; subst; try contradiction; unfold summary_get, with_slots; simpl;
    rewrite Hv; reflexivity.
Qed.

Lemma overlay_get (s : summary) (slots : gmap string (option string)) (k v : string) :
  In k SLOT_KEYS -> dget slots k = Some v ->
  summary_get (if dict_truthy slots then with_slots s slots else s) k = Some v.
Proof.
  intros Hk Hv. destruct (dict_truthy slots) eqn:Ht; [now apply with_slots_get |].
  exfalso. unfold dict_truthy in Ht. apply negb_false_iff, Nat.eqb_eq in Ht.
  apply map_size_empty_iff in Ht. subst slots. unfold dget in Hv.
  rewrite lookup_empty in Hv. discriminate.
Qed.

Lemma overlay_outcome (s : summary) (slots : gmap string (option string)) :
  call_outcome (if dict_truthy slots then with_slots s slots else s) = call_outcome s /\
  escalation_status (if dict_truthy slots then with_slots s slots else s) = escalation_status s /\
  extraction_notes (if dict_truthy slots then with_slots s slots else s) = extraction_notes s.
Proof. destruct (dict_truthy slots); repeat split. Qed.

(** The outcomes of the summarisation hand-off, case by case. *)
Lemma process_result (d : InMemoryDB) (cid : string) (c : call)
    (info : option (gmap string (option string))) (noisy no_response : bool) :
  calls d !! cid = Some c ->
  exists d' r,
    process_transcript_and_store cid info noisy no_response d = (d', r) /\
    (r = Raised ->
       d' = d /\ noisy = false /\ no_response = false /\
       summarize (join newline (map segment_line (full_transcript c))) = None) /\
    (r = Ok tt ->
       exists s c',
         summaries d' !! cid = Some s /\
         calls d' !! cid = Some c' /\
         structured_summary c' = Some s /\
         status c' = "processed" /\
         full_transcript c' = full_transcript c /\
         (forall k v, In k SLOT_KEYS -> dget (get_slot_memory d cid) k = Some v ->
                      summary_get s k = Some v) /\
         (noisy = true -> call_outcome s = Some "Unknown") /\
         (noisy = false -> no_response = true -> call_outcome s = Some "No Response") /\
         (noisy = false -> no_response = false ->
          forall i, info = Some i -> dict_truthy i = true ->
            call_outcome s = Some "Emergency Detected" /\
            escalation_status s = Some "Escalation Flagged")).
Proof.
  intros Hc. unfold process_transcript_and_store.
  unfold Eff.bind at 1. unfold get at 1. unfold get_call. rewrite Hc.
  set (tt_text := join newline (map segment_line (full_transcript c))).
  set (slots := get_slot_memory d cid).
  assert (Hsave : forall s0, exists d',
             (let (d1, r) := save_summary d cid
                               (if dict_truthy slots then with_slots s0 slots else s0) in
              (d1, match r with Some _ => Ok tt | None => Raised end)) = (d', Ok tt) /\
             exists s c',
               summaries d' !! cid = Some s /\
               calls d' !! cid = Some c' /\
               structured_summary c' = Some s /\
               status c' = "processed" /\
               full_transcript c' = full_transcript c /\
               (forall k v, In k SLOT_KEYS -> dget slots k = Some v ->
                            summary_get s k = Some v) /\
               call_outcome s = call_outcome s0 /\
               escalation_status s = escalation_status s0).
  { intros s0. unfold save_summary. rewrite Hc. eexists. split; [reflexivity |].
    eexists _, _. split; [simpl; apply lookup_insert_eq |].
    split; [simpl; apply lookup_insert_eq |].
    split; [reflexivity |]. split; [reflexivity |]. split; [reflexivity |].
    split; [intros k v; apply overlay_get |].
    split; apply overlay_outcome. }
  destruct noisy.
  { destruct (Hsave noisy_summary) as (d' & E & s & c' & H1 & H2 & H3 & H4 & H5 & H6 & H7 & H8).
    exists d', (Ok tt). split; [exact E |]. split; [discriminate |]. intros _.
    exists s, c'. repeat (split; [assumption |]).
    split; [intros _; rewrite H7; reflexivity |]. split; discriminate. }
  destruct no_response.
  { destruct (Hsave no_response_summary)
      as (d' & E & s & c' & H1 & H2 & H3 & H4 & H5 & H6 & H7 & H8).
    exists d', (Ok tt). split; [exact E |]. split; [discriminate |]. intros _.
    exists s, c'. repeat (split; [assumption |]).
    split; [discriminate |]. split; [intros _ _; rewrite H7; reflexivity | discriminate]. }
  unfold Eff.bind, of_option, ret, raise. fold tt_text.
  destruct (summarize tt_text) as [s0|] eqn:Es.
  - match goal with
    | |- context [save_summary d cid (if dict_truthy slots then with_slots ?s1 slots else ?s1)] =>
        destruct (Hsave s1) as (d' & E & s & c' & H1 & H2 & H3 & H4 & H5 & H6 & H7 & H8)
    end.
    exists d', (Ok tt). split; [exact E |]. split; [discriminate |]. intros _.
    exists s, c'. repeat (split; [assumption |]).
    split; [discriminate |]. split; [discriminate |].
    intros _ _ i -> Hi. rewrite H7, H8, Hi. split; reflexivity.
  - exists d, Raised. split; [reflexivity |]. split; [|discriminate].
    intros _. repeat split.
Qed.

(** X7 — What summarisation files.  For a call the store knows,
    [process_transcript_and_store] either raises, which happens only when a
    summary is requested from the oracle and all its attempts fail, and then
    the store is exactly as before; or it returns, and then one summary is
    filed under the call and attached to the call, whose status becomes
    "processed" and whose transcript is kept; every slot of the call's slot
    memory that is not [None] overrides the corresponding field of the
    summary; the outcome is "Unknown" on the noisy path, "No Response" on the
    no-response path, and "Emergency Detected" with the escalation flag when
    a non-empty emergency record is passed on the ordinary path. *)
Theorem process_outcomes (d : InMemoryDB) (cid : string) (c : call)
    (info : option (gmap string (option string))) (noisy no_response : bool) :
  calls d !! cid = Some c ->
  exists d' r,
    process_transcript_and_store cid info noisy no_response d = (d', r) /\
    (r = Raised ->
       d' = d /\ noisy = false /\ no_response = false /\
       summarize (join newline (map segment_line (full_transcript c))) = None) /\
    (r = Ok tt ->
       exists s c',
         summaries d' !! cid = Some s /\
         calls d' !! cid = Some c' /\
         structured_summary c' = Some s /\
         status c' = "processed" /\
         full_transcript c' = full_transcript c /\
         (forall k v, In k SLOT_KEYS -> dget (get_slot_memory d cid) k = Some v ->
                      summary_get s k = Some v) /\
         (noisy = true -> call_outcome s = Some "Unknown") /\
         (noisy = false -> no_response = true -> call_outcome s = Some "No Response") /\
         (noisy = false -> no_response = false ->
          forall i, info = Some i -> dict_truthy i = true ->
            call_outcome s = Some "Emergency Detected" /\
            escalation_status s = Some "Escalation Flagged")).
Proof. exact (process_result d cid c info noisy no_response). Qed.


Lemma process_guarded (cid : string) (info : option (gmap string (option string)))
    (noisy no_response : bool) (d : InMemoryDB) :
  noisy || no_response = true ->
  process_transcript_and_store cid info noisy no_response d =
  match calls d !! cid with
  | None => (d, Ok tt)
  | Some c =>
      let s := if noisy then noisy_summary else no_response_summary in
      let slots := get_slot_memory d cid in
      (fst (save_summary d cid (if dict_truthy slots then with_slots s slots else s)), Ok tt)
  end.
Proof.
  intros Hg. unfold process_transcript_and_store.
  unfold Eff.bind at 1. unfold get at 1. unfold get_call.
  destruct (calls d !! cid) as [c|] eqn:Hc; [|reflexivity].
  destruct noisy; [| destruct no_response; [|discriminate]];
    unfold Eff.bind, ret, save_summary; rewrite Hc; reflexivity.
Qed.

End Summaries.

Section GuardSummaries.
Import PyStr SlotMemory Db Eff Oracle Processor Props Views.

(** X8 — The guard closures never consult the oracle: on the noisy and the
    no-response paths [process_transcript_and_store] returns without raising
    and its effect on the store is the same whatever the oracle, the speech
    service, the clock and the environment are; an emergency record passed
    along is ignored there, and a call the store does not know leaves the
    store untouched. *)
Theorem guard_summaries_skip_oracle (X Y : Collaborators) (d : InMemoryDB) (cid : string)
    (info info' : option (gmap string (option string))) (noisy no_response : bool) :
  noisy || no_response = true ->
  process_transcript_and_store (X := X) cid info noisy no_response d
    = process_transcript_and_store (X := Y) cid info' noisy no_response d /\
  snd (process_transcript_and_store (X := X) cid info noisy no_response d) = Ok tt /\
  (calls d !! cid = None ->
   fst (process_transcript_and_store (X := X) cid info noisy no_response d) = d).
Proof.
  intros Hg.
  rewrite (process_guarded (X := X) cid info noisy no_response d Hg).
  rewrite (process_guarded (X := Y) cid info' noisy no_response d Hg).
  destruct (calls d !! cid); repeat split; discriminate.
Qed.

Lemma process_outcomes_witness :
  exists d' r,
    process_transcript_and_store (X := Scenarios.offline) "c1" None false false
      Scenarios.core_filled = (d', r).
Proof.
  destruct (process_outcomes (X := Scenarios.offline) Scenarios.core_filled "c1"
              Scenarios.a_call None false false eq_refl) as (d' & r & E & _).
  exists d', r. exact E.
Defined.

Lemma guard_summaries_skip_oracle_witness :
  snd (process_transcript_and_store (X := Scenarios.outage) "c1" None true false
         Scenarios.one_call) = Ok tt.
Proof.
  apply (guard_summaries_skip_oracle Scenarios.outage Scenarios.offline Scenarios.one_call
           "c1" None None true false eq_refl).
Defined.

End GuardSummaries.

Section WebhookGuards.
Import PyStr SlotMemory Escalation Db Eff Oracle Processor Webhook Props Views.
Context `{X : Collaborators}.

Lemma speak_ok (cid t : string) (w : world) :
  speak_fails cid t = false ->
  speak cid t w = (World (w_db w) (w_spoken w ++ [(cid, t)]), Ok tt).
Proof. intros H. rewrite speak_spec, H. reflexivity. Qed.

(** A speech turn that is not update-only reaches the guards with the
    segment stored and the slot memory refreshed. *)
Lemma speech_reaches_guards (ev : event) (w : world) (c : call) :
  event_type ev = "speech" \/ event_type ev = "transcript_update" ->
  interaction_type ev <> Some "update_only" ->
  call_id ev <> "" ->
  calls (w_db w) !! call_id ev = Some c ->
  exists w2 c2,
    retell_webhook ev w = noise_guard ev w2 /\
    w_spoken w2 = w_spoken w /\
    noisy_counter (w_db w2) = noisy_counter (w_db w) /\
    short_counter (w_db w2) = short_counter (w_db w) /\
    calls (w_db w2) !! call_id ev = Some c2 /\
    status c2 = status c /\
    call_escalation_status c2 = call_escalation_status c.
Proof.
  intros Hty Hint Hcid Hc.
  destruct (prelude_spec ev w c Hc)
    as (w2 & c2 & Epre & Hsp2 & Hn2 & Hsh2 & Hc2 & Hst2 & Hesc2 & _).
  exists w2, c2. split; [|auto 10].
  rewrite (dispatch_speech ev w Hty Hcid). unfold on_speech.
  change (record_segment ev ;; refresh_state ev ;; ?k)
    with (record_segment ev ;; (refresh_state ev ;; k)).
  pose proof Epre as Epre'. unfold Eff.bind in Epre'.
  unfold Eff.bind at 1.
  destruct (record_segment ev w) as [w1 [[]|]]; [|discriminate].
  unfold Eff.bind at 1.
  destruct (refresh_state ev w1) as [w2' [[]|]]; [|discriminate].
  injection Epre' as ->.
  assert (Hu : String.eqb (event_type ev) "update_only"
               || bool_decide (interaction_type ev = Some "update_only") = false).
  { apply orb_false_iff. split.
    - destruct Hty as [-> | ->]; reflexivity.
    - now apply bool_decide_eq_false. }
  now rewrite Hu.
Qed.

(** [finish] on the noisy and the no-response paths: it returns, and the
    call is processed with the fixed outcome. *)
Lemma finish_guarded (w : world) (cid : string) (c : call)
    (info : option (gmap string (option string))) (noisy no_response : bool) :
  calls (w_db w) !! cid = Some c ->
  noisy || no_response = true ->
  exists w' c' s,
    finish cid info noisy no_response w = (w', Ok tt) /\
    w_spoken w' = w_spoken w /\
    undisturbed (w_db w) (w_db w') /\
    calls (w_db w') !! cid = Some c' /\
    status c' = "processed" /\
    call_escalation_status c' = call_escalation_status c /\
    structured_summary c' = Some s /\
    summaries (w_db w') !! cid = Some s /\
    call_outcome s = Some (if noisy then "Unknown" else "No Response").
Proof.
  intros Hc Hg. unfold finish, db_do, on_db, modify.
  unfold Eff.bind at 1. cbn [w_db w_spoken].
  set (d1 := update_call_status (w_db w) cid "completed").
  assert (Hc1 : calls d1 !! cid = Some (with_status c "completed")).
  { subst d1. unfold update_call_status. rewrite Hc. simpl. apply lookup_insert_eq. }
  assert (Hm1 : undisturbed (w_db w) d1).
  { subst d1. unfold update_call_status. rewrite Hc. repeat split. }
  destruct (process_spec d1 cid _ info noisy no_response Hc1)
    as (d' & r & E & Hm & Hcase).
  destruct (process_result d1 cid _ info noisy no_response Hc1)
    as (d'' & r' & E' & Hraised & Hok).
  rewrite E in E'. injection E' as <- <-.
  destruct r as [[]|].
  2:{ destruct (Hraised eq_refl) as (_ & Hn & Hr & _). rewrite Hn, Hr in Hg. discriminate. }
  destruct (Hok eq_refl) as (s & c' & Hs & Hc' & Hss & Hst & _ & _ & Hno & Hnr & _).
  destruct Hcase as [[Hr _]|(_ & c'' & Hc'' & _ & Hesc)]; [discriminate |].
  rewrite Hc' in Hc''. injection Hc'' as <-.
  rewrite E. exists (World d' (w_spoken w)), c', s. cbn [w_db w_spoken].
  split; [reflexivity |]. split; [reflexivity |].
  split; [exact (undisturbed_trans _ _ _ Hm1 Hm) |].
  repeat (split; [assumption |]).
  destruct noisy; [now apply Hno |]. destruct no_response; [now apply Hnr | discriminate].
Qed.

(** X9 — The noise guard.  A speech turn of a known call whose confidence is
    below one half or whose text contains "[inaudible]" only counts as noise:
    the call's noise counter goes up by one; while fewer than two such turns
    were counted before, the driver is asked to repeat and the call's status
    stays as it was; from the third noisy turn on the hand-off sentence is
    spoken and the call is closed as processed with a summary whose outcome
    is "Unknown".  Nothing else is said, the escalation flag and the
    short-utterance counter are untouched, whatever the text contains. *)
Theorem noise_escalation (ev : event) (w : world) (c : call) :
  event_type ev = "speech" \/ event_type ev = "transcript_update" ->
  interaction_type ev <> Some "update_only" ->
  call_id ev <> "" ->
  calls (w_db w) !! call_id ev = Some c ->
  (forall t, speak_fails (call_id ev) t = false) ->
  is_noisy (confidence ev) (speech_text ev) = true ->
  let cid := call_id ev in
  let n := default 0%nat (noisy_counter (w_db w) !! cid) in
  exists w' c',
    retell_webhook ev w = (w', Ok (if (n <? 2)%nat then RespContinued else RespEnded)) /\
    noisy_counter (w_db w') !! cid = Some (n + 1)%nat /\
    short_counter (w_db w') = short_counter (w_db w) /\
    w_spoken w' = w_spoken w ++
      [(cid, if (n <? 2)%nat then "I didn't catch that, could you please repeat?"
             else "I am having trouble hearing you, please wait for a human dispatcher to call.")] /\
    calls (w_db w') !! cid = Some c' /\
    call_escalation_status c' = call_escalation_status c /\
    (if (n <? 2)%nat then status c' = status c
     else status c' = "processed" /\
          exists s, structured_summary c' = Some s /\ call_outcome s = Some "Unknown").
Proof.
  intros Hty Hint Hcid Hc Hspeak Hnoisy cid n.
  destruct (speech_reaches_guards ev w c Hty Hint Hcid Hc)
    as (w2 & c2 & -> & Hsp2 & Hn2 & Hsh2 & Hc2 & Hst2 & Hesc2).
  unfold noise_guard. rewrite Hnoisy. fold cid.
  unfold on_db, increment_noisy_counter. unfold Eff.bind at 1. cbn [w_db w_spoken].
  rewrite Hn2. fold cid. fold n.
  set (d3 := MkDb _ _ _ _ _ _ _ _).
  assert (Hc3 : calls d3 !! cid = Some c2) by exact Hc2.
  assert (Hcnt : noisy_counter d3 !! cid = Some (n + 1)%nat) by (simpl; apply lookup_insert_eq).
  assert (Hle : (n + 1 <=? 2)%nat = (n <? 2)%nat).
  { destruct (Nat.ltb_spec n 2); [apply Nat.leb_le | apply Nat.leb_gt]; lia. }
  rewrite Hle. destruct (n <? 2)%nat.
  - rewrite (bind_ok _ _ _ _ _ (speak_ok cid _ _ (Hspeak _))).
    eexists _, c2. split; [reflexivity |]. cbn [w_db w_spoken].
    rewrite Hsp2. repeat split; auto.
  - rewrite (bind_ok _ _ _ _ _ (speak_ok cid _ _ (Hspeak _))).
    match goal with
    | |- context [finish cid None true false] =>
        destruct (finish_guarded (World d3 (w_spoken w2 ++
                   [(cid, "I am having trouble hearing you, please wait for a human dispatcher to call.")]))
                   cid c2 None true false Hc3 eq_refl)
          as (w' & c' & s & Ef & Hsp' & (Hmem & Hnc & Hsc) & Hc' & Hst' & Hesc' & Hss & _ & Hout)
    end.
    rewrite (bind_ok _ _ _ _ _ Ef).
    exists w', c'. split; [reflexivity |]. cbn [w_db w_spoken] in *.
    split; [now rewrite Hnc |]. split; [now rewrite Hsc |].
    split; [now rewrite Hsp', Hsp2 |]. split; [exact Hc' |].
    split; [congruence |]. split; [exact Hst' | eauto].
Qed.

End WebhookGuards.

(** ** The footprint of a webhook event *)

Section WebhookFootprint.
Import PyStr SlotMemory Escalation Db Eff Oracle Processor Webhook Props Trace.
Context `{X : Collaborators}.
Variables (cid : string) (w0 : world).

(** Reached from [w0] by store operations for [cid] and by speaking to [cid]. *)
Let reach (w : world) : Prop :=
  rtc (db_step cid) (w_db w0) (w_db w) /\
  exists said, w_spoken w = w_spoken w0 ++ said /\ Forall (fun p => fst p = cid) said.

Lemma reach_db_do (g : InMemoryDB -> InMemoryDB) :
  (forall d, rtc (db_step cid) d (g d)) -> preserves reach (db_do g).
Proof.
  intros Hg w w' r [= <- _] [Hr Hs]. split; [|exact Hs].
  simpl. eapply rtc_trans; [exact Hr | apply Hg].
Qed.

Lemma reach_db_read {A : Type} (f : InMemoryDB -> A) : preserves reach (db_read f).
Proof. intros w w' r [= <- _] H. exact H. Qed.

Lemma reach_on_db {A : Type} (m : M InMemoryDB A) :
  (forall d, rtc (db_step cid) d (fst (m d))) -> preserves reach (on_db m).
Proof.
  intros Hm w w' r. unfold on_db. specialize (Hm (w_db w)).
  destruct (m (w_db w)) as [d' r']. intros [= <- _] [Hr Hs]. split; [|exact Hs].
  simpl in *. eapply rtc_trans; eassumption.
Qed.

Lemma reach_speak (t : string) : preserves reach (speak cid t).
Proof.
  intros w w' r. rewrite speak_spec.
  destruct (speak_fails cid t); intros [= <- _] [Hr (said & Hs & Hall)]; [split; eauto |].
  split; [exact Hr |]. exists (said ++ [(cid, t)]). simpl. split.
  - now rewrite Hs, <- app_assoc.
  - apply Forall_app. split; [exact Hall | repeat constructor].
Qed.

Lemma process_steps (info : option (gmap string (option string)))
    (noisy no_response : bool) (d : InMemoryDB) :
  rtc (db_step cid) d (fst (process_transcript_and_store cid info noisy no_response d)).
Proof.
  unfold process_transcript_and_store.
  unfold Eff.bind at 1. unfold get at 1.
  destruct (get_call d cid) as [c|]; [|apply rtc_refl].
  unfold Eff.bind.
  match goal with
  | |- context [match ?m d with _ => _ end] => assert (Hm : fst (m d) = d)
  end.
  { destruct noisy; [reflexivity |]. destruct no_response; [reflexivity |].
    unfold of_option. destruct (summarize _); reflexivity. }
  match goal with
  | |- context [match ?m d with _ => _ end] => destruct (m d) as [d1 [s|]]
  end; simpl in Hm; subst d1; [|apply rtc_refl].
  match goal with
  | |- context [save_summary d cid ?s'] =>
      pose proof (step_summary cid d s') as Hst; destruct (save_summary d cid s') as [d2 r2]
  end.
  simpl in *. now apply rtc_once.
Qed.

Lemma reach_finish (info : option (gmap string (option string))) (noisy no_response : bool) :
  preserves reach (finish cid info noisy no_response).
Proof.
  unfold finish. apply pres_bind.
  - apply reach_db_do. intros d. apply rtc_once, step_status.
  - intros _. apply reach_on_db. intros d. apply process_steps.
Qed.

Lemma reach_flag : preserves reach (flag cid).
Proof.
  apply reach_on_db. intros d.
  destruct (flag_escalation d cid) as [d'|] eqn:E; simpl; [|apply rtc_refl].
  now apply rtc_once, step_flag.
Qed.

Lemma reach_ask_oracle (t : string) : preserves reach (ask_oracle cid t).
Proof.
  unfold ask_oracle. apply pres_bind; [|intros; apply pres_of_option].
  apply pres_bind; [apply reach_db_read | intros; apply pres_of_option].
Qed.

End WebhookFootprint.

Section WebhookFootprintWalk.
Import PyStr SlotMemory Escalation Db Eff Oracle Processor Webhook Props Trace.
Context `{X : Collaborators}.
Variables (ev : event) (w0 : world).

Let cid : string := call_id ev.

Let reach (w : world) : Prop :=
  rtc (db_step cid) (w_db w0) (w_db w) /\
  exists said, w_spoken w = w_spoken w0 ++ said /\ Forall (fun p => fst p = cid) said.

Lemma reach_refresh_state : preserves reach (refresh_state ev).
Proof.
  unfold refresh_state. apply pres_when. apply pres_bind.
  - apply pres_when. apply reach_db_do. intros d. apply rtc_once, step_slots.
  - intros _. apply pres_bind; [apply reach_db_read |]. intros st.
    destruct (last_prompted_slot st); [|apply pres_ret].
    apply pres_when. apply reach_db_do. intros d. apply rtc_once, step_conv.
Qed.

Lemma reach_llm_fallback : preserves reach (llm_fallback ev).
Proof.
  unfold llm_fallback. apply pres_bind; [apply reach_ask_oracle |]. intros dec.
  apply pres_bind; [apply reach_speak |]. intros _.
  apply pres_bind; [|intros; apply pres_ret].
  apply pres_when. apply pres_bind; [apply pres_when, reach_flag | intros; apply reach_finish].
Qed.

Lemma reach_slot_driven : preserves reach (Webhook.slot_driven ev).
Proof.
  unfold Webhook.slot_driven. apply pres_bind; [apply reach_db_read |]. intros slots.
  destruct (says_goodbye (speech_text ev)).
  { apply pres_bind; [apply reach_speak |]. intros _.
    apply pres_bind; [apply reach_finish | intros; apply pres_ret]. }
  destruct (get_missing_slots slots) as [|next rest].
  - apply pres_bind.
    { destruct (String.eqb _ ""); [|apply pres_ret].
      apply pres_bind; [apply reach_ask_oracle | intros; apply pres_ret]. }
    intros t. apply pres_bind; [apply reach_speak |]. intros _.
    apply pres_bind; [apply reach_finish | intros; apply pres_ret].
  - apply pres_bind; [apply reach_db_read |]. intros st.
    apply pres_bind.
    { destruct (String.eqb _ ""); [|apply pres_ret].
      apply pres_bind; [apply reach_ask_oracle | intros; apply pres_ret]. }
    intros p. apply pres_bind; [apply reach_speak |]. intros _.
    apply pres_bind; [|intros; apply pres_ret].
    apply reach_db_do. intros d. apply rtc_once, step_conv.
Qed.

Lemma reach_reply : preserves reach (reply ev).
Proof.
  unfold reply. destruct (detect_emergency_keywords (speech_text ev)).
  - unfold emergency_path.
    apply pres_bind; [apply pres_of_option |]. intros resp.
    apply pres_bind; [apply pres_of_option |]. intros t.
    apply pres_bind; [apply reach_speak |]. intros _.
    apply pres_bind; [apply reach_flag |]. intros _.
    apply pres_bind; [apply reach_finish | intros; apply pres_ret].
  - apply pres_try_except; [apply reach_slot_driven | apply reach_llm_fallback].
Qed.

Lemma reach_noise_guard : preserves reach (noise_guard ev).
Proof.
  assert (Hshort : preserves reach (short_guard ev)).
  { unfold short_guard. destruct (String.eqb (speaker ev) "driver" && _); [|apply reach_reply].
    apply pres_bind.
    { apply reach_on_db. intros d. apply rtc_once, step_short. }
    intros n. destruct (Nat.eqb n 1 || Nat.eqb n 2).
    { apply pres_bind; [apply reach_speak | intros; apply pres_ret]. }
    destruct (3 <=? n)%nat; [|apply reach_reply].
    apply pres_bind; [apply reach_speak |]. intros _.
    apply pres_bind; [apply reach_finish | intros; apply pres_ret]. }
  unfold noise_guard. destruct (is_noisy (confidence ev) (speech_text ev)); [|exact Hshort].
  apply pres_bind.
  { apply reach_on_db. intros d. apply rtc_once, step_noisy. }
  intros n. destruct (n <=? 2)%nat.
  { apply pres_bind; [apply reach_speak | intros; apply pres_ret]. }
  apply pres_bind; [apply reach_speak |]. intros _.
  apply pres_bind; [apply reach_finish | intros; apply pres_ret].
Qed.

(** After the segment is recorded, the rest of a speech turn only performs
    store operations for the event's call and only speaks to that call. *)
Lemma reach_after_recording :
  preserves reach
    (refresh_state ev ;;
     if String.eqb (event_type ev) "update_only"
        || bool_decide (interaction_type ev = Some "update_only")
     then ret RespUpdated
     else noise_guard ev).
Proof.
  apply pres_bind; [apply reach_refresh_state |]. intros _.
  destruct (String.eqb (event_type ev) "update_only" || _);
    [apply pres_ret | apply reach_noise_guard].
Qed.

End WebhookFootprintWalk.

Section WebhookFootprintWhole.
Import PyStr SlotMemory Escalation Db Eff Oracle Processor Webhook Props Trace.
Context `{X : Collaborators}.

(** The footprint of one event for a call the store knows: the segment of a
    speech turn is recorded first, and everything after it is a sequence of
    store operations for that call and of utterances spoken to that call. *)
Lemma webhook_footprint (ev : event) (w : world) (c : call) :
  calls (w_db w) !! call_id ev = Some c ->
  let cid := call_id ev in
  let seg := Segment (speech_text ev) (speaker ev) (timestamp ev) (confidence ev) in
  let recorded :=
    negb (String.eqb cid "" || String.eqb (event_type ev) "")
    && (String.eqb (event_type ev) "speech" || String.eqb (event_type ev) "update_only"
        || String.eqb (event_type ev) "transcript_update") in
  let w' := fst (retell_webhook ev w) in
  rtc (db_step cid)
      (if recorded then fst (append_transcript (w_db w) cid seg) else w_db w)
      (w_db w') /\
  exists said, w_spoken w' = w_spoken w ++ said /\ Forall (fun p => fst p = cid) said.
Proof.
  intros Hc cid seg recorded w'. subst w' recorded seg cid.
  set (cid := call_id ev) in *.
  set (seg := Segment (speech_text ev) (speaker ev) (timestamp ev) (confidence ev)).
  assert (Hrefl : forall v : world,
            rtc (db_step cid) (w_db v) (w_db v) /\
            exists said, w_spoken v = w_spoken v ++ said /\ Forall (fun p => fst p = cid) said).
  { intros v. split; [apply rtc_refl |]. exists []. now rewrite app_nil_r. }
  unfold retell_webhook. fold cid.
  destruct (String.eqb cid "" || String.eqb (event_type ev) ""); [apply Hrefl |].
  cbn [negb andb].
  destruct (String.eqb (event_type ev) "call.started") eqn:Es.
  { apply String.eqb_eq in Es. rewrite Es. cbn [String.eqb Ascii.eqb orb].
    replace (String.eqb "call.started" "speech" || String.eqb "call.started" "update_only"
             || String.eqb "call.started" "transcript_update") with false by reflexivity.
    unfold on_call_started, db_read, db_do, on_db, get, ret, modify.
    unfold Eff.bind. cbn [w_db w_spoken fst snd]. fold cid. unfold get_call. rewrite Hc.
    rewrite bool_decide_eq_true_2 by eauto. cbn [negb when ret fst w_db w_spoken].
    split; [apply rtc_once, step_status |]. exists []. split; [now rewrite app_nil_r | constructor]. }
  destruct (String.eqb (event_type ev) "speech" || String.eqb (event_type ev) "update_only"
            || String.eqb (event_type ev) "transcript_update").
  { unfold on_speech.
    change (record_segment ev ;; refresh_state ev ;; ?k)
      with (record_segment ev ;; (refresh_state ev ;; k)).
    assert (Hrec : record_segment ev w
                   = (World (fst (append_transcript (w_db w) cid seg)) (w_spoken w), Ok tt)).
    { unfold record_segment, on_db, append_transcript. fold cid. rewrite Hc. reflexivity. }
    rewrite (bind_ok _ _ _ _ _ Hrec).
    set (w1 := World (fst (append_transcript (w_db w) cid seg)) (w_spoken w)).
    match goal with
    | |- context [fst (?m w1)] =>
        pose proof (reach_after_recording ev w1 w1 (fst (m w1)) (snd (m w1))) as H
    end.
    exact (H (surjective_pairing _) (Hrefl w1)). }
  destruct (String.eqb (event_type ev) "call.ended"); [|apply Hrefl].
  assert (Hf : preserves
                 (fun v => rtc (db_step cid) (w_db w) (w_db v) /\
                           exists said, w_spoken v = w_spoken w ++ said /\
                                        Forall (fun p => fst p = cid) said)
                 (finish cid None false false ;; ret RespOk)).
  { apply pres_bind; [apply reach_finish | intros; apply pres_ret]. }
  destruct ((finish cid None false false ;; ret RespOk) w) as [w' r] eqn:E.
  exact (Hf _ _ _ E (Hrefl w)).
Qed.

End WebhookFootprintWhole.

Section Frames.
Import PyStr SlotMemory Escalation Db Eff Oracle Processor Webhook Props Trace.

Lemma same_identity_refl (c : call) : same_identity c c.
Proof. repeat split. Qed.

Lemma framed_refl (cid : string) (d : InMemoryDB) : framed cid d d.
Proof.
  repeat split. intros c Hc. exists c. split; [exact Hc |].
  split; [reflexivity |]. split; [apply same_identity_refl | auto].
Qed.

Lemma framed_trans (cid : string) (d1 d2 d3 : InMemoryDB) :
  framed cid d1 d2 -> framed cid d2 d3 -> framed cid d1 d3.
Proof.
  intros (Ha & Ht & Ho & Hc) (Ha' & Ht' & Ho' & Hc').
  split; [congruence |]. split; [congruence |]. split.
  - intros k Hk. destruct (Ho k Hk) as (A1 & A2 & A3 & A4 & A5 & A6).
    destruct (Ho' k Hk) as (B1 & B2 & B3 & B4 & B5 & B6).
    repeat split; congruence.
  - intros c Hcc. destruct (Hc c Hcc) as (c2 & H2 & Hf2 & (I1 & I2 & I3 & I4) & He2).
    destruct (Hc' c2 H2) as (c3 & H3 & Hf3 & (J1 & J2 & J3 & J4) & He3).
    exists c3. split; [exact H3 |]. split; [congruence |].
    split; [repeat split; congruence | auto].
Qed.

Lemma db_step_framed (cid : string) (d d' : InMemoryDB) :
  db_step cid d d' -> framed cid d d'.
Proof.
  intros H. destruct H as [d s|d u|d u|d|d|d d' Hf|d s].
  - unfold update_call_status. destruct (calls d !! cid) as [c|] eqn:Hc; [|apply framed_refl].
    repeat split; simpl; try (now rewrite lookup_insert_ne by congruence).
    intros c0 Hc0. rewrite Hc in Hc0. injection Hc0 as <-.
    eexists. split; [apply lookup_insert_eq |]. repeat split. auto.
  - repeat split; simpl; try (now rewrite lookup_insert_ne by congruence).
    intros c Hc. exists c. repeat split; auto.
  - repeat split; simpl; try (now rewrite lookup_insert_ne by congruence).
    intros c Hc. exists c. repeat split; auto.
  - repeat split; simpl; try (now rewrite lookup_insert_ne by congruence).
    intros c Hc. exists c. repeat split; auto.
  - repeat split; simpl; try (now rewrite lookup_insert_ne by congruence).
    intros c Hc. exists c. repeat split; auto.
  - unfold flag_escalation in Hf. destruct (calls d !! cid) as [c|] eqn:Hc; [|discriminate].
    injection Hf as <-.
    repeat split; simpl; try (now rewrite lookup_insert_ne by congruence).
    intros c0 Hc0. rewrite Hc in Hc0. injection Hc0 as <-.
    eexists. split; [apply lookup_insert_eq |]. repeat split.
  - unfold save_summary. destruct (calls d !! cid) as [c|] eqn:Hc; cbn [fst].
    + repeat split; simpl; try (now rewrite lookup_insert_ne by congruence).
      intros c0 Hc0. rewrite Hc in Hc0. injection Hc0 as <-.
      eexists. split; [apply lookup_insert_eq |]. repeat split. auto.
    + repeat split; simpl; try (now rewrite lookup_insert_ne by congruence).
      intros c0 Hc0. rewrite Hc in Hc0. discriminate.
Qed.

Lemma rtc_db_step_framed (cid : string) (d d' : InMemoryDB) :
  rtc (db_step cid) d d' -> framed cid d d'.
Proof.
  induction 1 as [d|d1 d2 d3 Hs _ IH]; [apply framed_refl |].
  eapply framed_trans; [apply db_step_framed, Hs | exact IH].
Qed.

End Frames.

Section WebhookFrame.
Import PyStr SlotMemory Escalation Db Eff Oracle Processor Webhook Props Trace.
Context `{X : Collaborators}.

(** X10 — An event touches only its own call.  For an event whose call the
    store knows, whatever the handler does and whether it returns or raises:
    every utterance it hands to the speech service is addressed to the call
    of the event; the records, summaries, slot memories, noise and
    short-utterance counters and conversation states filed under any other
    call are unchanged, and so are the agent configurations. *)
Theorem webhook_touches_only_its_call (ev : event) (w : world) (c : call) :
  calls (w_db w) !! call_id ev = Some c ->
  let d := w_db w in
  let d' := w_db (fst (retell_webhook ev w)) in
  (exists said, w_spoken (fst (retell_webhook ev w)) = w_spoken w ++ said /\
                Forall (fun p => fst p = call_id ev) said) /\
  agent_configs d' = agent_configs d /\
  forall k, k <> call_id ev ->
    calls d' !! k = calls d !! k /\
    summaries d' !! k = summaries d !! k /\
    slot_memory d' !! k = slot_memory d !! k /\
    noisy_counter d' !! k = noisy_counter d !! k /\
    short_counter d' !! k = short_counter d !! k /\
    conversation_state d' !! k = conversation_state d !! k.
Proof.
  intros Hc d d'. subst d d'.
  destruct (webhook_footprint ev w c Hc) as [Hrtc Hsaid].
  split; [exact Hsaid |].
  apply rtc_db_step_framed in Hrtc. destruct Hrtc as (Ha & _ & Ho & _).
  set (d1 := fst (append_transcript (w_db w) (call_id ev)
                    (Segment (speech_text ev) (speaker ev) (timestamp ev) (confidence ev)))) in *.
  assert (Hrec : agent_configs d1 = agent_configs (w_db w) /\
                 forall k, k <> call_id ev ->
                   calls d1 !! k = calls (w_db w) !! k /\
                   summaries d1 !! k = summaries (w_db w) !! k /\
                   slot_memory d1 !! k = slot_memory (w_db w) !! k /\
                   noisy_counter d1 !! k = noisy_counter (w_db w) !! k /\
                   short_counter d1 !! k = short_counter (w_db w) !! k /\
                   conversation_state d1 !! k = conversation_state (w_db w) !! k).
  { subst d1. unfold append_transcript. rewrite Hc. cbn [fst].
    split; [reflexivity |]. intros k Hk.
    repeat split; simpl; now rewrite ?lookup_insert_ne by congruence. }
  destruct (negb _ && _).
  - destruct Hrec as (Ha0 & Ho0). split; [congruence |].
    intros k Hk. destruct (Ho k Hk) as (A1 & A2 & A3 & A4 & A5 & A6).
    destruct (Ho0 k Hk) as (B1 & B2 & B3 & B4 & B5 & B6).
    repeat split; congruence.
  - split; [exact Ha | exact Ho].
Qed.

End WebhookFrame.

Section AuditTrail.
Import PyStr SlotMemory Escalation Db Eff Oracle Processor Webhook Props Trace.
Context `{X : Collaborators}.


End AuditTrail.

Section WebhookTurns.
Import PyStr SlotMemory Escalation Db Eff Oracle Processor Webhook Props Views.
Context `{X : Collaborators}.

(** X12 — The uncooperative-driver guard.  A driver turn of a known call that
    is not noise and has fewer than three words only counts as a short
    utterance: the call's short-utterance counter goes up by one; while fewer
    than two such turns were counted before, the driver is asked to clarify
    and the call's status stays as it was; from the third short turn on the
    dispatch sentence is spoken and the call is closed as processed with a
    summary whose outcome is "No Response".  Nothing else is said and the
    escalation flag and the noise counter are untouched, whatever the words
    are. *)
Theorem short_utterance_escalation (ev : event) (w : world) (c : call) :
  event_type ev = "speech" \/ event_type ev = "transcript_update" ->
  interaction_type ev <> Some "update_only" ->
  call_id ev <> "" ->
  calls (w_db w) !! call_id ev = Some c ->
  (forall t, speak_fails (call_id ev) t = false) ->
  is_noisy (confidence ev) (speech_text ev) = false ->
  speaker ev = "driver" ->
  (split_len (speech_text ev) < 3)%nat ->
  let cid := call_id ev in
  let n := default 0%nat (short_counter (w_db w) !! cid) in
  exists w' c',
    retell_webhook ev w = (w', Ok (if (n <? 2)%nat then RespFollowup else RespEnded)) /\
    short_counter (w_db w') !! cid = Some (n + 1)%nat /\
    noisy_counter (w_db w') = noisy_counter (w_db w) /\
    w_spoken w' = w_spoken w ++
      [(cid, if (n <? 2)%nat then "Could you clarify your status or location?"
             else "I'll have dispatch follow up shortly. Thank you.")] /\
    calls (w_db w') !! cid = Some c' /\
    call_escalation_status c' = call_escalation_status c /\
    (if (n <? 2)%nat then status c' = status c
     else status c' = "processed" /\
          exists s, structured_summary c' = Some s /\ call_outcome s = Some "No Response").
Proof.
  intros Hty Hint Hcid Hc Hspeak Hnoisy Hdrv Hlen cid n.
  destruct (speech_reaches_guards ev w c Hty Hint Hcid Hc)
    as (w2 & c2 & -> & Hsp2 & Hn2 & Hsh2 & Hc2 & Hst2 & Hesc2).
  unfold noise_guard. rewrite Hnoisy. unfold short_guard. fold cid.
  rewrite Hdrv. apply Nat.ltb_lt in Hlen. rewrite Hlen. cbn [String.eqb Ascii.eqb Bool.eqb andb].
  unfold on_db, increment_short_utterances. unfold Eff.bind at 1. cbn [w_db w_spoken].
  rewrite Hsh2. fold cid. fold n.
  set (d3 := MkDb _ _ _ _ _ _ _ _).
  assert (Hc3 : calls d3 !! cid = Some c2) by exact Hc2.
  assert (H12 : Nat.eqb (n + 1) 1 || Nat.eqb (n + 1) 2 = (n <? 2)%nat).
  { destruct n as [|[|n']]; [reflexivity | reflexivity |].
    replace (S (S n') + 1)%nat with (S (S (S n'))) by lia. reflexivity. }
  rewrite H12. destruct (n <? 2)%nat eqn:Hn.
  - rewrite (bind_ok _ _ _ _ _ (speak_ok cid _ _ (Hspeak _))).
    eexists _, c2. split; [reflexivity |]. cbn [w_db w_spoken].
    rewrite Hsp2. repeat split; auto. simpl. apply lookup_insert_eq.
  - assert (H3 : (3 <=? n + 1)%nat = true).
    { apply Nat.ltb_ge in Hn. apply Nat.leb_le. lia. }
    rewrite H3.
    rewrite (bind_ok _ _ _ _ _ (speak_ok cid _ _ (Hspeak _))).
    destruct (finish_guarded (World d3 (w_spoken w2 ++
                [(cid, "I'll have dispatch follow up shortly. Thank you.")]))
                cid c2 None false true Hc3 eq_refl)
      as (w' & c' & s & Ef & Hsp' & (Hmem & Hnc & Hsc) & Hc' & Hst' & Hesc' & Hss & _ & Hout).
    rewrite (bind_ok _ _ _ _ _ Ef).
    exists w', c'. split; [reflexivity |]. cbn [w_db w_spoken] in *.
    split; [rewrite Hsc; simpl; apply lookup_insert_eq |].
    split; [now rewrite Hnc |].
    split; [now rewrite Hsp', Hsp2 |]. split; [exact Hc' |].
    split; [congruence |]. split; [exact Hst' | eauto].
Qed.





End WebhookTurns.

Section CallLifecycle.
Import PyStr SlotMemory Escalation Db Eff Oracle Processor Webhook Props Views.
Context `{X : Collaborators}.

(** X14 — Start and end of a known call.  A "call.started" event for a call
    the store knows sets its status to "in_progress" and changes nothing
    else; a "call.ended" event says nothing and hands the call to
    summarisation: when that returns, the call is "processed" and carries the
    filed summary; when the oracle fails, the handler raises and the call is
    left "completed" without a new summary. *)
Theorem call_lifecycle (ev : event) (w : world) (c : call) :
  call_id ev <> "" ->
  calls (w_db w) !! call_id ev = Some c ->
  let cid := call_id ev in
  (event_type ev = "call.started" ->
   retell_webhook ev w
   = (World (with_calls (w_db w) (<[cid := with_status c "in_progress"]> (calls (w_db w))))
            (w_spoken w), Ok RespOk)) /\
  (event_type ev = "call.ended" ->
   exists w' r c',
     retell_webhook ev w = (w', r) /\
     w_spoken w' = w_spoken w /\
     calls (w_db w') !! cid = Some c' /\
     full_transcript c' = full_transcript c /\
     ((r = Ok RespOk /\ status c' = "processed" /\
       exists s, structured_summary c' = Some s /\ summaries (w_db w') !! cid = Some s) \/
      (r = Raised /\ c' = with_status c "completed" /\
       summaries (w_db w') = summaries (w_db w)))).
Proof.
  intros Hcid Hc cid. subst cid. set (cid := call_id ev) in *.
  apply String.eqb_neq in Hcid. split.
  - intros Hty. unfold retell_webhook. fold cid. rewrite Hcid, Hty. cbn [String.eqb Ascii.eqb Bool.eqb orb].
    replace (String.eqb "call.started" "call.started") with true by reflexivity.
    unfold on_call_started, db_read, db_do, on_db, get, ret, modify, Eff.bind.
    cbn [w_db w_spoken]. fold cid. unfold get_call. rewrite Hc.
    rewrite bool_decide_eq_true_2 by eauto. cbn [negb when ret w_db w_spoken].
    unfold update_call_status. rewrite Hc. reflexivity.
  - intros Hty. unfold retell_webhook. fold cid. rewrite Hcid, Hty.
    replace (String.eqb "call.ended" "" ) with false by reflexivity.
    replace (String.eqb "call.ended" "call.started") with false by reflexivity.
    replace (String.eqb "call.ended" "speech" || String.eqb "call.ended" "update_only"
             || String.eqb "call.ended" "transcript_update") with false by reflexivity.
    replace (String.eqb "call.ended" "call.ended") with true by reflexivity.
    cbn [orb].
    set (d1 := update_call_status (w_db w) cid "completed").
    assert (Hc1 : calls d1 !! cid = Some (with_status c "completed")).
    { subst d1. unfold update_call_status. rewrite Hc. simpl. apply lookup_insert_eq. }
    destruct (process_result d1 cid _ None false false Hc1)
      as (d' & r & E & Hraised & Hok).
    assert (Ef : finish cid None false false w = (World d' (w_spoken w), r)).
    { unfold finish, db_do, on_db, modify, Eff.bind. cbn [w_db w_spoken].
      fold d1. rewrite E. destruct r; reflexivity. }
    destruct r as [[]|].
    + rewrite (bind_ok _ _ _ _ _ Ef).
      destruct (Hok eq_refl) as (s & c' & Hs & Hc' & Hss & Hst & Hft & _).
      exists (World d' (w_spoken w)), (Ok RespOk), c'.
      split; [reflexivity |]. split; [reflexivity |]. split; [exact Hc' |].
      split; [exact Hft |]. left. eauto 10.
    + rewrite (bind_raised _ _ _ _ Ef).
      destruct (Hraised eq_refl) as (-> & _).
      exists (World d1 (w_spoken w)), Raised, (with_status c "completed").
      split; [reflexivity |]. split; [reflexivity |]. split; [exact Hc1 |].
      split; [reflexivity |]. right. split; [reflexivity |]. split; [reflexivity |].
      subst d1. unfold update_call_status. rewrite Hc. reflexivity.
Qed.


End CallLifecycle.

Section WebhookCases.
Import PyStr SlotMemory Escalation Db Eff Oracle Processor Webhook Props Views Trace.
Import Scenarios Cases.

Lemma noise_escalation_witness :
  exists w' c',
    retell_webhook (X := offline) (speech "there was a crash [inaudible]" 1)
      (World noisy_twice []) = (w', Ok RespEnded) /\
    w_spoken w' =
      [("c1", "I am having trouble hearing you, please wait for a human dispatcher to call.")] /\
    calls (w_db w') !! "c1" = Some c' /\
    status c' = "processed" /\
    call_escalation_status c' = None.
Proof.
  destruct (noise_escalation (X := offline) (speech "there was a crash [inaudible]" 1)
              (World noisy_twice []) a_call (or_introl eq_refl)
              ltac:(discriminate) ltac:(discriminate) eq_refl (fun _ => eq_refl) eq_refl)
    as (w' & c' & E & _ & _ & Hs & Hc & Hesc & Hst & _).
  exists w', c'. repeat split; assumption.
Defined.

Lemma short_utterance_escalation_witness :
  exists w' c',
    retell_webhook (X := offline) (speech "Crash!" 1) (World short_twice [])
      = (w', Ok RespEnded) /\
    w_spoken w' = [("c1", "I'll have dispatch follow up shortly. Thank you.")] /\
    calls (w_db w') !! "c1" = Some c' /\
    status c' = "processed".
Proof.
  destruct (short_utterance_escalation (X := offline) (speech "Crash!" 1)
              (World short_twice []) a_call (or_introl eq_refl)
              ltac:(discriminate) ltac:(discriminate) eq_refl (fun _ => eq_refl) eq_refl
              eq_refl ltac:(vm_compute; lia))
    as (w' & c' & E & _ & _ & Hs & Hc & _ & Hst & _).
  exists w', c'. repeat split; assumption.
Defined.


Lemma webhook_touches_only_its_call_witness :
  let w' := fst (retell_webhook (X := offline) (speech "goodbye for now then" 1)
                   (World two_calls [])) in
  calls (w_db w') !! "c2" = Some another_call /\
  slot_memory (w_db w') !! "c2" = Some core_slots.
Proof.
  destruct (webhook_touches_only_its_call (X := offline) (speech "goodbye for now then" 1)
              (World two_calls []) a_call eq_refl) as (_ & _ & Ho).
  destruct (Ho "c2" ltac:(discriminate)) as (Hc & _ & Hm & _).
  split; [exact Hc | exact Hm].
Defined.


Lemma call_lifecycle_witness :
  exists w' r c',
    retell_webhook (X := outage) (bare "call.ended" "c1") (World one_call []) = (w', r) /\
    calls (w_db w') !! "c1" = Some c'.
Proof.
  destruct (proj2 (call_lifecycle (X := outage) (bare "call.ended" "c1") (World one_call [])
                     a_call ltac:(discriminate) eq_refl) eq_refl)
    as (w' & r & c' & E & _ & Hc & _).
  exists w', r, c'. split; assumption.
Defined.


End WebhookCases.

(** ** The frames of the duplex channel *)

Section DuplexQuiet.
Import PyStr SlotMemory Escalation Db Eff Oracle Processor Llm Props.
Context `{X : Collaborators}.
Variable sent : list out_frame.
Variable fin : bool.

(** Nothing has been sent beyond [sent], and the loop is where it was. *)
Let quiet (s : session) : Prop := s_sent s = sent /\ finished s = fin.

Lemma quiet_upd (f : session -> session) :
  (forall s, s_sent (f s) = s_sent s /\ finished (f s) = finished s) -> preserves quiet (upd f).
Proof.
  intros Hf. apply pres_modify. intros s [Hs Hc]. destruct (Hf s) as [Es Ec].
  split; congruence.
Qed.

Lemma quiet_upd_db (g : InMemoryDB -> InMemoryDB) : preserves quiet (upd_db g).
Proof. apply pres_modify. intros s H. exact H. Qed.

Ltac quiet_setters :=
  apply quiet_upd; intros ?;
  repeat match goal with |- context [if ?c then _ else _] => destruct c end;
  split; reflexivity.

Lemma quiet_build_context (b : body) : preserves quiet (build_context b).
Proof.
  unfold build_context. apply pres_bind; [apply pres_get |]. intros s.
  repeat match goal with
         | |- preserves _ (if ?c then _ else _) => destruct c
         | |- preserves _ (match ?o with Some _ => _ | None => _ end) => destruct o
         | |- preserves _ (ret _) => apply pres_ret
         | |- preserves _ (Eff.bind _ _) => apply pres_bind; [|intros]
         | |- preserves _ (upd _) => quiet_setters
         end.
Qed.

Lemma quiet_handle_confirmation (t : string) : preserves quiet (handle_confirmation t).
Proof.
  unfold handle_confirmation. apply pres_bind; [apply pres_get |]. intros s.
  apply pres_when.
  destruct (any_in affirmative_words t); [quiet_setters |].
  destruct (any_in negative_words t); [quiet_setters | apply pres_ret].
Qed.

Lemma quiet_emergency_branch : preserves quiet emergency_branch.
Proof.
  unfold emergency_branch. apply pres_bind; [apply pres_of_option |]. intros d.
  apply pres_bind; [quiet_setters |]. intros _.
  apply pres_bind; [apply pres_get |]. intros s.
  apply pres_bind.
  - apply pres_when. apply quiet_upd_db.
  - intros _. apply pres_when. intros s0 s' r.
    destruct (flag_escalation (s_db s0) (db_call_id s0)).
    + intros [= <- _] H. exact H.
    + intros [= <- _] H. exact H.
Qed.

Lemma quiet_reconcile (flag : captured -> bool) (value : slot_values -> option string)
    (key : string) (shared : gmap string (option string)) :
  preserves quiet (reconcile flag value key shared).
Proof.
  unfold reconcile. apply pres_bind; [apply pres_get |]. intros s.
  destruct (flag (s_captured s) && truthy (value (s_slot_values s))
            && negb (truthy (dget shared key))); [|apply pres_ret].
  apply pres_bind; [apply quiet_upd_db |]. intros _.
  apply pres_bind; [apply pres_get | intros; apply pres_ret].
Qed.

Lemma quiet_slot_driven : preserves quiet slot_driven.
Proof.
  unfold slot_driven. apply pres_bind; [apply pres_get |]. intros s.
  apply pres_bind; [apply quiet_reconcile |]. intros s1.
  apply pres_bind; [apply quiet_reconcile |]. intros s2.
  apply pres_bind; [apply quiet_reconcile |]. intros s3.
  destruct (get_missing_slots s3); quiet_setters.
Qed.

Lemma quiet_generate (ctx : context) (lu : option string) :
  preserves quiet (generate ctx lu).
Proof.
  unfold generate. apply pres_try_except; [|quiet_setters].
  apply pres_bind; [quiet_setters |]. intros _.
  destruct (truthy lu).
  - apply pres_bind.
    { apply pres_attempt. apply pres_bind; [apply pres_get |]. intros s.
      apply pres_when. apply quiet_upd_db. }
    intros _. apply pres_bind; [apply quiet_handle_confirmation |]. intros _.
    destruct (detect_emergency_keywords (default "" lu)); [apply quiet_emergency_branch |].
    apply pres_bind.
    { unfold capture_utterance. quiet_setters. }
    intros _. apply pres_bind.
    { apply pres_try_except; [apply quiet_slot_driven |].
      unfold heuristic_prompts. quiet_setters. }
    intros _. apply pres_attempt. unfold out_of_scope_guard.
    apply pres_bind; [apply pres_get |]. intros s. apply pres_when.
    apply pres_bind; [apply pres_of_option | intros; quiet_setters].
  - apply pres_bind; [apply pres_get |]. intros s.
    destruct (opening_sent s); [quiet_setters |].
    apply pres_bind; [apply pres_of_option | intros; quiet_setters].
Qed.

Lemma quiet_avoid_repeat (ctx : context) (lu : option string) :
  preserves quiet (avoid_repeat ctx lu).
Proof.
  unfold avoid_repeat. apply pres_bind; [apply pres_get |]. intros s.
  apply pres_when, pres_attempt.
  apply pres_bind; [apply pres_of_option |]. intros d1.
  apply pres_bind; [quiet_setters |]. intros _.
  destruct (truthy (agent_text d1) && _); [quiet_setters |].
  apply pres_bind; [apply pres_of_option | intros; quiet_setters].
Qed.

Lemma quiet_refresh_from (window : list utter) : preserves quiet (refresh_from window).
Proof.
  unfold refresh_from. apply pres_bind; [apply pres_get |]. intros s.
  apply quiet_upd_db.
Qed.

Lemma quiet_on_update_only (b : body) : preserves quiet (on_update_only b).
Proof. apply quiet_refresh_from. Qed.

End DuplexQuiet.
(** ** The yes/no confirmation of the duplex channel is never pending *)

Section DuplexCalm.
Import PyStr SlotMemory Escalation Db Eff Oracle Processor Llm Props.
Context `{X : Collaborators}.






















End DuplexCalm.
(** ** The frames of the duplex channel, round by round *)

Section DuplexProtocol.
Import PyStr SlotMemory Escalation Db Eff Oracle Processor Llm Props.
Context `{X : Collaborators}.

(** [emit]: one reply frame, then the close frame when the call was wound
    up, which takes a reply that asks for the end of the call. *)
Lemma emit_frames (b : body) (last_user : option string) (s : session) :
  let flag := (says_goodbye (default "" last_user) || oracle_ends (decision_current s))
              || end_now_affirm s
              || cap_status (s_captured s) && cap_location (s_captured s)
                 && cap_eta (s_captured s) in
  exists s' rest,
    emit b last_user s = (s', Ok tt) /\
    s_sent s' = s_sent s ++ Response (b_response_id b) (s_agent_text s) flag :: rest /\
    (rest = [] \/ rest = [Close 1000] /\ flag = true) /\
    last_response_id_handled s' = b_response_id b /\
    last_agent_text_sent s' = s_agent_text s /\
    finished s' = finished s.
Proof.
  intros flag. unfold emit. unfold Eff.bind at 1. unfold get at 1.
  set (text := s_agent_text s). fold flag.
  unfold send at 1. unfold Eff.bind at 1. unfold modify at 1.
  set (s1 := set_sent s (s_sent s ++ [Response (b_response_id b) text flag])).
  assert (H2 : exists s2,
            when (negb (String.eqb (db_call_id s) "") && negb (String.eqb text ""))
                 (append_quietly (db_call_id s) (agent_segment text)) s1 = (s2, Ok tt) /\
            s_sent s2 = s_sent s1 /\ finished s2 = finished s).
  { unfold when. destruct (negb (String.eqb (db_call_id s) "") && negb (String.eqb text "")).
    - eexists. repeat split.
    - eexists. repeat split. }
  destruct H2 as (s2 & E2 & Hs2 & Hc2). rewrite (bind_ok _ _ _ _ _ E2).
  unfold upd at 1. unfold Eff.bind at 1. unfold modify at 1.
  set (s3 := set_last_agent_text_sent (set_last_response_id_handled s2 (b_response_id b)) text).
  set (tail := attempt _).
  assert (Htail : exists s4 rest,
            tail s3 = (s4, Ok tt) /\
            s_sent s4 = s_sent s3 ++ rest /\
            (rest = [] \/ rest = [Close 1000] /\ flag = true) /\
            last_response_id_handled s4 = last_response_id_handled s3 /\
            last_agent_text_sent s4 = last_agent_text_sent s3 /\
            finished s4 = finished s3).
  { subst tail. unfold attempt, try_except, when.
    destruct flag eqn:Hflag; cbn [andb].
    2:{ exists s3, []. rewrite app_nil_r. repeat split. now left. }
    destruct (negb (String.eqb (db_call_id s) "")).
    2:{ exists s3, []. rewrite app_nil_r. repeat split. now left. }
    unfold upd_db, upd, send, modify, Eff.bind, ret.
    match goal with
    | |- context [process_transcript_and_store ?c ?i ?n ?r ?d] =>
        destruct (process_transcript_and_store c i n r d) as [d' [[]|]]
    end.
    - eexists _, [Close 1000]. split; [reflexivity |]. repeat split. right. now split.
    - eexists _, []. split; [reflexivity |]. rewrite app_nil_r. repeat split. now left. }
  destruct Htail as (s4 & rest & E4 & Hs4 & Hrest & Hid4 & Htx4 & Hfin4).
  exists s4, rest. split; [exact E4 |].
  split.
  { rewrite Hs4. subst s3.
    cbn [s_sent set_last_agent_text_sent set_last_response_id_handled].
    rewrite Hs2. subst s1. cbn [s_sent set_sent]. now rewrite <- app_assoc. }
  split; [exact Hrest |].
  split; [rewrite Hid4; reflexivity |]. split; [rewrite Htx4; reflexivity |].
  rewrite Hfin4. subst s3. cbn [finished set_last_agent_text_sent set_last_response_id_handled].
  exact Hc2.
Qed.

(** Lines 339-606, once the utterance is known: the reply is computed and
    handed to the peer; when the peer does not take it the loop is left,
    with nothing sent. *)
Lemma turn_frames (b : body) (ctx : context) (lu : option string) (delivered : bool)
    (s : session) :
  exists s',
    (generate ctx lu ;; avoid_repeat ctx lu ;; if delivered then emit b lu else raise) s
      = (s', if delivered then Ok tt else Raised) /\
    finished s' = finished s /\
    if delivered
    then exists text flag rest,
           s_sent s' = s_sent s ++ Response (b_response_id b) text flag :: rest /\
           (rest = [] \/ rest = [Close 1000] /\ flag = true) /\
           last_response_id_handled s' = b_response_id b /\
           last_agent_text_sent s' = text
    else s_sent s' = s_sent s.
Proof.
  destruct (nr_generate ctx lu s) as (sc & [] & Ec).
  destruct (quiet_generate (s_sent s) (finished s) ctx lu _ _ _ Ec (conj eq_refl eq_refl))
    as [Hsc Hcc].
  destruct (nr_avoid_repeat ctx lu sc) as (sd & [] & Ed).
  destruct (quiet_avoid_repeat (s_sent s) (finished s) ctx lu _ _ _ Ed (conj Hsc Hcc))
    as [Hsd Hcd].
  rewrite (bind_ok _ _ _ _ _ Ec), (bind_ok _ _ _ _ _ Ed).
  destruct delivered.
  - destruct (emit_frames b lu sd) as (se & rest & Ee & Hsent & Hrest & Hid & Htext & Hfin).
    exists se. split; [exact Ee |]. split; [congruence |].
    eexists _, _, rest. split; [rewrite Hsent, Hsd; reflexivity |].
    split; [exact Hrest |]. split; [exact Hid | exact Htext].
  - exists sd. split; [reflexivity |]. split; [exact Hcd | exact Hsd].
Qed.

(** A message that asks for a reply, from a peer that keeps to the protocol:
    exactly one reply frame goes out. *)
Lemma respond_frames (b : body) (s : session) :
  exists s' text flag rest,
    respond b s = (s', Ok tt) /\
    s_sent s' = s_sent s ++ Response (b_response_id b) text flag :: rest /\
    (rest = [] \/ rest = [Close 1000] /\ flag = true) /\
    last_response_id_handled s' = b_response_id b /\
    last_agent_text_sent s' = text /\
    finished s' = finished s.
Proof.
  unfold respond.
  destruct (nr_build_context b s) as (sa & ctx0 & Ea). rewrite (bind_ok _ _ _ _ _ Ea).
  destruct (quiet_build_context (s_sent s) (finished s) b _ _ _ Ea (conj eq_refl eq_refl))
    as [Hsa Hca].
  cbv zeta.
  match goal with
  | |- context [Eff.bind (when ?c ?m) _] =>
      assert (Hb : never_raises (when c m));
      [| assert (Hq : preserves (fun s0 => s_sent s0 = s_sent s /\ finished s0 = finished s)
                        (when c m)) ]
  end.
  { apply nr_when. apply nr_bind; [apply nr_get |]. intros s0.
    apply nr_bind; [|intros; apply nr_upd].
    apply nr_when. unfold append_quietly. apply nr_upd_db. }
  { apply pres_when. apply pres_bind; [apply pres_get |]. intros s0.
    apply pres_bind; [apply pres_when; unfold append_quietly; apply quiet_upd_db |].
    intros _. apply quiet_upd. intros s1. split; reflexivity. }
  destruct (Hb sa) as (sb & [] & Eb). rewrite (bind_ok _ _ _ _ _ Eb).
  destruct (Hq _ _ _ Eb (conj Hsa Hca)) as [Hsb Hcb].
  match goal with
  | |- context [Eff.bind (generate ?c ?l) _] =>
      destruct (turn_frames b c l true sb) as (se & Ee & Hfin & text & flag & rest & Hs & Hr & Hid & Ht)
  end.
  exists se, text, flag, rest. split; [exact Ee |].
  split; [now rewrite Hs, Hsb |]. split; [exact Hr |]. split; [exact Hid |].
  split; [exact Ht | congruence].
Qed.

(** The same for a frame whose lists may hold entries that are no objects
    and whose reply the peer may not take: the round raises exactly when a
    scan meets such an entry or the reply is not taken, and then nothing is
    sent by the round. *)
Lemma respond_loose_frames (b : body) (t c : list entry) (delivered : bool) (s : session) :
  let crash := scans_raise t c || negb delivered in
  exists s',
    respond_loose b t c delivered s = (s', if crash then Raised else Ok tt) /\
    finished s' = finished s /\
    if crash then s_sent s' = s_sent s
    else exists text flag rest,
           s_sent s' = s_sent s ++ Response (b_response_id b) text flag :: rest /\
           (rest = [] \/ rest = [Close 1000] /\ flag = true) /\
           last_response_id_handled s' = b_response_id b /\
           last_agent_text_sent s' = text.
Proof.
  cbv zeta. unfold respond_loose, scans_raise.
  destruct (nr_build_context b s) as (sa & ctx0 & Ea). rewrite (bind_ok _ _ _ _ _ Ea).
  destruct (quiet_build_context (s_sent s) (finished s) b _ _ _ Ea (conj eq_refl eq_refl))
    as [Hsa Hca].
  destruct (scan is_user (rev t)) as [found|].
  2:{ exists sa. cbn [orb]. split; [reflexivity |]. split; assumption. }
  rewrite (bind_ok (of_option (Some found)) _ sa sa found eq_refl).
  cbv zeta.
  set (ft := match found with Some m => py_or (content m) (u_text m) | None => None end).
  match goal with
  | |- context [Eff.bind (when ?c ?m) _] =>
      assert (Hb : never_raises (when c m));
      [| assert (Hq : preserves (fun s0 => s_sent s0 = s_sent s /\ finished s0 = finished s)
                        (when c m)) ]
  end.
  { apply nr_when. apply nr_bind; [apply nr_get |]. intros s0.
    apply nr_bind; [|intros; apply nr_upd].
    apply nr_when. unfold append_quietly. apply nr_upd_db. }
  { apply pres_when. apply pres_bind; [apply pres_get |]. intros s0.
    apply pres_bind; [apply pres_when; unfold append_quietly; apply quiet_upd_db |].
    intros _. apply quiet_upd. intros s1. split; reflexivity. }
  destruct (Hb sa) as (sb & [] & Eb). rewrite (bind_ok _ _ _ _ _ Eb).
  destruct (Hq _ _ _ Eb (conj Hsa Hca)) as [Hsb Hcb].
  assert (Hturn : forall lu,
            exists s',
              (generate
                 match omap chunk_of (objects_before (last_n 8 t)) with
                 | [] => ctx0
                 | _ :: _ =>
                     with_call_history ctx0
                       (Some (join (" " +:+ newline)
                                (last_n 8 (omap chunk_of (objects_before (last_n 8 t))))))
                 end lu ;;
               avoid_repeat
                 match omap chunk_of (objects_before (last_n 8 t)) with
                 | [] => ctx0
                 | _ :: _ =>
                     with_call_history ctx0
                       (Some (join (" " +:+ newline)
                                (last_n 8 (omap chunk_of (objects_before (last_n 8 t))))))
                 end lu ;;
               if delivered then emit b lu else raise) sb
              = (s', if negb delivered then Raised else Ok tt) /\
              finished s' = finished s /\
              if negb delivered then s_sent s' = s_sent s
              else exists text flag rest,
                     s_sent s' = s_sent s ++ Response (b_response_id b) text flag :: rest /\
                     (rest = [] \/ rest = [Close 1000] /\ flag = true) /\
                     last_response_id_handled s' = b_response_id b /\
                     last_agent_text_sent s' = text).
  { intros lu.
    match goal with
    | |- context [Eff.bind (generate ?c ?l) _] =>
        destruct (turn_frames b c l delivered sb) as (se & Ee & Hfin & Hrest)
    end.
    exists se. destruct delivered; cbn [negb].
    - split; [exact Ee |]. split; [congruence |].
      destruct Hrest as (text & flag & rest & Hs & Hr & Hid & Ht).
      exists text, flag, rest. split; [now rewrite Hs, Hsb |]. auto.
    - split; [exact Ee |]. split; congruence. }
  destruct (truthy ft).
  { rewrite (bind_ok (ret ft) _ sb sb ft eq_refl). cbn [orb]. apply Hturn. }
  destruct (scan (fun m => bool_decide (role m = Some "user")) (rev c)) as [m|].
  - match goal with
    | |- context [Eff.bind (Eff.bind (of_option (Some m)) ?k) _] =>
        rewrite (bind_ok (Eff.bind (of_option (Some m)) k) _ sb sb _ eq_refl)
    end.
    cbn [orb]. apply Hturn.
  - exists sb. cbn [orb]. split; [reflexivity |]. split; assumption.
Qed.

End DuplexProtocol.
Section DuplexRefinement.
Import PyStr SlotMemory Escalation Db Eff Oracle Processor Llm Props.
Context `{X : Collaborators}.

Lemma scan_objects (p : utter -> bool) (l : list utter) :
  scan p (map Obj l) = Some (List.find p l).
Proof.
  induction l as [|m l IH]; [reflexivity |]. simpl. destruct (p m); [reflexivity | exact IH].
Qed.

Lemma objects_before_objects (l : list utter) : objects_before (map Obj l) = l.
Proof. induction l as [|m l IH]; [reflexivity |]. simpl. now rewrite IH. Qed.

Lemma last_n_map {A B : Type} (f : A -> B) (n : nat) (l : list A) :
  last_n n (map f l) = map f (last_n n l).
Proof. unfold last_n. now rewrite length_map, skipn_map. Qed.

Lemma scans_raise_objects (t c : list utter) : scans_raise (map Obj t) (map Obj c) = false.
Proof.
  unfold scans_raise. rewrite <- !map_rev, !scan_objects.
  destruct (truthy _); reflexivity.
Qed.

Lemma bind_ext {S A B : Type} (m : M S A) (k1 k2 : A -> M S B) (s : S) :
  (forall a s', k1 a s' = k2 a s') -> Eff.bind m k1 s = Eff.bind m k2 s.
Proof. intros H. unfold Eff.bind. destruct (m s) as [s' [a|]]; [apply H | reflexivity]. Qed.

(** On a frame of a peer that keeps to the protocol the general reply is
    the reply of [respond]. *)
Lemma respond_loose_msg (b : body) (s : session) :
  respond_loose b (map Obj (b_transcript b)) (map Obj (b_conversation b)) true s
  = respond b s.
Proof.
  unfold respond_loose, respond, last_user_of_transcript, last_user_of_conversation,
    history_chunks.
  rewrite <- !map_rev, !scan_objects, last_n_map, !objects_before_objects.
  apply bind_ext. intros ctx0 sa.
  rewrite (bind_ok (of_option (Some (List.find is_user (rev (b_transcript b))))) _ sa sa _
             eq_refl).
  cbv zeta.
  assert (Hnil : bool_decide (map Obj (b_transcript b) = []) = bool_decide (b_transcript b = [])).
  { destruct (b_transcript b); reflexivity. }
  rewrite Hnil.
  assert (Hch : match b_transcript b with
                | [] => []
                | _ :: _ => omap chunk_of (last_n 8 (b_transcript b))
                end = omap chunk_of (last_n 8 (b_transcript b))).
  { destruct (b_transcript b); reflexivity. }
  rewrite Hch.
  apply bind_ext. intros [] sb.
  destruct (truthy _) eqn:Hft.
  - rewrite (bind_ok (ret _) _ sb sb _ eq_refl). reflexivity.
  - match goal with
    | |- context [Eff.bind (Eff.bind (of_option (Some ?m)) ?k) _] =>
        rewrite (bind_ok (Eff.bind (of_option (Some m)) k) _ sb sb _ eq_refl)
    end.
    destruct (List.find _ (rev (b_conversation b))); reflexivity.
Qed.

(** [Msg] is the case of [Loose] in which every entry is an object and the
    reply is taken. *)
Lemma on_frame_loose_msg (b : body) (s : session) :
  on_frame (Loose b (map Obj (b_transcript b)) (map Obj (b_conversation b)) true) s
  = on_frame (Msg b) s.
Proof.
  unfold on_frame, try_except.
  assert (E : loop_body (Loose b (map Obj (b_transcript b)) (map Obj (b_conversation b)) true) s
              = loop_body (Msg b) s).
  { unfold loop_body, Eff.bind, get.
    destruct (bool_decide (b_interaction_type b = Some "ping_pong")); [reflexivity |].
    destruct (negb (wants_reply b)).
    { unfold on_update_only. now rewrite last_n_map, objects_before_objects. }
    destruct (is_duplicate b s); [reflexivity |].
    apply respond_loose_msg. }
  rewrite E. reflexivity.
Qed.

End DuplexRefinement.
Section DuplexRounds.
Import PyStr SlotMemory Escalation Db Eff Oracle Processor Llm Props.
Context `{X : Collaborators}.

(** What one round of the loop does, frame by frame. *)
Lemma on_frame_frames (f : frame) (s : session) :
  let s' := fst (on_frame f s) in
  snd (on_frame f s) = Ok tt /\
  match f with
  | NonText => s' = s
  | BadJson => s_sent s' = s_sent s ++ [EmptyReply] /\ finished s' = finished s
  | Disconnect => s_sent s' = s_sent s /\ finished s' = true
  | NotObject =>
      snd (loop_body f s) = Raised /\
      s_sent s' = s_sent s ++ [Close 1011] /\ finished s' = true /\ s_db s' = s_db s
  | Msg b =>
      on_frame (Loose b (map Obj (b_transcript b)) (map Obj (b_conversation b)) true) s
        = on_frame f s /\
      snd (loop_body f s) = Ok tt /\
      finished s' = finished s /\
      if bool_decide (b_interaction_type b = Some "ping_pong")
      then s_sent s' = s_sent s ++ [Pong (b_timestamp b)]
      else if negb (wants_reply b) then s_sent s' = s_sent s
      else if is_duplicate b s then s' = s
      else exists text flag rest,
             s_sent s' = s_sent s ++ Response (b_response_id b) text flag :: rest /\
             (rest = [] \/ rest = [Close 1000] /\ flag = true) /\
             last_response_id_handled s' = b_response_id b /\
             last_agent_text_sent s' = text
  | Loose b t c delivered =>
      if bool_decide (b_interaction_type b = Some "ping_pong")
      then s_sent s' = s_sent s ++ (if delivered then [Pong (b_timestamp b)] else []) /\
           finished s' = finished s
      else if negb (wants_reply b) then s_sent s' = s_sent s /\ finished s' = finished s
      else if is_duplicate b s then s' = s
      else if scans_raise t c || negb delivered
      then snd (loop_body f s) = Raised /\
           s_sent s' = s_sent s ++ (if delivered then [Close 1011] else []) /\
           finished s' = true
      else snd (loop_body f s) = Ok tt /\
           finished s' = finished s /\
           exists text flag rest,
             s_sent s' = s_sent s ++ Response (b_response_id b) text flag :: rest /\
             (rest = [] \/ rest = [Close 1000] /\ flag = true) /\
             last_response_id_handled s' = b_response_id b /\
             last_agent_text_sent s' = text
  end.
Proof.
  cbv zeta. split.
  { destruct (on_frame_never_raises f s) as (s1 & [] & E). now rewrite E. }
  destruct f as [| |b| | |b t c delivered].
  - reflexivity.
  - split; reflexivity.
  - split; [apply on_frame_loose_msg |].
    rewrite on_frame_msg. unfold loop_body, Eff.bind, get.
    destruct (bool_decide (b_interaction_type b = Some "ping_pong")); [repeat split |].
    destruct (negb (wants_reply b)).
    { destruct (nr_refresh_from (last_n 3 (b_transcript b)) s) as (s1 & [] & E).
      destruct (quiet_on_update_only (s_sent s) (finished s) b _ _ _ E (conj eq_refl eq_refl))
        as [Hs Hf].
      unfold on_update_only. rewrite E. cbn [fst snd]. auto. }
    destruct (is_duplicate b s); [repeat split |].
    destruct (respond_frames b s) as (s1 & text & flag & rest & E & Hs & Hr & Hid & Ht & Hf).
    rewrite E. cbn [fst snd]. split; [reflexivity |]. split; [exact Hf |]. eauto 10.
  - split; reflexivity.
  - repeat split.
  - assert (E0 : loop_body (Loose b t c delivered) s =
                 (if bool_decide (b_interaction_type b = Some "ping_pong")
                  then when delivered (send (Pong (b_timestamp b)))
                  else if negb (wants_reply b) then refresh_from (objects_before (last_n 3 t))
                  else if is_duplicate b s then ret tt
                  else respond_loose b t c delivered) s) by reflexivity.
    unfold on_frame, try_except. rewrite E0. clear E0.
    destruct (bool_decide (b_interaction_type b = Some "ping_pong")).
    { destruct delivered; split; try reflexivity. cbn. now rewrite app_nil_r. }
    destruct (negb (wants_reply b)).
    { destruct (nr_refresh_from (objects_before (last_n 3 t)) s) as (s1 & [] & E).
      destruct (quiet_refresh_from (s_sent s) (finished s) _ _ _ _ E (conj eq_refl eq_refl))
        as [Hs Hf].
      rewrite E. cbn [fst]. auto. }
    destruct (is_duplicate b s); [reflexivity |].
    destruct (respond_loose_frames b t c delivered s) as (s1 & E & Hf & Hrest).
    rewrite E.
    destruct (scans_raise t c || negb delivered) eqn:Hcrash.
    + split; [reflexivity |]. unfold on_error, peer_takes.
      destruct delivered; cbn; [split; [now rewrite Hrest | reflexivity] |].
      split; [now rewrite app_nil_r | reflexivity].
    + cbn [fst snd]. split; [reflexivity |]. split; [exact Hf | exact Hrest].
Qed.

(** X16 — The frames of the duplex channel, round by round.  The handler
    lets no exception out.  A frame that is not text is ignored; a frame that
    is not JSON is answered with an empty reply; when [receive] raises the
    loop is left and nothing is sent; a text frame whose JSON is no object
    makes the loop body raise, and the function closes with code 1011 and
    returns without touching the store.  A message of a peer that keeps to
    the protocol never makes the loop body raise: a ping is answered with one
    pong carrying its timestamp, a message that asks for no reply sends
    nothing, a duplicate of the turn answered last is ignored, and every other
    message is answered with exactly one reply frame carrying the response
    identifier of the message, followed by at most the close frame with code
    1000, which is sent only after a reply that asks for the end of the call;
    the identifier and the text of the reply are the ones remembered for the
    next turn, and the loop goes on.  A message whose lists hold entries that
    are no objects, or whose reply the peer does not take, is handled in the
    same way, except that the loop body raises, and the function returns,
    exactly when a scan for the newest utterance meets such an entry or the
    reply is not taken; the close with code 1011 goes out if the peer takes
    it. *)
Theorem frame_protocol (f : frame) (s : session) :
  let s' := fst (on_frame f s) in
  snd (on_frame f s) = Ok tt /\
  match f with
  | NonText => s' = s
  | BadJson => s_sent s' = s_sent s ++ [EmptyReply] /\ finished s' = finished s
  | Disconnect => s_sent s' = s_sent s /\ finished s' = true
  | NotObject =>
      snd (loop_body f s) = Raised /\
      s_sent s' = s_sent s ++ [Close 1011] /\ finished s' = true /\ s_db s' = s_db s
  | Msg b =>
      on_frame (Loose b (map Obj (b_transcript b)) (map Obj (b_conversation b)) true) s
        = on_frame f s /\
      snd (loop_body f s) = Ok tt /\
      finished s' = finished s /\
      if bool_decide (b_interaction_type b = Some "ping_pong")
      then s_sent s' = s_sent s ++ [Pong (b_timestamp b)]
      else if negb (wants_reply b) then s_sent s' = s_sent s
      else if is_duplicate b s then s' = s
      else exists text flag rest,
             s_sent s' = s_sent s ++ Response (b_response_id b) text flag :: rest /\
             (rest = [] \/ rest = [Close 1000] /\ flag = true) /\
             last_response_id_handled s' = b_response_id b /\
             last_agent_text_sent s' = text
  | Loose b t c delivered =>
      if bool_decide (b_interaction_type b = Some "ping_pong")
      then s_sent s' = s_sent s ++ (if delivered then [Pong (b_timestamp b)] else []) /\
           finished s' = finished s
      else if negb (wants_reply b) then s_sent s' = s_sent s /\ finished s' = finished s
      else if is_duplicate b s then s' = s
      else if scans_raise t c || negb delivered
      then snd (loop_body f s) = Raised /\
           s_sent s' = s_sent s ++ (if delivered then [Close 1011] else []) /\
           finished s' = true
      else snd (loop_body f s) = Ok tt /\
           finished s' = finished s /\
           exists text flag rest,
             s_sent s' = s_sent s ++ Response (b_response_id b) text flag :: rest /\
             (rest = [] \/ rest = [Close 1000] /\ flag = true) /\
             last_response_id_handled s' = b_response_id b /\
             last_agent_text_sent s' = text
  end.
Proof. exact (on_frame_frames f s). Qed.

End DuplexRounds.

Section WholeRuns.
Import PyStr SlotMemory Escalation Db Eff Oracle Processor Props Runs.
Context `{X : Collaborators}.

(** X17 — Filled slots survive every run of the webhook: whatever events
    arrive, for this call or for others, in whatever order, and whether the
    handler returns or raises on them, a slot that holds a non-empty value
    before the run holds a non-empty value after it. *)
Theorem webhook_run_keeps_filled (evs : list Webhook.event) (w : Webhook.world)
    (cid k : string) :
  filled (Webhook.w_db w) cid k ->
  filled (Webhook.w_db (run_events evs w)) cid k.
Proof.
  unfold run_events. revert w. induction evs as [|ev evs IH]; intros w H; simpl; [exact H |].
  apply IH. now apply retell_webhook_keeps_filled.
Qed.

(** X18 — Filled slots survive every duplex session: from the accept of the
    connection through any sequence of frames, whatever the oracle answers, a
    slot of any call that holds a non-empty value in the store before the
    session holds a non-empty value after it; no frame, a negative
    confirmation included, resets a slot. *)
Theorem duplex_session_keeps_filled (d : InMemoryDB) (call_id : string)
    (fs : list Llm.frame) (cid k : string) :
  filled d cid k ->
  filled (Llm.s_db (Llm.retell_custom_llm_ws d call_id fs)) cid k.
Proof.
  intros H. unfold Llm.retell_custom_llm_ws.
  assert (Hconn : preserves (fun s => filled (Llm.s_db s) cid k) Llm.on_connect).
  { unfold Llm.on_connect. apply pres_bind; [apply pres_send |]. intros _.
    apply pres_attempt. apply pres_bind; [apply pres_get |]. intros s.
    apply pres_bind; [apply pres_of_option |]. intros dec.
    apply pres_bind; [apply pres_send |]. intros _.
    apply pres_bind; [apply pres_send |]. intros _.
    apply pres_upd. reflexivity. }
  assert (H0 : filled (Llm.s_db (fst (Llm.on_connect (Llm.new_session d call_id)))) cid k).
  { destruct (Llm.on_connect (Llm.new_session d call_id)) as [s0 r] eqn:E.
    exact (Hconn _ _ _ E H). }
  revert H0. generalize (fst (Llm.on_connect (Llm.new_session d call_id))).
  unfold Llm.run_frames. induction fs as [|f fs IH]; intros s Hs; simpl; [exact Hs |].
  apply IH. destruct (Llm.finished s); [exact Hs | now apply on_frame_keeps_filled].
Qed.

End WholeRuns.

Section WholeRunCases.
Import PyStr SlotMemory Escalation Db Eff Oracle Processor Props Runs Llm.
Import Scenarios Cases.

Lemma webhook_run_keeps_filled_witness :
  filled (Webhook.w_db (run_events (X := outage)
            [speech "no that is wrong" 1; bare "call.ended" "c1"; speech "eta unknown" 1]
            (Webhook.World core_filled []))) "c1" "eta".
Proof.
  apply (webhook_run_keeps_filled (X := outage)). reflexivity.
Defined.

Lemma duplex_session_keeps_filled_witness :
  filled (s_db (retell_custom_llm_ws (X := offline) core_filled "c1"
                  [Msg (reply_wanted 7 [user_says "no that is wrong"]); BadJson; Disconnect]))
         "c1" "current_location".
Proof.
  apply (duplex_session_keeps_filled (X := offline)). reflexivity.
Defined.

End WholeRunCases.

Section DuplexSessions.
Import PyStr SlotMemory Escalation Db Eff Oracle Processor Props Llm.
Context `{X : Collaborators}.


End DuplexSessions.

Section DuplexSessionCases.
Import PyStr SlotMemory Escalation Db Eff Oracle Processor Props Llm.
Import Scenarios Cases.

(** Once the function has returned no frame is received: a text frame whose
    JSON is no object ends the session with the close of code 1011, and so
    does a transcript whose newest entry is no object; an entry that is no
    object but older than the newest utterance only cuts the loops short. *)
Lemma malformed_frames_end_the_session :
  let says := Obj (user_says "I am driving in Lahar") in
  let greeting := [Config; Begin "Got it. Any delays or ETA?";
                   Interrupt "Got it. Any delays or ETA?"] in
  s_sent (retell_custom_llm_ws (X := indexed) one_call "call_1" [NotObject; Msg first_turn])
    = greeting ++ [Close 1011] /\
  s_sent (retell_custom_llm_ws (X := indexed) one_call "call_1"
            [Loose first_turn [says; NotObj] [] true; Msg first_turn])
    = greeting ++ [Close 1011] /\
  s_sent (retell_custom_llm_ws (X := indexed) one_call "call_1"
            [Loose first_turn [NotObj; says] [] true])
    = greeting ++ [Response (Some 1%Z) "Noted. What's your ETA?" false] /\
  s_sent (retell_custom_llm_ws (X := indexed) one_call "call_1"
            [Loose first_turn [says] [] false; Msg first_turn])
    = greeting.
Proof.
  cbv zeta. repeat match goal with |- _ /\ _ => split end; vm_compute; reflexivity.
Qed.

End DuplexSessionCases.


(** ** The helpers that read the request body *)

Section JsonFacts.
Import PyStr Json.

(** Induction over a JSON value and the values nested in it. *)
Lemma json_nested_ind (P : json -> Prop) :
  P JNull -> (forall b, P (JBool b)) -> (forall q, P (JNum q)) -> (forall s, P (JStr s)) ->
  (forall items, Forall P items -> P (JArr items)) ->
  (forall fields, Forall (fun kv => P (snd kv)) fields -> P (JObj fields)) ->
  forall d, P d.
Proof.
  intros Hnull Hbool Hnum Hstr Harr Hobj.
  fix IH 1. intros [ |b|q|s|items|fields].
  - exact Hnull.
  - apply Hbool.
  - apply Hnum.
  - apply Hstr.
  - apply Harr. induction items as [|x items IHl]; constructor; [apply IH | exact IHl].
  - apply Hobj. induction fields as [|[k v] fields IHl]; constructor; [apply IH | exact IHl].
Qed.

Lemma find_app {A : Type} (f : A -> bool) (l1 l2 : list A) :
  List.find f (l1 ++ l2) =
  match List.find f l1 with Some x => Some x | None => List.find f l2 end.
Proof. induction l1 as [|x l1 IH]; simpl; [reflexivity |]. destruct (f x); auto. Qed.

(** The search returns the value of the first wanted pair of the walk. *)
Lemma find_first_key_pairs (keys : list string) (d : json) :
  find_first_key keys d =
  match List.find (wanted keys) (pairs d) with
  | Some kv => snd kv
  | None => JNull
  end.
Proof.
  induction d as [ | | | |items IH|fields IH] using json_nested_ind; try reflexivity.
  - simpl. induction IH as [|x items Hx _ IHl]; [reflexivity |].
    rewrite find_app, Hx, IHl.
    destruct (List.find (wanted keys) (pairs x)) as [kv|] eqn:E; [|reflexivity].
    apply find_some in E as [_ Hw]. unfold wanted in Hw.
    apply andb_true_iff in Hw as [_ Ht]. now rewrite Ht.
  - simpl. induction IH as [|[k v] fields Hv _ IHl]; [reflexivity |].
    simpl in Hv. cbn [List.find]. unfold wanted at 1. cbn [fst snd].
    destruct (existsb (String.eqb k) keys && truthy_json v); [reflexivity |].
    rewrite find_app, Hv, IHl.
    destruct (List.find (wanted keys) (pairs v)) as [kv|] eqn:E; [|reflexivity].
    apply find_some in E as [_ Hw]. unfold wanted in Hw.
    apply andb_true_iff in Hw as [_ Ht]. now rewrite Ht.
Qed.

End JsonFacts.

Section JsonSearch.
Import PyStr Json.

(** X19 — The key search returns the first wanted value of a depth-first
    walk.  [find_first_key] walks the nested objects and arrays in document
    order; its result is the value of the first pair whose key is one of the
    wanted keys and whose value is truthy, so a pair nested inside an earlier
    item wins over a later pair of the top level; when no such pair exists
    the result is [None].  In particular the result is [None] or truthy. *)
Theorem find_first_key_is_first_wanted (keys : list string) (d : json) :
  let r := find_first_key keys d in
  (r = JNull /\ forall kv, In kv (pairs d) -> wanted keys kv = false) \/
  (exists before k after,
     pairs d = before ++ (k, r) :: after /\
     In k keys /\ truthy_json r = true /\
     forall kv, In kv before -> wanted keys kv = false).
Proof.
  cbv zeta. rewrite find_first_key_pairs.
  pose proof (find_split (wanted keys) (pairs d)) as H.
  destruct (List.find (wanted keys) (pairs d)) as [[k v]|].
  - right. destruct H as (before & after & E & Hw & Hall).
    exists before, k, after. split; [exact E |].
    unfold wanted in Hw. apply andb_true_iff in Hw as [Hk Ht]. cbn [fst snd] in *.
    apply existsb_exists in Hk as (k' & Hin & Hk'). apply String.eqb_eq in Hk'. subst k'.
    auto.
  - left. split; [reflexivity | exact H].
Qed.

Lemma pairs_assoc (key : string) (fields : list (string * json)) (v : json) :
  assoc key fields = Some v ->
  In (key, v) (pairs (JObj fields)) /\
  forall kv, In kv (pairs v) -> In kv (pairs (JObj fields)).
Proof.
  induction fields as [|[k x] fields IH]; [discriminate |].
  cbn [assoc]. destruct (String.eqb_spec k key) as [->|Hne].
  - intros [= ->]. split; [left; reflexivity |].
    intros kv H. cbn. right. apply in_or_app. now left.
  - intros H. destruct (IH H) as [H1 H2]. split.
    + cbn. right. apply in_or_app. right. exact H1.
    + intros kv Hkv. cbn. right. apply in_or_app. right. now apply H2.
Qed.

Lemma deep_get_reaches (d : json) (path : list string) (k : string) :
  truthy_json (deep_get d (path ++ [k])) = true ->
  In (k, deep_get d (path ++ [k])) (pairs d).
Proof.
  revert d. induction path as [|key path IH]; intros d H.
  - cbn [app deep_get] in *. destruct d; try discriminate.
    destruct (assoc k fields) as [v|] eqn:E; [|discriminate].
    now apply pairs_assoc.
  - cbn [app deep_get] in *. destruct d; try discriminate.
    destruct (assoc key fields) as [v|] eqn:E; [|discriminate].
    apply (proj2 (pairs_assoc _ _ _ E)). now apply IH.
Qed.

(** X20 — The path look-ups behind the key search add nothing when the last
    key of the path is one of the wanted keys: whenever
    [deep_get(d, path + [k])] is truthy, [find_first_key] has already found a
    truthy value, so [find_first_key(d, keys) or deep_get(d, path + [k])] is
    [find_first_key(d, keys)].  This is the case of the look-ups
    [["event", "type"]] for the event type and [["metadata", "call_id"]] for
    the call identifier. *)
Theorem deep_get_fallback_redundant (keys : list string) (d : json)
    (path : list string) (k : string) :
  In k keys ->
  (truthy_json (deep_get d (path ++ [k])) = true ->
   truthy_json (find_first_key keys d) = true) /\
  truthy_json (por (find_first_key keys d) (deep_get d (path ++ [k])))
    = truthy_json (find_first_key keys d).
Proof.
  intros Hk.
  assert (H : truthy_json (deep_get d (path ++ [k])) = true ->
              truthy_json (find_first_key keys d) = true).
  { intros Ht. pose proof (deep_get_reaches d path k Ht) as Hin.
    rewrite find_first_key_pairs.
    destruct (List.find (wanted keys) (pairs d)) as [kv|] eqn:E.
    - apply find_some in E as [_ Hw]. unfold wanted in Hw.
      now apply andb_true_iff in Hw as [_ Hv].
    - exfalso. pose proof (find_none _ _ E _ Hin) as Hall.
      unfold wanted in Hall. cbn [fst snd] in Hall.
      rewrite Ht, andb_true_r in Hall.
      assert (Hex : existsb (String.eqb k) keys = true).
      { apply existsb_exists. exists k. split; [exact Hk | apply String.eqb_refl]. }
      rewrite Hex in Hall. discriminate. }
  split; [exact H |].
  unfold por. destruct (truthy_json (find_first_key keys d)) eqn:Hf; [exact Hf |].
  destruct (truthy_json (deep_get d (path ++ [k]))) eqn:Hd; [|reflexivity].
  specialize (H eq_refl). discriminate.
Qed.

Lemma deep_get_fallback_redundant_witness :
  truthy_json (find_first_key type_keys
                 (JObj [("event", JObj [("type", JStr "speech")]); ("call", JObj [])])) = true.
Proof.
  apply (proj1 (deep_get_fallback_redundant type_keys
                  (JObj [("event", JObj [("type", JStr "speech")]); ("call", JObj [])])
                  ["event"] "type" ltac:(simpl; tauto))).
  reflexivity.
Defined.

Lemma stamp_all_snoc (evs : list json) (e : json) :
  stamp_all (evs ++ [e]) =
  match stamp_all evs, stamp_batched e with
  | Some rs, Some e' => Some (rs ++ [e'])
  | _, _ => None
  end.
Proof.
  induction evs as [|x evs IH]; cbn [app stamp_all].
  - destruct (stamp_batched e); reflexivity.
  - destruct (stamp_batched x); [|reflexivity]. rewrite IH.
    destruct (stamp_all evs); [|reflexivity].
    destruct (stamp_batched e); reflexivity.
Qed.

Lemma stamp_all_objects (evs : list json) :
  Forall (fun ev => exists f, ev = JObj f) evs <-> is_Some (stamp_all evs).
Proof.
  induction evs as [|x evs IH]; cbn [stamp_all].
  - split; [eauto | constructor].
  - split.
    + intros H. inversion H as [|? ? [f ->] Hrest]; subst.
      apply IH in Hrest as [rs ->]. cbn. eauto.
    + intros [rs H]. destruct x; try discriminate.
      constructor; [eauto |]. apply IH.
      cbn in H. destruct (stamp_all evs); [eauto | discriminate].
Qed.

(** X21 — Of a batch only the last event counts.  When the body carries a
    list under "events", the handler works on the last element of that list
    and on nothing else: the elements before it and the other fields of the
    body have no influence on the normalised event, as long as every element
    is an object; and if any element of the list is not an object the whole
    body is rejected as malformed. *)
Theorem batch_keeps_last_event_only (fields : list (string * json))
    (evs : list json) (e : json) :
  dict_get fields "events" = JArr (evs ++ [e]) ->
  (Forall (fun ev => exists f, ev = JObj f) evs ->
   normalize (JObj fields) = normalize (JObj [("events", JArr [e])])) /\
  (~ Forall (fun ev => exists f, ev = JObj f) (evs ++ [e]) ->
   normalize (JObj fields) = None).
Proof.
  intros Hev. unfold normalize, pick_event. rewrite Hev. split.
  - intros Hobj. apply stamp_all_objects in Hobj as [rs Hrs].
    rewrite stamp_all_snoc, Hrs.
    change (dict_get [("events", JArr [e])] "events") with (JArr [e]).
    cbn [stamp_all]. destruct (stamp_batched e) as [e'|]; [|reflexivity].
    now rewrite last_snoc.
  - intros Hn. destruct (stamp_all (evs ++ [e])) as [rs|] eqn:E; [|reflexivity].
    exfalso. apply Hn, stamp_all_objects. eauto.
Qed.

Lemma batch_keeps_last_event_only_witness :
  normalize (JObj [("events",
                    JArr [JObj [("type", JStr "call.started"); ("call_id", JStr "c1")];
                          JObj [("type", JStr "speech"); ("call_id", JStr "c2")]]);
                   ("event_type", JStr "call.ended"); ("call_id", JStr "c0")])
  = normalize (JObj [("events", JArr [JObj [("type", JStr "speech"); ("call_id", JStr "c2")]])]).
Proof.
  apply (proj1 (batch_keeps_last_event_only
                  [("events",
                    JArr [JObj [("type", JStr "call.started"); ("call_id", JStr "c1")];
                          JObj [("type", JStr "speech"); ("call_id", JStr "c2")]]);
                   ("event_type", JStr "call.ended"); ("call_id", JStr "c0")]
                  [JObj [("type", JStr "call.started"); ("call_id", JStr "c1")]]
                  (JObj [("type", JStr "speech"); ("call_id", JStr "c2")]) eq_refl)).
  repeat constructor. eauto.
Defined.

End JsonSearch.

(** ** Agent configurations and the call listing *)

Section AgentConfigs.
Import PyStr Json Db Admin.

(** X22 — Round trips of the agent-configuration store.  A configuration
    that was created is found under its identifier, with an empty dict for
    missing voice settings; an update of an unknown identifier returns
    [None] and changes nothing; an update of a known one overwrites exactly
    the fields that the body sets, keeps the identifier and the creation
    time, and what it returns is what is stored; a deletion reports whether
    the identifier was known, after it the identifier is unknown, and so a
    second deletion or an update reports failure.  None of the three
    touches a configuration filed under another identifier. *)
Theorem agent_config_round_trips (cfgs : gmap string agent_row) (rid other : string) :
  other <> rid ->
  (forall body t1 t2,
     let r := create_agent_config cfgs body rid t1 t2 in
     get_agent_config (fst r) rid = Some (snd r) /\
     ar_voice_settings (snd r) = default [] (c_voice_settings body) /\
     get_agent_config (fst r) other = get_agent_config cfgs other) /\
  (forall body now,
     let r := update_agent_config cfgs rid body now in
     get_agent_config (fst r) other = get_agent_config cfgs other /\
     match get_agent_config cfgs rid with
     | None => r = (cfgs, None)
     | Some old =>
         exists new,
           snd r = Some new /\ get_agent_config (fst r) rid = Some new /\
           ar_id new = ar_id old /\ ar_created_at new = ar_created_at old /\
           ar_updated_at new = now /\
           ar_name new = default (ar_name old) (u_name body) /\
           ar_prompt_template new = default (ar_prompt_template old) (u_prompt_template body) /\
           ar_voice_settings new = default (ar_voice_settings old) (u_voice_settings body) /\
           ar_description new = match u_description body with
                                | Some v => Some v
                                | None => ar_description old
                                end
     end) /\
  (let r := delete_agent_config cfgs rid in
   snd r = bool_decide (is_Some (get_agent_config cfgs rid)) /\
   get_agent_config (fst r) rid = None /\
   get_agent_config (fst r) other = get_agent_config cfgs other /\
   snd (delete_agent_config (fst r) rid) = false /\
   (forall body now, snd (update_agent_config (fst r) rid body now) = None)).
Proof.
  intros Hne. unfold get_agent_config. split; [|split].
  - intros body t1 t2. cbv zeta. unfold create_agent_config. cbn [fst snd ar_voice_settings].
    rewrite lookup_insert_eq, lookup_insert_ne by congruence. auto.
  - intros body now. cbv zeta. unfold update_agent_config.
    destruct (cfgs !! rid) as [old|] eqn:E; cbn [fst snd].
    + rewrite lookup_insert_ne by congruence. split; [reflexivity |].
      eexists. split; [reflexivity |]. rewrite lookup_insert_eq. repeat split.
    + split; reflexivity.
  - cbv zeta.
    change (fst (delete_agent_config cfgs rid)) with (delete rid cfgs).
    change (snd (delete_agent_config cfgs rid)) with (bool_decide (is_Some (cfgs !! rid))).
    rewrite lookup_delete_eq, lookup_delete_ne by congruence.
    split; [reflexivity |]. split; [reflexivity |]. split; [reflexivity |]. split.
    + unfold delete_agent_config. cbn [fst snd]. rewrite lookup_delete_eq.
      apply bool_decide_eq_false. intros [x Hx]. discriminate.
    + intros body now. unfold update_agent_config. now rewrite lookup_delete_eq.
Qed.

Lemma agent_config_round_trips_witness :
  snd (update_agent_config
         (fst (delete_agent_config
                 (fst (create_agent_config ∅ (CreateBody "Dispatch" None "Ask for status" None)
                         "a1" "t0" "t0")) "a1"))
         "a1" (UpdateBody (Some "New name") None None None) "t1") = None.
Proof.
  apply (proj2 (proj2 (proj2 (proj2 (proj2 (proj2
           (agent_config_round_trips
              (fst (create_agent_config ∅ (CreateBody "Dispatch" None "Ask for status" None)
                      "a1" "t0" "t0")) "a1" "a2" ltac:(discriminate)))))))).
Defined.

End AgentConfigs.

Section CallListing.
Import PyStr Json Db Admin.

Lemma filter_by_name_named (wanted : string) (items : list call) :
  Forall (fun c => is_Some (driver_name c)) items ->
  filter_by_name wanted items =
  Some (List.filter (fun c => match driver_name c with
                              | Some n => str_in (lower wanted) (lower n)
                              | None => false
                              end) items).
Proof.
  induction 1 as [|c items [n Hn] _ IH]; [reflexivity |].
  cbn [filter_by_name List.filter]. unfold name_matches. rewrite Hn, IH. reflexivity.
Qed.

Lemma filter_filter {A : Type} (f g : A -> bool) (l : list A) :
  List.filter g (List.filter f l) = List.filter (fun x => f x && g x) l.
Proof.
  induction l as [|x l IH]; [reflexivity |]. simpl.
  destruct (f x); simpl; [destruct (g x) |]; now rewrite IH.
Qed.

Lemma filter_all {A : Type} (l : list A) : List.filter (fun _ => true) l = l.
Proof. induction l as [|x l IH]; [reflexivity |]. simpl. now rewrite IH. Qed.

(** The two optional filters of [list_calls] together select the calls that
    pass [selected]. *)
Lemma list_calls_selected (items : list call) (st dn : option string) (page ps : Z) :
  Forall (fun c => is_Some (driver_name c)) items ->
  list_calls items st dn page ps =
  let chosen := List.filter (selected st dn) items in
  Some (py_slice chosen ((page - 1) * ps) ((page - 1) * ps + ps), length chosen).
Proof.
  intros Hnamed. unfold list_calls.
  assert (Hsel : (if truthy dn
                  then filter_by_name (default "" dn)
                         (if truthy st
                          then List.filter (fun c => String.eqb (status c) (default "" st)) items
                          else items)
                  else Some (if truthy st
                             then List.filter (fun c => String.eqb (status c) (default "" st))
                                    items
                             else items))
                 = Some (List.filter (selected st dn) items)).
  { unfold selected. destruct (truthy st), (truthy dn); cbn [negb orb].
    - rewrite filter_by_name_named.
      + now rewrite filter_filter.
      + clear -Hnamed. induction Hnamed as [|c l Hc _ IH]; simpl; [constructor |].
        destruct (String.eqb _ _); [constructor |]; assumption.
    - f_equal. apply filter_ext. intros c. now rewrite andb_true_r.
    - rewrite filter_by_name_named by exact Hnamed. reflexivity.
    - now rewrite filter_all. }
  rewrite Hsel. reflexivity.
Qed.

Lemma in_firstn {A : Type} (n : nat) (l : list A) (x : A) :
  In x (firstn n l) -> In x l.
Proof.
  revert l. induction n as [|n IH]; intros [|y l]; simpl; try tauto.
  intros [->|H]; [now left | right; now apply IH].
Qed.

Lemma in_skipn {A : Type} (n : nat) (l : list A) (x : A) :
  In x (skipn n l) -> In x l.
Proof.
  revert l. induction n as [|n IH]; intros [|y l]; simpl; try tauto.
  intros H. right. now apply IH.
Qed.

Lemma py_slice_window {A : Type} (xs : list A) (a n : nat) :
  py_slice xs (Z.of_nat a) (Z.of_nat a + Z.of_nat n) = firstn n (skipn a xs).
Proof.
  unfold py_slice.
  replace (Z.of_nat a <? 0)%Z with false by (symmetry; apply Z.ltb_ge; lia).
  replace (Z.of_nat a + Z.of_nat n <? 0)%Z with false by (symmetry; apply Z.ltb_ge; lia).
  destruct (le_lt_dec (length xs) a) as [Hle|Hlt].
  - rewrite (Z.min_r (Z.of_nat a)) by lia. rewrite Nat2Z.id.
    rewrite (skipn_all2 xs (n := length xs)) by lia.
    rewrite (skipn_all2 xs (n := a)) by exact Hle.
    now rewrite !firstn_nil.
  - rewrite (Z.min_l (Z.of_nat a)) by lia. rewrite Nat2Z.id.
    destruct (le_lt_dec (a + n) (length xs)) as [Hfit|Hover].
    + rewrite Z.min_l by lia. f_equal. lia.
    + rewrite Z.min_r by lia.
      replace (Z.to_nat (Z.of_nat (length xs) - Z.of_nat a)) with (length xs - a)%nat by lia.
      rewrite !firstn_all2; try reflexivity; rewrite length_skipn; lia.
Qed.

(** X23 — A page of the call listing.  With stored driver names that are
    strings, [list_calls] returns, for a page number of at least one and a
    page size that is not negative, the calls that pass the status filter
    (exact match) and the driver-name filter (case-insensitive substring),
    in creation order, from position [(page - 1) * page_size] on and at most
    [page_size] of them, together with the number of all calls that pass the
    filters, whatever the page; page zero is always empty. *)
Theorem list_calls_page (items : list call) (st dn : option string) (page ps : Z) :
  Forall (fun c => is_Some (driver_name c)) items ->
  (0 <= ps)%Z ->
  let chosen := List.filter (selected st dn) items in
  (1 <= page ->
   exists shown,
     list_calls items st dn page ps = Some (shown, length chosen) /\
     shown = firstn (Z.to_nat ps) (skipn (Z.to_nat ((page - 1) * ps)) chosen) /\
     (length shown <= Z.to_nat ps)%nat /\
     Forall (fun c => selected st dn c = true /\ In c items) shown)%Z /\
  list_calls items st dn 0 ps = Some ([], length chosen).
Proof.
  intros Hnamed Hps chosen. split.
  - intros Hpage. eexists. split; [|split; [reflexivity |split]].
    + rewrite (list_calls_selected items st dn page ps Hnamed). cbv zeta. fold chosen.
      f_equal. f_equal.
      rewrite <- (py_slice_window chosen (Z.to_nat ((page - 1) * ps)) (Z.to_nat ps)).
      f_equal; nia.
    + rewrite length_firstn. lia.
    + apply List.Forall_forall. intros c Hc.
      apply in_firstn, in_skipn in Hc.
      apply filter_In in Hc as [Hi Hs]. auto.
  - rewrite (list_calls_selected items st dn 0 ps Hnamed). cbv zeta. fold chosen.
    f_equal. f_equal. unfold py_slice.
    replace ((0 - 1) * ps + ps)%Z with 0%Z by lia.
    replace (0 <? 0)%Z with false by reflexivity.
    rewrite (Z.min_l 0) by lia.
    destruct ((0 - 1) * ps <? 0)%Z eqn:E.
    + replace (Z.to_nat (0 - Z.max ((0 - 1) * ps + Z.of_nat (length chosen)) 0)) with 0%nat by lia.
      reflexivity.
    + apply Z.ltb_ge in E.
      replace (Z.to_nat (0 - Z.min ((0 - 1) * ps) (Z.of_nat (length chosen)))) with 0%nat by lia.
      reflexivity.
Qed.

End CallListing.

Section CallListingPages.
Import PyStr Json Db Admin.

Lemma seq_snoc (start len : nat) : seq start (S len) = seq start len ++ [(start + len)%nat].
Proof.
  revert start. induction len as [|len IH]; intros start.
  - simpl. now rewrite Nat.add_0_r.
  - change (seq start (S (S len))) with (start :: seq (S start) (S len)).
    rewrite IH. simpl. now rewrite Nat.add_succ_r.
Qed.

(** X24 — The pages tile the listing.  With stored driver names that are
    strings and a page size [n], the pages 1, 2, ..., [k] of [list_calls],
    one after the other, are exactly the first [k * n] calls that pass the
    filters, in creation order: no call is skipped and none is shown twice;
    once [k * n] reaches the total, the pages together are the whole
    selection. *)
Theorem list_calls_pages_tile (items : list call) (st dn : option string) (n k : nat) :
  Forall (fun c => is_Some (driver_name c)) items ->
  let chosen := List.filter (selected st dn) items in
  let shown (p : nat) : list call :=
    match list_calls items st dn (Z.of_nat p) (Z.of_nat n) with
    | Some (l, _) => l
    | None => []
    end in
  concat (map shown (seq 1 k)) = firstn (k * n) chosen /\
  ((length chosen <= k * n)%nat -> concat (map shown (seq 1 k)) = chosen).
Proof.
  intros Hnamed chosen shown.
  assert (Hshown : forall p, shown (S p) = firstn n (skipn (p * n) chosen)).
  { intros p. subst shown. cbv beta.
    rewrite (list_calls_selected items st dn _ _ Hnamed). cbv zeta. fold chosen.
    rewrite <- (py_slice_window chosen (p * n) n). f_equal; lia. }
  assert (Htile : concat (map shown (seq 1 k)) = firstn (k * n) chosen).
  { induction k as [|k IH]; [reflexivity |].
    rewrite seq_snoc, map_app, concat_app, IH. cbn [map concat].
    rewrite app_nil_r. change (1 + k)%nat with (S k). rewrite Hshown.
    rewrite take_take_drop. f_equal. lia. }
  split; [exact Htile |].
  intros Hall. rewrite Htile. now apply firstn_all2.
Qed.

Lemma list_calls_page_witness :
  exists shown,
    list_calls [Scenarios.a_call; Cases.another_call; Scenarios.a_call] (Some "in_progress")
      (Some "MI") 2 1 = Some (shown, 2%nat) /\
    shown = [Scenarios.a_call].
Proof.
  destruct (proj1 (list_calls_page
                     [Scenarios.a_call; Cases.another_call; Scenarios.a_call]
                     (Some "in_progress") (Some "MI") 2 1
                     ltac:(repeat constructor; eauto) ltac:(lia)) ltac:(lia))
    as (shown & E & Hs & _).
  exists shown. split; [exact E | exact Hs].
Defined.

Lemma list_calls_pages_tile_witness :
  concat (map (fun p => match list_calls [Scenarios.a_call; Cases.another_call; Scenarios.a_call]
                                None None (Z.of_nat p) (Z.of_nat 2) with
                        | Some (l, _) => l
                        | None => []
                        end) (seq 1 2))
  = [Scenarios.a_call; Cases.another_call; Scenarios.a_call].
Proof.
  apply (proj2 (list_calls_pages_tile
                  [Scenarios.a_call; Cases.another_call; Scenarios.a_call] None None 2 2
                  ltac:(repeat constructor; eauto))).
  simpl. lia.
Defined.

End CallListingPages.

Section PromptLadder.
Import PyStr SlotMemory Escalation Db Eff Oracle Processor Webhook Props.
Context `{X : Collaborators}.

(** A speech turn that passes both guards reaches [reply] in the world left
    by the recording of the segment and the refresh of the slot memory. *)
Lemma speech_reaches_reply (ev : event) (w : world) (c : call) :
  event_type ev = "speech" \/ event_type ev = "transcript_update" ->
  interaction_type ev <> Some "update_only" ->
  call_id ev <> "" ->
  calls (w_db w) !! call_id ev = Some c ->
  is_noisy (confidence ev) (speech_text ev) = false ->
  (speaker ev = "driver" -> (3 <= split_len (speech_text ev))%nat) ->
  let w2 := fst ((record_segment ev ;; refresh_state ev) w) in
  retell_webhook ev w = reply ev w2 /\
  w_spoken w2 = w_spoken w /\
  exists c2, calls (w_db w2) !! call_id ev = Some c2 /\ status c2 = status c.
Proof.
  intros Hty Hint Hcid Hc Hnoise Hshort w2. subst w2.
  destruct (prelude_spec ev w c Hc)
    as (w2 & c2 & Epre & Hsp2 & _ & _ & Hc2 & Hst2 & _ & _).
  rewrite Epre. cbn [fst]. split; [|split; [exact Hsp2 | eauto]].
  rewrite (dispatch_speech ev w Hty Hcid). unfold on_speech.
  change (record_segment ev ;; refresh_state ev ;; ?k)
    with (record_segment ev ;; (refresh_state ev ;; k)).
  pose proof Epre as Epre'. unfold Eff.bind in Epre'.
  unfold Eff.bind at 1.
  destruct (record_segment ev w) as [w1 [[]|]]; [|discriminate].
  unfold Eff.bind at 1.
  destruct (refresh_state ev w1) as [w2' [[]|]]; [|discriminate].
  injection Epre' as ->.
  apply (guards_pass ev w2 Hty Hint Hnoise Hshort).
Qed.

Lemma followup_nonempty (e : env) (slots : gmap string (option string)) (k : string)
    (rest : list string) :
  switched_off (SLOT_TEXT_TEMPLATES_ENABLED e) = false ->
  get_missing_slots slots = k :: rest ->
  build_followup_for_missing e (get_missing_slots slots) <> "".
Proof.
  intros Hon. unfold build_followup_for_missing, get_missing_slots, SLOT_KEYS.
  rewrite Hon. cbn [List.filter].
  destruct (is_missing (dget slots "driver_status"));
    destruct (is_missing (dget slots "current_location"));
    destruct (is_missing (dget slots "eta"));
    destruct (is_missing (dget slots "emergency_type"));
    destruct (is_missing (dget slots "emergency_location")); discriminate.
Qed.

(** A turn that is answered with a question: the sentence said, the
    conversation state it leaves, and the call still open. *)
Lemma question_turn (ev : event) (w : world) (c : call) (next : string)
    (rest : list string) :
  event_type ev = "speech" \/ event_type ev = "transcript_update" ->
  interaction_type ev <> Some "update_only" ->
  call_id ev <> "" ->
  calls (w_db w) !! call_id ev = Some c ->
  (forall t, speak_fails (call_id ev) t = false) ->
  switched_off (SLOT_TEXT_TEMPLATES_ENABLED environ) = false ->
  is_noisy (confidence ev) (speech_text ev) = false ->
  (speaker ev = "driver" -> (3 <= split_len (speech_text ev))%nat) ->
  detect_emergency_keywords (speech_text ev) = false ->
  says_goodbye (speech_text ev) = false ->
  let cid := call_id ev in
  let w2 := fst ((record_segment ev ;; refresh_state ev) w) in
  let slots := get_slot_memory (w_db w2) cid in
  let retries := prompt_retries (get_conversation_state (w_db w2) cid) in
  get_missing_slots slots = next :: rest ->
  exists w' c' prompt,
    retell_webhook ev w = (w', Ok RespOk) /\
    w_spoken w' = w_spoken w ++ [(cid, prompt)] /\
    prompt = rephrase retries next (build_followup_for_missing environ (get_missing_slots slots)) /\
    (retries = 0%nat -> prompt = build_followup_for_missing environ (get_missing_slots slots)) /\
    ((2 <= retries)%nat ->
     prompt = "If it's easier, just tell me one thing: your status, location, or ETA.") /\
    get_conversation_state (w_db w') cid
      = ConvState (Some next) (retries + 1)%nat (Some prompt) /\
    get_slot_memory (w_db w') cid = slots /\
    calls (w_db w') !! cid = Some c' /\ status c' = status c.
Proof.
  intros Hty Hint Hcid Hc Hspeak Hon Hnoise Hshort Hnoem Hbye cid w2 slots retries Hmiss.
  destruct (speech_reaches_reply ev w c Hty Hint Hcid Hc Hnoise Hshort)
    as (E & Hsp2 & c2 & Hc2 & Hst2).
  fold w2 in E, Hsp2, Hc2. fold cid in Hc2.
  pose proof (followup_nonempty environ slots next rest Hon Hmiss) as Hne.
  rewrite Hmiss in Hne |- *.
  set (p := build_followup_for_missing environ (next :: rest)) in *.
  set (prompt := rephrase retries next p).
  assert (Hp : String.eqb p "" = false) by (now apply String.eqb_neq).
  assert (Ebody : slot_driven ev w2
                  = (speak cid prompt ;;
                     db_do (fun d => update_conversation_state d cid
                              (ConvUpdate (Some (Some next)) (Some (retries + 1)%nat)
                                          (Some (Some prompt)))) ;;
                     ret RespOk) w2).
  { unfold slot_driven. fold cid. unfold db_read, on_db, get, ret.
    unfold Eff.bind at 1. unfold Eff.bind at 1. cbn [w_db w_spoken].
    rewrite world_eta. fold slots. rewrite Hbye, Hmiss.
    unfold Eff.bind at 1. unfold Eff.bind at 1. cbn [w_db w_spoken].
    rewrite world_eta. fold p. rewrite Hp. reflexivity. }
  exists (World (update_conversation_state (w_db w2) cid
                   (ConvUpdate (Some (Some next)) (Some (retries + 1)%nat) (Some (Some prompt))))
                (w_spoken w ++ [(cid, prompt)])), c2, prompt.
  split.
  { rewrite E. unfold reply. rewrite Hnoem. unfold try_except. rewrite Ebody.
    rewrite (bind_ok _ _ _ _ _ (speak_ok cid prompt w2 (Hspeak _))).
    unfold db_do, on_db, modify, ret, Eff.bind. cbn [w_db w_spoken]. now rewrite Hsp2. }
  cbn [w_db w_spoken]. split; [reflexivity |]. split; [reflexivity |].
  split.
  { intros H0. subst prompt. unfold rephrase. rewrite H0. reflexivity. }
  split.
  { intros H2. subst prompt. unfold rephrase.
    destruct retries as [|[|r]]; [lia | lia | reflexivity]. }
  split.
  { unfold get_conversation_state, update_conversation_state. simpl.
    rewrite lookup_insert_eq. reflexivity. }
  split; [reflexivity |]. split; [exact Hc2 | exact Hst2].
Qed.

(** X25 — The question ladder of the webhook.  On a speech turn of a known
    call that passes the noise and short-utterance guards, contains no
    emergency keyword and no goodbye, with templates on and speech delivery
    working: if, once the utterance has been merged into the slot memory, some
    slot is still missing, the handler says exactly one sentence, asks about
    the first missing slot in canonical order, and leaves the call open.  The
    sentence is the template question when the slot has not been asked
    before, the generic "just tell me one thing" sentence from the third
    consecutive ask on, and otherwise the rephrasing of the second ask; the
    conversation state then records the slot asked, one more retry and the
    sentence said.  The oracle is not consulted. *)
Theorem slot_prompt_ladder (ev : event) (w : world) (c : call) (next : string)
    (rest : list string) :
  event_type ev = "speech" \/ event_type ev = "transcript_update" ->
  interaction_type ev <> Some "update_only" ->
  call_id ev <> "" ->
  calls (w_db w) !! call_id ev = Some c ->
  (forall t, speak_fails (call_id ev) t = false) ->
  switched_off (SLOT_TEXT_TEMPLATES_ENABLED environ) = false ->
  is_noisy (confidence ev) (speech_text ev) = false ->
  (speaker ev = "driver" -> (3 <= split_len (speech_text ev))%nat) ->
  detect_emergency_keywords (speech_text ev) = false ->
  says_goodbye (speech_text ev) = false ->
  let cid := call_id ev in
  let w2 := fst ((record_segment ev ;; refresh_state ev) w) in
  let slots := get_slot_memory (w_db w2) cid in
  let retries := prompt_retries (get_conversation_state (w_db w2) cid) in
  get_missing_slots slots = next :: rest ->
  exists w' c' prompt,
    retell_webhook ev w = (w', Ok RespOk) /\
    w_spoken w' = w_spoken w ++ [(cid, prompt)] /\
    prompt = rephrase retries next (build_followup_for_missing environ (get_missing_slots slots)) /\
    (retries = 0%nat -> prompt = build_followup_for_missing environ (get_missing_slots slots)) /\
    ((2 <= retries)%nat ->
     prompt = "If it's easier, just tell me one thing: your status, location, or ETA.") /\
    get_conversation_state (w_db w') cid
      = ConvState (Some next) (retries + 1)%nat (Some prompt) /\
    get_slot_memory (w_db w') cid = slots /\
    calls (w_db w') !! cid = Some c' /\ status c' = status c.
Proof. exact (question_turn ev w c next rest). Qed.

End PromptLadder.

Section WebhookAddress.
Import PyStr Retell.

Lemma endswith_app (a p : string) : endswith (a +:+ p) p = true.
Proof.
  induction a as [|c a IH].
  - rewrite app_nil. destruct p; simpl; [reflexivity |].
    now rewrite Ascii.eqb_refl, String.eqb_refl.
  - rewrite app_cons. cbn [endswith]. rewrite IH. apply orb_true_r.
Qed.

Lemma endswith_split (s p : string) :
  endswith s p = true -> exists a, s = a +:+ p.
Proof.
  induction s as [|c s IH]; cbn [endswith]; intros H.
  - rewrite orb_false_r in H. apply String.eqb_eq in H. subst p. exists "". reflexivity.
  - apply orb_true_iff in H as [H|H].
    + apply String.eqb_eq in H. subst p. exists "". reflexivity.
    + destruct (IH H) as [a ->]. exists (String c a). reflexivity.
Qed.

Lemma rstrip_by_app (f : ascii -> bool) (a b : string) :
  rstrip_by f b <> "" -> rstrip_by f (a +:+ b) = a +:+ rstrip_by f b.
Proof.
  intros Hb. induction a as [|c a IH]; [now rewrite !app_nil |].
  rewrite !app_cons. cbn [rstrip_by]. rewrite IH.
  destruct (a +:+ rstrip_by f b) as [|d r] eqn:E; [|reflexivity].
  exfalso. destruct a; [rewrite app_nil in E; contradiction | rewrite app_cons in E; discriminate].
Qed.

Lemma rstrip_slash_path (a : string) :
  rstrip_chars "/" (a +:+ webhook_path) = a +:+ webhook_path.
Proof.
  unfold rstrip_chars. rewrite rstrip_by_app; [reflexivity | discriminate].
Qed.

(** X27 — The webhook address is canonical.  Whatever the configured
    backend address, the address handed to the provider ends with
    "/api/retell/webhook" and has no trailing slash; an address that already
    ends with the path, trailing slashes or not, is used as it is, so the
    path is appended at most once: building the address from an address
    already built changes nothing. *)
Theorem webhook_url_canonical (backend_url : string) :
  let url := webhook_url_of backend_url in
  endswith url webhook_path = true /\
  rstrip_chars "/" url = url /\
  webhook_url_of url = url /\
  (endswith (rstrip_chars "/" backend_url) webhook_path = true ->
   url = rstrip_chars "/" backend_url).
Proof.
  cbv zeta.
  assert (Hends : endswith (webhook_url_of backend_url) webhook_path = true).
  { unfold webhook_url_of.
    destruct (endswith (rstrip_chars "/" backend_url) webhook_path) eqn:E;
      [exact E | apply endswith_app]. }
  assert (Hstrip : rstrip_chars "/" (webhook_url_of backend_url) = webhook_url_of backend_url).
  { destruct (endswith_split _ _ Hends) as [a ->]. apply rstrip_slash_path. }
  split; [exact Hends |]. split; [exact Hstrip |]. split.
  - unfold webhook_url_of at 1. rewrite Hstrip, Hends. reflexivity.
  - intros H. unfold webhook_url_of. now rewrite H.
Qed.

Lemma webhook_url_canonical_witness :
  webhook_url_of "https://example.org/api/retell/webhook//"
  = rstrip_chars "/" "https://example.org/api/retell/webhook//".
Proof.
  apply (proj2 (proj2 (proj2 (webhook_url_canonical
                                 "https://example.org/api/retell/webhook//")))).
  vm_compute. reflexivity.
Defined.

End WebhookAddress.

Section LadderCase.
Import PyStr SlotMemory Escalation Db Eff Oracle Processor Webhook Props.
Import Scenarios Cases.

Lemma slot_prompt_ladder_witness :
  exists w' c' prompt,
    retell_webhook (X := offline) (speech "I am driving now" 1) (World one_call [])
      = (w', Ok RespOk) /\
    w_spoken w' = [] ++ [("c1", prompt)] /\
    calls (w_db w') !! "c1" = Some c' /\ status c' = "in_progress".
Proof.
  destruct (slot_prompt_ladder (X := offline) (speech "I am driving now" 1)
              (World one_call []) a_call "current_location"
              ["eta"; "emergency_type"; "emergency_location"]
              (or_introl eq_refl) ltac:(discriminate) ltac:(discriminate) eq_refl
              (fun _ => eq_refl) eq_refl eq_refl ltac:(intros _; vm_compute; lia)
              eq_refl eq_refl ltac:(vm_compute; reflexivity))
    as (w' & c' & prompt & E & Hs & _ & _ & _ & _ & _ & Hc & Hst).
  exists w', c', prompt. repeat split; assumption.
Defined.

End LadderCase.
Section CoreSlotsFilled.
Import PyStr SlotMemory Escalation Db Eff Oracle Processor Webhook Props.
Context `{X : Collaborators}.

(** With the three core slots filled and no emergency type on record, the
    list of missing slots starts with [emergency_type]. *)
Lemma core_filled_missing (slots : gmap string (option string)) :
  is_missing (dget slots "driver_status") = false ->
  is_missing (dget slots "current_location") = false ->
  is_missing (dget slots "eta") = false ->
  is_missing (dget slots "emergency_type") = true ->
  get_missing_slots slots = ["emergency_type"; "emergency_location"]
  \/ get_missing_slots slots = ["emergency_type"].
Proof.
  intros Hs Hl He Ht. unfold get_missing_slots, SLOT_KEYS. cbn [List.filter].
  rewrite Hs, Hl, He, Ht.
  destruct (is_missing (dget slots "emergency_location")); [now left | now right].
Qed.

(** C1 — the defect at work.  A speech turn of a call in progress gets past
    the noise guard, the short-utterance guard and the emergency scan, and
    says no goodbye; text templates are on and speech delivery works.  The
    call's [driver_status], [current_location] and [eta] are filled, and no
    emergency type is on record once the utterance is merged.  Then the
    handler does not close the call: it answers with a question about the
    type of emergency (the template question, its rephrasing on the second
    ask, the generic nudge from the third on), the three slots stay filled,
    and the call stays in progress, turn after turn. *)
Theorem core_slots_filled_call_stays_open (ev : event) (w : world) (c : call) :
  event_type ev = "speech" \/ event_type ev = "transcript_update" ->
  interaction_type ev <> Some "update_only" ->
  call_id ev <> "" ->
  calls (w_db w) !! call_id ev = Some c ->
  status c = "in_progress" ->
  (forall t, speak_fails (call_id ev) t = false) ->
  switched_off (SLOT_TEXT_TEMPLATES_ENABLED environ) = false ->
  is_noisy (confidence ev) (speech_text ev) = false ->
  (speaker ev = "driver" -> (3 <= split_len (speech_text ev))%nat) ->
  detect_emergency_keywords (speech_text ev) = false ->
  says_goodbye (speech_text ev) = false ->
  let cid := call_id ev in
  filled (w_db w) cid "driver_status" ->
  filled (w_db w) cid "current_location" ->
  filled (w_db w) cid "eta" ->
  let w2 := fst ((record_segment ev ;; refresh_state ev) w) in
  is_missing (dget (get_slot_memory (w_db w2) cid) "emergency_type") = true ->
  exists w' prompt,
    retell_webhook ev w = (w', Ok RespOk) /\
    w_spoken w' = w_spoken w ++ [(cid, prompt)] /\
    In prompt ["Understood. What type of emergency is it?";
               "What kind of emergency is it?";
               "If it's easier, just tell me one thing: your status, location, or ETA."] /\
    filled (w_db w') cid "driver_status" /\
    filled (w_db w') cid "current_location" /\
    filled (w_db w') cid "eta" /\
    status <$> (calls (w_db w') !! cid) = Some "in_progress" /\
    ~ ended (w_db w') cid.
Proof.
  intros Hty Hint Hcid Hc Hst Hspeak Hon Hnoise Hshort Hnoem Hbye cid Hs Hl He w2 Htype.
  destruct (prelude_spec ev w c Hc) as (w2' & c2 & Epre & _ & _ & _ & _ & _ & _ & Hf2).
  assert (Ew2 : w2 = w2') by (subst w2; now rewrite Epre). 
  assert (Hs2 : filled (w_db w2) cid "driver_status") by (rewrite Ew2; now apply Hf2).
  assert (Hl2 : filled (w_db w2) cid "current_location") by (rewrite Ew2; now apply Hf2).
  assert (He2 : filled (w_db w2) cid "eta") by (rewrite Ew2; now apply Hf2).
  clear Ew2 Epre Hf2 w2' c2.
  set (slots := get_slot_memory (w_db w2) cid) in *.
  assert (Hmiss : exists rest,
            get_missing_slots slots = "emergency_type" :: rest /\
            build_followup_for_missing environ ("emergency_type" :: rest)
              = "Understood. What type of emergency is it?").
  { unfold build_followup_for_missing. rewrite Hon.
    destruct (core_filled_missing slots Hs2 Hl2 He2 Htype) as [E|E]; rewrite E;
      eexists; split; reflexivity. }
  destruct Hmiss as (rest & Hmiss & Hprompt).
  destruct (question_turn ev w c "emergency_type" rest Hty Hint Hcid Hc Hspeak Hon Hnoise
              Hshort Hnoem Hbye Hmiss)
    as (w' & c' & prompt & E & Hsp & Hp & _ & _ & _ & Hmem & Hc' & Hst').
  fold cid in Hsp, Hp, Hmem, Hc'. fold w2 in Hp, Hmem. fold slots in Hp, Hmem.
  exists w', prompt. split; [exact E |]. split; [exact Hsp |].
  split.
  { rewrite Hp, Hmiss, Hprompt. unfold rephrase.
    destruct (Nat.eqb _ 1); [simpl; tauto |].
    destruct (2 <=? _)%nat; simpl; tauto. }
  unfold filled. rewrite Hmem.
  split; [exact Hs2 |]. split; [exact Hl2 |]. split; [exact He2 |].
  split; [rewrite Hc'; simpl; congruence |].
  intros (c0 & Hc0 & Hend). rewrite Hc' in Hc0. injection Hc0 as <-.
  rewrite Hst', Hst in Hend. destruct Hend; discriminate.
Qed.

End CoreSlotsFilled.

Section CoreSlotsFilledCase.
Import PyStr SlotMemory Escalation Db Eff Oracle Processor Webhook Props Scenarios.

Lemma core_slots_filled_call_stays_open_witness :
  exists w' prompt,
    retell_webhook (X := offline) (speech "what else do you need" 1) (World core_filled [])
      = (w', Ok RespOk) /\
    w_spoken w' = [] ++ [("c1", prompt)] /\
    In prompt ["Understood. What type of emergency is it?";
               "What kind of emergency is it?";
               "If it's easier, just tell me one thing: your status, location, or ETA."] /\
    filled (w_db w') "c1" "driver_status" /\
    filled (w_db w') "c1" "current_location" /\
    filled (w_db w') "c1" "eta" /\
    status <$> (calls (w_db w') !! "c1") = Some "in_progress" /\
    ~ ended (w_db w') "c1".
Proof.
  apply (core_slots_filled_call_stays_open (X := offline)
           (speech "what else do you need" 1) (World core_filled []) a_call).
  - left; reflexivity.
  - discriminate.
  - discriminate.
  - vm_compute; reflexivity.
  - reflexivity.
  - intros t; reflexivity.
  - reflexivity.
  - vm_compute; reflexivity.
  - intros _. vm_compute. lia.
  - vm_compute; reflexivity.
  - vm_compute; reflexivity.
  - vm_compute; reflexivity.
  - vm_compute; reflexivity.
  - vm_compute; reflexivity.
  - vm_compute; reflexivity.
Defined.

(** The duplex handler, given the three values in one utterance, asks for
    the end of the call in that very turn, and keeps doing so: three captured
    slots are its end condition. *)
Lemma duplex_ends_on_three_slots :
  Llm.s_sent (Llm.retell_custom_llm_ws (X := Cases.indexed) one_call "call_1"
                [Llm.Msg first_turn])
  = [Llm.Config; Llm.Begin "Got it. Any delays or ETA?";
     Llm.Interrupt "Got it. Any delays or ETA?";
     Llm.Response (Some 1%Z) "Understood. What type of emergency is it?" true;
     Llm.Close 1000] /\
  status <$> (calls (Llm.s_db (Llm.retell_custom_llm_ws (X := Cases.indexed) one_call "call_1"
                                 [Llm.Msg first_turn])) !! "c1") = Some "processed".
Proof. split; vm_compute; reflexivity. Qed.

End CoreSlotsFilledCase.
